(** * altair_nx: drawing NetworkX graphs as layered Altair charts

    A shallow embedding of [src/altair_nx/draw_altair.py] and the properties
    of its drawing functions.

    Conventions of the embedding.
    - Python floats are idealised as exact rationals ([Q]); rounding is not
      represented, and a division by zero raises [ZeroDivisionError] as it
      does on Python floats (on numpy scalars it would yield inf or nan with
      a warning; this only concerns a chart size left to [None] over
      positions of zero extent).
    - Mutable Python objects (graphs, charts, layered charts) live in a
      [store]; a Python reference is a location in it.  Every drawing
      function is a computation in a state-and-exception monad over it.
    - A method chain [c.mark_line(..).encode(..)] allocates one new chart:
      the intermediate copy made by [mark_line] is unreachable afterwards and
      is not represented.  Likewise [alt.layer(..).properties(..)].
    - The Altair constructors ([alt.Size], [alt.Color], [alt.Scale], ...)
      only build a description and are total here.
    - Altair checks the values of mark attributes and encodings against its
      schema when a chart is built, and refuses some of them (a negative
      stroke width, say) with an error of its own.  This check is not
      represented: the step that builds the chart is total here, so that
      where a result of a call is given it is the result up to this check.
      In each of the four layer functions the errors the function raises
      itself, and the errors of the selection of rows, come before it.
    - [networkx]'s layout and the trigonometric geometry helpers of the
      projection module are parameters ([Externals]). *)

From Stdlib Require Import QArith Lqa.
From stdpp Require Import base option list strings pretty gmap.

Local Open Scope string_scope.
Local Open Scope list_scope.

(** ** Python values *)

(** Hashable identifiers: node names, and the tuples naming edges. *)
Inductive label :=
  | LStr (s : string)
  | LInt (z : Z)
  | LPair (a b : label).

#[global] Instance label_eq_dec : EqDecision label.
Proof. solve_decision. Defined.

(** The values a caller may pass for a dynamically typed parameter. *)
Inductive pyval :=
  | PNone
  | PBool (b : bool)
  | PInt (z : Z)
  | PFloat (q : Q)
  | PStr (s : string)
  | PList (l : list label)
  | PObject.

(** Python truthiness, as used by [if node_label:]. *)
Definition truthy (v : pyval) : bool :=
  match v with
  | PNone => false
  | PBool b => b
  | PInt z => negb (z =? 0)%Z
  | PFloat q => negb (Qeq_bool q 0)
  | PStr s => negb (String.eqb s "")
  | PList l => match l with [] => false | _ => true end
  | PObject => true
  end.

(** [isinstance(v, str)] *)
Definition is_str (v : pyval) : bool :=
  match v with PStr _ => true | _ => false end.

(** [isinstance(v, int)]; [bool] is a subclass of [int]. *)
Definition is_int (v : pyval) : bool :=
  match v with PInt _ | PBool _ => true | _ => false end.

(** [isinstance(v, (float, int))] *)
Definition is_number (v : pyval) : bool :=
  match v with PInt _ | PBool _ | PFloat _ => true | _ => false end.

(** The exception classes raised by the code and by the library calls it makes. *)
Inductive exn :=
  | ValueError
  | TypeError
  | KeyError
  | IndexError
  | AttributeError
  | ZeroDivisionError.

#[global] Instance exn_eq_dec : EqDecision exn.
Proof. solve_decision. Defined.

Inductive outcome (A : Type) :=
  | Ok (a : A)
  | Raise (e : exn).
Arguments Ok {A} a.
Arguments Raise {A} e.

Definition is_ok {A} (o : outcome A) : bool :=
  match o with Ok _ => true | Raise _ => false end.

Definition obind {A B} (o : outcome A) (k : A -> outcome B) : outcome B :=
  match o with
  | Ok a => k a
  | Raise e => Raise e
  end.

(** ** Record sets (pandas data frames) *)

Inductive cell :=
  | CNaN
  | CFloat (q : Q)
  | CAtom (l : label).

(** Column types; [DObject] is pandas' ['O']. *)
Inductive dtype := DObject | DInt | DFloat.

#[global] Instance dtype_eq_dec : EqDecision dtype.
Proof. solve_decision. Defined.

(** A rectangular record set: named, typed columns, and rows carrying their
    index label and one cell per column. *)
Record DataFrame := {
  df_columns : list (string * dtype);
  df_rows : list (label * list cell)
}.

Definition columns (df : DataFrame) : list string := (df_columns df).*1.
Definition index (df : DataFrame) : list label := (df_rows df).*1.
Definition n_rows (df : DataFrame) : nat := length (df_rows df).

(** [df.dtypes[c]] *)
Definition dtype_of (df : DataFrame) (c : string) : option dtype :=
  (fun r => r.2.2) <$> list_find (fun cd => cd.1 = c) (df_columns df).

(** Position of column [c], for [df[c]]. *)
Definition column_pos (df : DataFrame) (c : string) : option nat :=
  fst <$> list_find (fun cd => cd.1 = c) (df_columns df).

(** [x in subset] for a cell of an identifier column. *)
Definition cell_isin (subset : list label) (c : cell) : bool :=
  match c with
  | CAtom l => bool_decide (l ∈ subset)
  | _ => false
  end.

(** [df.loc[df[c].isin(subset)]]: the rows whose [c] cell is one of
    [subset]; [KeyError] when there is no column [c].  Identifiers of
    [subset] that occur nowhere simply select nothing. *)
Definition loc_isin (df : DataFrame) (c : string) (subset : list label)
  : outcome DataFrame :=
  match column_pos df c with
  | None => Raise KeyError
  | Some i =>
      Ok {| df_columns := df_columns df;
            df_rows := filter (fun r => cell_isin subset (default CNaN (r.2 !! i)) = true)
                              (df_rows df) |}
  end.

(** The rows labelled [l], in order. *)
Definition rows_labelled (df : DataFrame) (l : label) : list (label * list cell) :=
  filter (fun r => r.1 = l) (df_rows df).

(** [df.loc[subset]] for a list of index labels: the rows of each label in
    the order of [subset]; pandas (1.0 and later) raises [KeyError] as soon
    as one label of the list is not in the index. *)
Definition loc_labels (df : DataFrame) (subset : list label) : outcome DataFrame :=
  if bool_decide (Forall (fun l => l ∈ index df) subset) then
    Ok {| df_columns := df_columns df;
          df_rows := subset ≫= rows_labelled df |}
  else Raise KeyError.

(** ** Graphs (the part of [networkx] the code consumes) *)

Abbreviation attrs := (list (string * cell)) (only parsing).

(** Nodes and edges in insertion order, each with its attribute dictionary. *)
Record Graph := {
  directed : bool;
  nodes : list (label * attrs);
  edges : list (label * label * attrs)
}.

Definition node_ids (G : Graph) : list label := (nodes G).*1.

Definition is_selfloop (e : label * label * attrs) : bool :=
  bool_decide (e.1.1 = e.1.2).

Definition incident (n : label) (e : label * label * attrs) : bool :=
  bool_decide (e.1.1 = n) || bool_decide (e.1.2 = n).

(** [nx.isolates(G)]: the nodes of degree zero.  A self-loop counts in the
    degree of its node. *)
Definition isolates (G : Graph) : list label :=
  filter (fun n => forallb (fun e => negb (incident n e)) (edges G) = true) (node_ids G).

(** The graph after [G.remove_edges_from(nx.selfloop_edges(G))]. *)
Definition remove_selfloop_edges (G : Graph) : Graph :=
  {| directed := directed G;
     nodes := nodes G;
     edges := filter (fun e => is_selfloop e = false) (edges G) |}.

(** The graph after [G.remove_nodes_from(ns)]: the nodes go, and with them
    every edge they are on. *)
Definition remove_nodes_from (ns : list label) (G : Graph) : Graph :=
  {| directed := directed G;
     nodes := filter (fun n => n.1 ∉ ns) (nodes G);
     edges := filter (fun e => (e.1.1 ∉ ns) ∧ (e.1.2 ∉ ns)) (edges G) |}.

(** ** Positions *)

Definition point : Type := Q * Q.

(** A position dictionary, in insertion order. *)
Abbreviation Pos := (list (label * point)) (only parsing).

(** [pos[n]] *)
Definition pos_lookup (pos : Pos) (n : label) : outcome point :=
  match list_find (fun kv => kv.1 = n) pos with
  | Some r => Ok r.2.2
  | None => Raise KeyError
  end.

(** ** Charts (the part of Altair the code consumes) *)

Inductive mark_type := MarkLine | MarkPoint | MarkText.

#[global] Instance mark_type_eq_dec : EqDecision mark_type.
Proof. solve_decision. Defined.

(** The [legend] keyword of a channel: left out, [None], or [{}]. *)
Inductive legend_arg := LegendUndefined | LegendNone | LegendDict.

(** What an encoding channel is bound to. *)
Inductive channel :=
  | ChShorthand (v : pyval)                       (* a plain value, e.g. ['order'] *)
  | ChAxis (field : string) (title : option string) (* [alt.X]/[alt.Y] with a bare axis *)
  | ChSize (field : string) (legend : legend_arg)  (* [alt.Size] *)
  | ChShape (field : string) (legend : legend_arg) (* [alt.Shape] *)
  | ChColor (field : string) (scheme : option string) (legend : legend_arg). (* [alt.Color] *)

(** A reference is a position in the store. *)
Abbreviation loc := nat (only parsing).

(** A single-view chart: data, mark with its constant attributes, encodings. *)
Record Chart := {
  chart_data : DataFrame;
  chart_mark : option mark_type;
  chart_mark_attrs : gmap string pyval;
  chart_encoding : gmap string channel
}.

(** A layered chart: references to its layers, and its size properties. *)
Record LayerChart := {
  layer_list : list loc;
  prop_width : option Q;
  prop_height : option Q
}.

Inductive obj :=
  | OGraph (G : Graph)
  | OChart (c : Chart)
  | OLayerChart (c : LayerChart).

Abbreviation store := (list obj) (only parsing).

(** ** The monad of the drawing functions *)

Definition M (A : Type) : Type := store -> outcome A * store.

Definition ret {A} (a : A) : M A := fun σ => (Ok a, σ).

Definition raise {A} (e : exn) : M A := fun σ => (Raise e, σ).

Definition bind {A B} (m : M A) (k : A -> M B) : M B :=
  fun σ => match m σ with
           | (Ok a, σ') => k a σ'
           | (Raise e, σ') => (Raise e, σ')
           end.

(** A computation that only reads its arguments and may raise. *)
Definition lift {A} (o : outcome A) : M A := fun σ => (o, σ).

Notation "'let!' x ':=' m 'in' k" := (bind m (fun x => k))
  (at level 10, x pattern, m at level 100, k at level 200).

Notation "'try!' x ':=' o 'in' k" := (obind o (fun x => k))
  (at level 10, x pattern, o at level 100, k at level 200).

(** Constructing an object. *)
Definition alloc (o : obj) : M loc := fun σ => (Ok (length σ), σ ++ [o]).

(** Attribute access on a reference; the object must be of the class that
    has the attribute. *)
Definition get_graph (g : loc) : M Graph := fun σ =>
  match σ !! g with
  | Some (OGraph G) => (Ok G, σ)
  | _ => (Raise AttributeError, σ)
  end.

Definition get_chart (l : loc) : M Chart := fun σ =>
  match σ !! l with
  | Some (OChart c) => (Ok c, σ)
  | _ => (Raise AttributeError, σ)
  end.

Definition get_layer_chart (l : loc) : M LayerChart := fun σ =>
  match σ !! l with
  | Some (OLayerChart c) => (Ok c, σ)
  | _ => (Raise AttributeError, σ)
  end.

(** [chart.layer[i]] *)
Definition layer_item (chart : loc) (i : nat) : M loc :=
  let! c := get_layer_chart chart in
  match layer_list c !! i with
  | Some l => ret l
  | None => raise IndexError
  end.

(** [chart.layer[i] = l], in place. *)
Definition set_layer_item (chart : loc) (i : nat) (l : loc) : M unit :=
  let! c := get_layer_chart chart in
  if decide (i < length (layer_list c))%nat then
    fun σ => (Ok tt, <[chart := OLayerChart {| layer_list := <[i := l]> (layer_list c);
                                                prop_width := prop_width c;
                                                prop_height := prop_height c |}]> σ)
  else raise IndexError.

(** [c.data = df], in place. *)
Definition set_data (l : loc) (df : DataFrame) : M unit :=
  let! c := get_chart l in
  fun σ => (Ok tt, <[l := OChart {| chart_data := df;
                                    chart_mark := chart_mark c;
                                    chart_mark_attrs := chart_mark_attrs c;
                                    chart_encoding := chart_encoding c |}]> σ).

(** [deepcopy(G)] *)
Definition deepcopy (g : loc) : M loc :=
  let! G := get_graph g in alloc (OGraph G).

(** In-place update of a graph object. *)
Definition update_graph (g : loc) (f : Graph -> Graph) : M unit :=
  let! G := get_graph g in
  fun σ => (Ok tt, <[g := OGraph (f G)]> σ).

(** ** External collaborators *)

(** The layout routine of [networkx], and the two geometry helpers of the
    projection module whose closed forms are trigonometric or need a square
    root: the [i]-th of the [n] points of a self-loop ring, and the segment
    of an arrowhead on an edge. *)
Class Externals := {
  kamada_kawai_layout : Graph -> Pos;
  self_loop_point : point -> Q -> Q -> nat -> nat -> point;
  arrow_placement : point -> point -> option (list point) -> Q -> bool -> point * point
}.

(** ** Tabular projection *)

Fixpoint omap {A B} (f : A -> outcome B) (l : list A) : outcome (list B) :=
  match l with
  | [] => Ok []
  | a :: l' => try! b := f a in try! bs := omap f l' in Ok (b :: bs)
  end.

Definition attr_get (a : attrs) (k : string) : cell :=
  match list_find (fun kv => kv.1 = k) a with
  | Some r => r.2.2
  | None => CNaN
  end.

Definition is_int_cell (c : cell) : bool :=
  match c with CAtom (LInt _) => true | _ => false end.

Definition is_numeric_cell (c : cell) : bool :=
  match c with CNaN | CFloat _ | CAtom (LInt _) => true | _ => false end.

(** The column type pandas infers from the values of a column. *)
Definition infer_dtype (cs : list cell) : dtype :=
  match cs with
  | [] => DObject
  | _ => if forallb is_int_cell cs then DInt
         else if forallb is_numeric_cell cs then DFloat
         else DObject
  end.

(** A data frame from a list of records: one column per name of [cols], the
    missing marker [CNaN] where a record lacks the key. *)
Definition from_records (cols : list string) (recs : list (label * attrs)) : DataFrame :=
  {| df_columns := (fun c => (c, infer_dtype ((fun r => attr_get r.2 c) <$> recs))) <$> cols;
     df_rows := (fun r => (r.1, (fun c => attr_get r.2 c) <$> cols)) <$> recs |}.

Definition attr_keys (l : list attrs) : list string := l ≫= (fun a => a.*1).

Definition label_repr (l : label) : string :=
  (fix go (l : label) : string :=
     match l with
     | LStr s => "'" +:+ s +:+ "'"
     | LInt z => pretty z
     | LPair a b => "(" +:+ go a +:+ ", " +:+ go b +:+ ")"
     end) l.

(** Modelled from the spec: the control-point offset helper of the missing
    projection module (§4.1): the perpendicular fraction rotated by the
    edge's tangent angle and scaled by the edge length, translated along the
    edge by the parallel fraction. *)
Definition control_point (src dst : point) (c : Q * Q) : point :=
  let dx := (dst.1 - src.1)%Q in
  let dy := (dst.2 - src.2)%Q in
  (src.1 + c.1 * dx - c.2 * dy, src.2 + c.1 * dy + c.2 * dx)%Q.

Section projection.
Context `{!Externals}.

(** Modelled from the spec: the path of one edge in the missing edge
    projector (§4.2): an N-point ring for a self-loop, else the two end
    points with the control points between them when edges are curved. *)
Definition edge_path (u v : label) (src dst : point)
    (control_points : option (list (Q * Q)))
    (loop_radius loop_angle : Q) (loop_n_points : nat) : list point :=
  if bool_decide (u = v) then
    self_loop_point src loop_radius loop_angle loop_n_points <$> seq 0 loop_n_points
  else
    match control_points with
    | Some cps => [src] ++ (control_point src dst <$> cps) ++ [dst]
    | None => [src; dst]
    end.

(** Modelled from the spec: [to_pandas_edges] of the missing projection
    module (§3 edge record, §4.2 edge projector): one row per point of
    each edge's path, with the edge identifier, the 0-based order along
    the path, source, target, pair, x, y and the edge's attributes. *)
Definition to_pandas_edges (G : Graph) (pos : Pos)
    (control_points : option (list (Q * Q)))
    (loop_radius loop_angle : Q) (loop_n_points : nat) : outcome DataFrame :=
  try! recs := omap (fun e : label * label * attrs =>
      let '(u, v, a) := e in
      try! src := pos_lookup pos u in
      try! dst := pos_lookup pos v in
      Ok (imap (fun i (p : point) =>
                  [("edge", CAtom (LStr (label_repr (LPair u v))));
                   ("order", CAtom (LInt (Z.of_nat i)));
                   ("source", CAtom u); ("target", CAtom v);
                   ("pair", CAtom (LPair u v));
                   ("x", CFloat p.1); ("y", CFloat p.2)] ++ a)
               (edge_path u v src dst control_points
                          loop_radius loop_angle loop_n_points)))
    (edges G) in
  Ok (from_records
        (remove_dups (["edge"; "order"; "source"; "target"; "pair"; "x"; "y"]
                      ++ attr_keys ((fun e => e.2) <$> edges G)))
        (imap (fun i r => (LInt (Z.of_nat i), r)) (concat recs))).

(** Modelled from the spec: [to_pandas_edge_arrows] of the missing
    projection module (§3 arrow record, §4.2 arrow projector): for every
    edge the two end points of its arrow segment. *)
Definition to_pandas_edge_arrows (G : Graph) (pos : Pos)
    (arrow_length : Q) (length_is_relative : bool)
    (control_points : option (list (Q * Q))) : outcome DataFrame :=
  try! recs := omap (fun e : label * label * attrs =>
      let '(u, v, a) := e in
      try! src := pos_lookup pos u in
      try! dst := pos_lookup pos v in
      let seg := arrow_placement src dst
                   (option_map (map (control_point src dst)) control_points)
                   arrow_length length_is_relative in
      Ok (map (fun p : point =>
                 [("edge", CAtom (LStr (label_repr (LPair u v))));
                  ("source", CAtom u); ("target", CAtom v);
                  ("pair", CAtom (LPair u v));
                  ("x", CFloat p.1); ("y", CFloat p.2)] ++ a)
              (seg.1 :: seg.2 :: nil)))
    (edges G) in
  Ok (from_records
        (remove_dups (["edge"; "source"; "target"; "pair"; "x"; "y"]
                      ++ attr_keys ((fun e => e.2) <$> edges G)))
        (imap (fun i r => (LInt (Z.of_nat i), r)) (concat recs))).
End projection.

(** Modelled from the spec: [to_pandas_nodes] of the missing projection
    module (§3 node record, §4.2 node projector): exactly one row per node,
    with its identifier, x, y and its attributes.  The rows are indexed by
    node identifier, which is what [df_nodes.loc[subset]] selects on. *)
Definition to_pandas_nodes (G : Graph) (pos : Pos) : outcome DataFrame :=
  try! recs := omap (fun n : label * attrs =>
      try! xy := pos_lookup pos n.1 in
      Ok (n.1, [("node", CAtom n.1); ("x", CFloat xy.1); ("y", CFloat xy.2)] ++ n.2))
    (nodes G) in
  Ok (from_records
        (remove_dups (["node"; "x"; "y"] ++ attr_keys ((fun n => n.2) <$> nodes G)))
        recs).

(** ** Coordinate scaling ([draw_networkx], lines 535-545) *)

(** Python's [max] and [min] over a non-empty sequence: the first greatest
    and the first least element. *)
Definition py_max (x : Q) (xs : list Q) : Q :=
  fold_left (fun m y => if Qle_bool y m then m else y) xs x.

Definition py_min (x : Q) (xs : list Q) : Q :=
  fold_left (fun m y => if Qle_bool m y then m else y) xs x.

Definition max_of (l : list Q) : Q :=
  match l with [] => 0%Q | x :: xs => py_max x xs end.

Definition min_of (l : list Q) : Q :=
  match l with [] => 0%Q | x :: xs => py_min x xs end.

Definition pos_xs (pos : Pos) : list Q := (fun kv => kv.2.1) <$> pos.
Definition pos_ys (pos : Pos) : list Q := (fun kv => kv.2.2) <$> pos.

(** [max(pos_xs) - min(pos_xs)] and [max(pos_ys) - min(pos_ys)] *)
Definition x_range (pos : Pos) : Q := (max_of (pos_xs pos) - min_of (pos_xs pos))%Q.
Definition y_range (pos : Pos) : Q := (max_of (pos_ys pos) - min_of (pos_ys pos))%Q.

(** [a / b] *)
Definition py_div (a b : Q) : outcome Q :=
  if Qeq_bool b 0 then Raise ZeroDivisionError else Ok (a / b)%Q.

(** Lines 539-540: a size left to [None] follows the data's aspect ratio. *)
Definition resolve_size (pos : Pos) (chart_width chart_height : option Q)
  : outcome (Q * Q) :=
  match chart_width, chart_height with
  | None, None => Raise ValueError
  | None, Some h => try! w := py_div (h * x_range pos) (y_range pos) in Ok (w, h)
  | Some w, None => try! h := py_div (w * y_range pos) (x_range pos) in Ok (w, h)
  | Some w, Some h => Ok (w, h)
  end.

(** Line 543: each axis brought to [0, 1]. *)
Definition normalise (pos : Pos) : Pos :=
  (fun kv : label * point =>
     (kv.1,
      (if Qeq_bool (x_range pos) 0 then 0 else (kv.2.1 - min_of (pos_xs pos)) / x_range pos,
       if Qeq_bool (y_range pos) 0 then 0 else (kv.2.2 - min_of (pos_ys pos)) / y_range pos)%Q))
  <$> pos.

(** Lines 544-545: the coordinate of the larger chart size is stretched. *)
Definition stretch (pos : Pos) (chart_width chart_height : Q) : outcome Pos :=
  if Qeq_bool chart_width chart_height then Ok pos
  else if Qle_bool chart_height chart_width then
    omap (fun kv : label * point =>
            try! x := py_div (kv.2.1 * chart_width) chart_height in
            Ok (kv.1, (x, kv.2.2))) pos
  else
    omap (fun kv : label * point =>
            try! y := py_div (kv.2.2 * chart_height) chart_width in
            Ok (kv.1, (kv.2.1, y))) pos.

(** Lines 535-545 together: the rescaled positions and the resolved chart
    size.  Unpacking [zip] of no position at all raises [ValueError]. *)
Definition scale_coordinates (pos : Pos) (chart_width chart_height : option Q)
  : outcome (Pos * Q * Q) :=
  match chart_width, chart_height with
  | None, None => Raise ValueError
  | _, _ =>
      match pos with
      | [] => Raise ValueError
      | _ =>
          try! wh := resolve_size pos chart_width chart_height in
          try! pos' := stretch (normalise pos) wh.1 wh.2 in
          Ok (pos', wh.1, wh.2)
      end
  end.

(** ** Encoding assembly *)

(** The two dictionaries every drawing function fills: constant mark
    attributes and data-driven encodings. *)
Record styling := {
  marker_attrs : gmap string pyval;
  encoded_attrs : gmap string channel
}.

Definition no_styling : styling := {| marker_attrs := ∅; encoded_attrs := ∅ |}.

(** [marker_attrs[k] = v] *)
Definition set_marker (k : string) (v : pyval) (s : styling) : styling :=
  {| marker_attrs := <[k := v]> (marker_attrs s); encoded_attrs := encoded_attrs s |}.

(** [encoded_attrs[k] = c] *)
Definition set_encoded (k : string) (c : channel) (s : styling) : styling :=
  {| marker_attrs := marker_attrs s; encoded_attrs := <[k := c]> (encoded_attrs s) |}.

(** [legend = {} if legend else None] *)
Definition legend_of (legend : bool) : legend_arg :=
  if legend then LegendDict else LegendNone.

(** Edge width (lines 95-97). *)
Definition edges_width (width : pyval) (legend : legend_arg) (s : styling)
  : outcome styling :=
  match width with
  | PStr w => Ok (set_encoded "strokeWidth" (ChSize w legend) s)
  | _ => if is_number width then Ok (set_marker "strokeWidth" width s)
         else Raise TypeError
  end.

(** Arrow width (lines 200-202). *)
Definition arrows_width (width : pyval) (legend : legend_arg) (s : styling)
  : outcome styling :=
  match width with
  | PStr w => Ok (set_encoded "size" (ChSize w legend) s)
  | _ => if is_number width then Ok (set_marker "strokeWidth" width s)
         else Raise TypeError
  end.

(** Colour of edges (lines 100-107) and, word for word, of arrows (lines
    205-212). *)
Definition line_colour (colour cmap : pyval) (legend : legend_arg)
    (df : DataFrame) (s : styling) : outcome styling :=
  match colour with
  | PStr c =>
      if bool_decide (c ∈ columns df) then
        match cmap with
        | PNone => Ok (set_encoded "color" (ChColor c None legend) s)
        | PStr m =>
            if bool_decide (dtype_of df c = Some DObject) then Raise TypeError
            else Ok (set_encoded "color" (ChColor c (Some m) legend) s)
        | _ => Raise TypeError
        end
      else Ok (set_marker "color" colour s)
  | _ => Raise TypeError
  end.

(** Opacity (lines 110-112, 215-217 and 315-317). *)
Definition opacity (alpha : pyval) (s : styling) : outcome styling :=
  match alpha with
  | PStr _ => Ok (set_encoded "opacity" (ChShorthand alpha) s)
  | PNone => Ok s
  | _ => if is_number alpha then Ok (set_marker "opacity" alpha s)
         else Raise TypeError
  end.

(** Interpolation of curved edges (lines 115-117). *)
Definition interpolate (curved_edges : bool) (interpolation : pyval) (s : styling)
  : outcome styling :=
  if curved_edges then
    if is_str interpolation then Ok (set_marker "interpolate" interpolation s)
    else Raise TypeError
  else Ok s.

(** Tooltip (lines 120, 220 and 325). *)
Definition tooltips (tooltip : pyval) (s : styling) : styling :=
  match tooltip with
  | PNone => s
  | _ => set_encoded "tooltip" (ChShorthand tooltip) s
  end.

(** Node size (lines 295-297) and label font size (lines 394-396, where the
    legend is always [None]). *)
Definition point_size (size : pyval) (legend : legend_arg) (s : styling)
  : outcome styling :=
  match size with
  | PStr f => Ok (set_encoded "size" (ChSize f legend) s)
  | _ => if is_int size then Ok (set_marker "size" size s) else Raise TypeError
  end.

(** Node outline width (lines 300-302). *)
Definition nodes_outline_width (outline_width : pyval) (legend : legend_arg)
    (s : styling) : outcome styling :=
  match outline_width with
  | PStr f => Ok (set_encoded "strokeWidth" (ChSize f legend) s)
  | _ => if is_number outline_width then Ok (set_marker "strokeWidth" outline_width s)
         else Raise TypeError
  end.

(** Node shape (lines 305-307). *)
Definition nodes_shape (shape : pyval) (legend : legend_arg) (df : DataFrame)
    (s : styling) : outcome styling :=
  match shape with
  | PStr f =>
      if bool_decide (f ∈ columns df) then Ok (set_encoded "shape" (ChShape f legend) s)
      else Ok (set_marker "shape" shape s)
  | _ => Raise TypeError
  end.

(** A string that is a fill colour or names a column: node colour (lines
    310-312) and label font colour (lines 399-401); label text (lines
    389-391) with the key ["text"]. *)
Definition column_or_constant (key : string) (v : pyval) (df : DataFrame)
    (s : styling) : outcome styling :=
  match v with
  | PStr f =>
      if bool_decide (f ∈ columns df) then Ok (set_encoded key (ChShorthand v) s)
      else Ok (set_marker key v s)
  | _ => Raise TypeError
  end.

(** Colour map of nodes (lines 320-322).  [colour] is a string by then. *)
Definition nodes_cmap (colour cmap : pyval) (s : styling) : outcome styling :=
  match cmap with
  | PStr m =>
      match colour with
      | PStr c => Ok (set_encoded "fill" (ChColor c (Some m) LegendUndefined) s)
      | _ => Raise TypeError
      end
  | PNone => Ok s
  | _ => Raise TypeError
  end.

(** The position channels of every layer; edges give their axes the empty
    title. *)
Definition with_axes (title : option string) (e : gmap string channel)
  : gmap string channel :=
  <["x" := ChAxis "x" title]> (<["y" := ChAxis "y" title]> e).

(** ** Data source and subset (shared by the four drawing functions) *)

Definition new_chart (df : DataFrame) : Chart :=
  {| chart_data := df; chart_mark := None;
     chart_mark_attrs := ∅; chart_encoding := ∅ |}.

(** Lines 71-81, 176-186, 271-281 and 366-376: the record set and the chart
    to draw in come from [layer] if given, else from layer [idx] of [chart]
    if given, else from projecting [G]; with none of the three the call is
    refused. *)
Definition select_source `{!Externals} (idx : nat)
    (project : Graph -> Pos -> outcome DataFrame)
    (G : option loc) (pos : option Pos) (chart layer : option loc)
  : M (DataFrame * loc) :=
  match layer with
  | Some l => let! c := get_chart l in ret (chart_data c, l)
  | None =>
      match chart with
      | Some ch =>
          let! l := layer_item ch idx in
          let! c := get_chart l in
          ret (chart_data c, l)
      | None =>
          match G with
          | Some g =>
              let! Gv := get_graph g in
              let pos := match pos with
                         | None => kamada_kawai_layout Gv
                         | Some p => p
                         end in
              let! df := lift (project Gv pos) in
              let! c := alloc (OChart (new_chart df)) in
              ret (df, c)
          | None => raise ValueError
          end
      end
  end.

(** Lines 90-92 (195-197, 290-292, 384-386): a list restricts the record set,
    and the restricted set is also stored into the chart being drawn in. *)
Definition restrict (select : DataFrame -> list label -> outcome DataFrame)
    (subset : pyval) (c : loc) (df : DataFrame) : M DataFrame :=
  match subset with
  | PList l =>
      let! df' := lift (select df l) in
      let! _ := set_data c df' in
      ret df'
  | PNone => ret df
  | _ => raise TypeError
  end.

(** The record set the subset step leaves, without the store. *)
Definition restricted (select : DataFrame -> list label -> outcome DataFrame)
    (subset : pyval) (df : DataFrame) : outcome DataFrame :=
  match subset with
  | PList l => select df l
  | PNone => Ok df
  | _ => Raise TypeError
  end.

(** What drawing one layer from a graph alone comes to, in terms of the
    projected record set: the new chart holding the (restricted) record set
    and the styled chart are appended to the store, the latter is returned;
    an error of the projection, of the subset or of the styling ends the
    call where it occurs. *)
Definition drawn (projected : outcome DataFrame)
    (select : DataFrame -> list label -> outcome DataFrame) (subset : pyval)
    (styling_of : DataFrame -> outcome styling) (m : mark_type)
    (attrs_of : styling -> gmap string pyval)
    (enc_of : styling -> gmap string channel) (σ : store)
  : outcome loc * store :=
  match projected with
  | Raise e => (Raise e, σ)
  | Ok df =>
      match restricted select subset df with
      | Raise e => (Raise e, σ ++ [OChart (new_chart df)])
      | Ok df' =>
          match styling_of df' with
          | Raise e => (Raise e, σ ++ [OChart (new_chart df')])
          | Ok s =>
              (Ok (S (length σ)),
               σ ++ [OChart (new_chart df');
                     OChart {| chart_data := df'; chart_mark := Some m;
                               chart_mark_attrs := attrs_of s;
                               chart_encoding := enc_of s ∪ ∅ |}])
          end
      end
  end.

(** A computation leaves the graph object at [g] as it is. *)
Definition keeps {A} (g : loc) (G : Graph) (m : M A) : Prop :=
  forall σ, σ !! g = Some (OGraph G) -> (m σ).2 !! g = Some (OGraph G).

(** Edges and arrows are selected by their ['pair'] column. *)
Definition select_pairs (df : DataFrame) (subset : list label) : outcome DataFrame :=
  loc_isin df "pair" subset.

(** [if chart is not None: chart.layer[idx] = r] *)
Definition replace_layer (chart : option loc) (idx : nat) (r : loc) : M unit :=
  match chart with
  | Some ch => set_layer_item ch idx r
  | None => ret tt
  end.

(** No row of [df] has one of [ids] in its ['pair'] column. *)
Definition matches_no_pair (ids : list label) (df : DataFrame) : Prop :=
  forall i r x, column_pos df "pair" = Some i -> r ∈ df_rows df -> x ∈ ids ->
    r.2 !! i <> Some (CAtom x).

(** The closing lines of each function: a new chart with the mark, its
    attributes and the encodings (which update those the chart drawn in
    already had); it replaces layer [idx] of [chart] when a chart was
    supplied. *)
Definition finish (c : loc) (m : mark_type) (attrs : gmap string pyval)
    (enc : gmap string channel) (chart : option loc) (idx : nat) : M loc :=
  let! old := get_chart c in
  let! r := alloc (OChart {| chart_data := chart_data old;
                             chart_mark := Some m;
                             chart_mark_attrs := attrs;
                             chart_encoding := enc ∪ chart_encoding old |}) in
  let! _ := replace_layer chart idx r in
  ret r.

(** The column an encoding channel reads, and the two ways a styling
    parameter shows in a chart. *)
Definition channel_field (ch : channel) : option string :=
  match ch with
  | ChShorthand (PStr f) => Some f
  | ChShorthand _ => None
  | ChAxis f _ | ChSize f _ | ChShape f _ | ChColor f _ _ => Some f
  end.

Definition encodes (enc : gmap string channel) (key field : string) : Prop :=
  exists ch, enc !! key = Some ch /\ channel_field ch = Some field.

(** A parameter whose constants are numbers (those [number] accepts): a
    number is a mark attribute under [mkey]; a string, any string, is an
    encoding of the column of that name under [ekey]. *)
Definition numeric_param (number : pyval -> bool) (v : pyval) (mkey ekey : string)
    (attrs : gmap string pyval) (enc : gmap string channel) : Prop :=
  (forall f, v = PStr f -> encodes enc ekey f) /\
  (number v = true -> attrs !! mkey = Some v).

(** A parameter whose constants are strings: a string naming one of the
    columns [cols] is an encoding of that column, any other string is a mark
    attribute. *)
Definition text_param (v : pyval) (key : string) (cols : list string)
    (attrs : gmap string pyval) (enc : gmap string channel) : Prop :=
  (forall f, v = PStr f -> f ∈ cols -> encodes enc key f) /\
  (forall f, v = PStr f -> f ∉ cols -> attrs !! key = Some v).

(** ** The drawing functions *)

(** The keyword parameters of each function, under the names of the source,
    and their default values. *)
Module EdgesArgs.
Record t := {
  subset : pyval;
  width : pyval; colour : pyval; cmap : pyval; alpha : pyval;
  tooltip : pyval; legend : bool;
  loop_radius : Q; loop_angle : Q; loop_n_points : nat;
  curved_edges : bool; control_points : option (list (Q * Q));
  interpolation : pyval
}.
Definition defaults : t :=
  {| subset := PNone;
     width := PInt 1; colour := PStr "grey"; cmap := PNone; alpha := PFloat 1;
     tooltip := PNone; legend := false;
     loop_radius := 1 # 20; loop_angle := 90; loop_n_points := 30;
     curved_edges := false; control_points := None;
     interpolation := PStr "basis" |}.
Definition with_subset (v : pyval) (a : t) : t :=
  {| subset := v;
     width := width a; colour := colour a; cmap := cmap a; alpha := alpha a;
     tooltip := tooltip a; legend := legend a;
     loop_radius := loop_radius a; loop_angle := loop_angle a;
     loop_n_points := loop_n_points a;
     curved_edges := curved_edges a; control_points := control_points a;
     interpolation := interpolation a |}.
End EdgesArgs.

Module ArrowsArgs.
Record t := {
  subset : pyval;
  width : pyval; length : Q; length_is_relative : bool;
  colour : pyval; cmap : pyval; alpha : pyval;
  tooltip : pyval; legend : bool;
  curved_edges : bool; control_points : option (list (Q * Q))
}.
Definition defaults : t :=
  {| subset := PNone;
     width := PInt 1; length := 1 # 10; length_is_relative := true;
     colour := PStr "grey"; cmap := PNone; alpha := PFloat 1;
     tooltip := PNone; legend := false;
     curved_edges := false; control_points := None |}.
Definition with_subset (v : pyval) (a : t) : t :=
  {| subset := v;
     width := width a; length := length a;
     length_is_relative := length_is_relative a;
     colour := colour a; cmap := cmap a; alpha := alpha a;
     tooltip := tooltip a; legend := legend a;
     curved_edges := curved_edges a; control_points := control_points a |}.
End ArrowsArgs.

Module NodesArgs.
Record t := {
  subset : pyval;
  size : pyval; outline_width : pyval; shape : pyval;
  colour : pyval; cmap : pyval; alpha : pyval;
  tooltip : pyval; legend : bool
}.
Definition defaults : t :=
  {| subset := PNone;
     size := PInt 400; outline_width := PFloat 1; shape := PStr "circle";
     colour := PStr "teal"; cmap := PNone; alpha := PFloat 1;
     tooltip := PNone; legend := false |}.
Definition with_subset (v : pyval) (a : t) : t :=
  {| subset := v;
     size := size a; outline_width := outline_width a; shape := shape a;
     colour := colour a; cmap := cmap a; alpha := alpha a;
     tooltip := tooltip a; legend := legend a |}.
End NodesArgs.

Module LabelsArgs.
Record t := {
  subset : pyval;
  label : pyval; font_size : pyval; font_colour : pyval
}.
Definition defaults : t :=
  {| subset := PNone;
     label := PNone; font_size := PInt 15; font_colour := PStr "black" |}.
Definition with_subset (v : pyval) (a : t) : t :=
  {| subset := v;
     label := label a; font_size := font_size a; font_colour := font_colour a |}.
End LabelsArgs.

(** [s'] differs from [s] at most under the keys [keys]. *)
Definition only_changes (keys : list string) (s s' : styling) : Prop :=
  forall k, k ∉ keys ->
    marker_attrs s' !! k = marker_attrs s !! k /\
    encoded_attrs s' !! k = encoded_attrs s !! k.

(** The argument handling of each function (lines 94-120, 199-220, 294-325
    and 388-401), in the order of the source. *)
Definition edges_styling (a : EdgesArgs.t) (df : DataFrame) : outcome styling :=
  let legend := legend_of (EdgesArgs.legend a) in
  try! s := edges_width (EdgesArgs.width a) legend no_styling in
  try! s := line_colour (EdgesArgs.colour a) (EdgesArgs.cmap a) legend df s in
  try! s := opacity (EdgesArgs.alpha a) s in
  try! s := interpolate (EdgesArgs.curved_edges a) (EdgesArgs.interpolation a) s in
  Ok (tooltips (EdgesArgs.tooltip a) s).

Definition arrows_styling (a : ArrowsArgs.t) (df : DataFrame) : outcome styling :=
  let legend := legend_of (ArrowsArgs.legend a) in
  try! s := arrows_width (ArrowsArgs.width a) legend no_styling in
  try! s := line_colour (ArrowsArgs.colour a) (ArrowsArgs.cmap a) legend df s in
  try! s := opacity (ArrowsArgs.alpha a) s in
  Ok (tooltips (ArrowsArgs.tooltip a) s).

Definition nodes_styling (a : NodesArgs.t) (df : DataFrame) : outcome styling :=
  let legend := legend_of (NodesArgs.legend a) in
  try! s := point_size (NodesArgs.size a) legend no_styling in
  try! s := nodes_outline_width (NodesArgs.outline_width a) legend s in
  try! s := nodes_shape (NodesArgs.shape a) legend df s in
  try! s := column_or_constant "fill" (NodesArgs.colour a) df s in
  try! s := opacity (NodesArgs.alpha a) s in
  try! s := nodes_cmap (NodesArgs.colour a) (NodesArgs.cmap a) s in
  Ok (tooltips (NodesArgs.tooltip a) s).

Definition labels_styling (a : LabelsArgs.t) (df : DataFrame) : outcome styling :=
  try! s := column_or_constant "text" (LabelsArgs.label a) df no_styling in
  try! s := point_size (LabelsArgs.font_size a) LegendNone s in
  column_or_constant "fill" (LabelsArgs.font_colour a) df s.

(** Lines 68-69 and 173-174: the control points that reach the projector. *)
Definition effective_control_points (curved_edges : bool)
    (control_points : option (list (Q * Q))) : option (list (Q * Q)) :=
  if curved_edges then
    match control_points with
    | None => Some [(1 # 2, 1 # 10)%Q]
    | Some cps => Some cps
    end
  else None.

Section drawing.
Context `{!Externals}.

(** Lines 68-81, 173-186, 271-281 and 366-376: where each function takes
    its record set and the chart to draw in. *)
Definition edges_source (a : EdgesArgs.t) (G : option loc) (pos : option Pos)
    (chart layer : option loc) : M (DataFrame * loc) :=
  let control_points :=
    effective_control_points (EdgesArgs.curved_edges a) (EdgesArgs.control_points a) in
  select_source 0
    (fun Gv p => to_pandas_edges Gv p control_points (EdgesArgs.loop_radius a)
                   (EdgesArgs.loop_angle a) (EdgesArgs.loop_n_points a))
    G pos chart layer.

Definition arrows_source (a : ArrowsArgs.t) (G : option loc) (pos : option Pos)
    (chart layer : option loc) : M (DataFrame * loc) :=
  let control_points :=
    effective_control_points (ArrowsArgs.curved_edges a) (ArrowsArgs.control_points a) in
  select_source 0
    (fun Gv p => to_pandas_edge_arrows Gv p (ArrowsArgs.length a)
                   (ArrowsArgs.length_is_relative a) control_points)
    G pos chart layer.

Definition nodes_source (G : option loc) (pos : option Pos)
    (chart layer : option loc) : M (DataFrame * loc) :=
  select_source 1 to_pandas_nodes G pos chart layer.

Definition draw_networkx_edges (G : option loc) (pos : option Pos)
    (chart layer : option loc) (a : EdgesArgs.t) : M loc :=
  let! (df_edges, edge_chart) := edges_source a G pos chart layer in
  let! df_edges := restrict select_pairs (EdgesArgs.subset a) edge_chart df_edges in
  let! s := lift (edges_styling a df_edges) in
  finish edge_chart MarkLine (marker_attrs s)
    (with_axes (Some "")
       (<["detail" := ChShorthand (PStr "edge")]>
          (<["order" := ChShorthand (PStr "order")]> (encoded_attrs s))))
    chart 0.

Definition draw_networkx_arrows (G : option loc) (pos : option Pos)
    (chart layer : option loc) (a : ArrowsArgs.t) : M loc :=
  let! (df_edge_arrows, edge_chart) := arrows_source a G pos chart layer in
  let! df_edge_arrows :=
    restrict select_pairs (ArrowsArgs.subset a) edge_chart df_edge_arrows in
  let! s := lift (arrows_styling a df_edge_arrows) in
  finish edge_chart MarkLine (marker_attrs s)
    (with_axes None
       (<["detail" := ChShorthand (PStr "edge")]> (encoded_attrs s)))
    chart 0.

Definition draw_networkx_nodes (G : option loc) (pos : option Pos)
    (chart layer : option loc) (a : NodesArgs.t) : M loc :=
  let! (df_nodes, node_chart) := nodes_source G pos chart layer in
  let! df_nodes := restrict loc_labels (NodesArgs.subset a) node_chart df_nodes in
  let! s := lift (nodes_styling a df_nodes) in
  finish node_chart MarkPoint (marker_attrs s)
    (with_axes None (encoded_attrs s))
    chart 1.

Definition draw_networkx_labels (G : option loc) (pos : option Pos)
    (chart layer : option loc) (a : LabelsArgs.t) : M loc :=
  let! (df_nodes, node_chart) := nodes_source G pos chart layer in
  let! df_nodes := restrict loc_labels (LabelsArgs.subset a) node_chart df_nodes in
  let! s := lift (labels_styling a df_nodes) in
  finish node_chart MarkText (<["baseline" := PStr "middle"]> (marker_attrs s))
    (with_axes None (encoded_attrs s))
    chart 1.
End drawing.

Module NetworkxArgs.
Record t := {
  node_subset : pyval; edge_subset : pyval;
  show_orphans : bool; show_self_loops : bool;
  node_size : pyval; node_outline_width : pyval; node_shape : pyval;
  node_colour : pyval; node_cmap : pyval; node_alpha : pyval;
  node_label : pyval; node_font_size : pyval; node_font_colour : pyval;
  node_tooltip : pyval; node_legend : bool;
  edge_width : pyval; edge_colour : pyval; edge_cmap : pyval; edge_alpha : pyval;
  edge_tooltip : pyval; edge_legend : bool;
  loop_radius : Q; loop_angle : Q; loop_n_points : nat;
  curved_edges : bool; edge_control_points : option (list (Q * Q));
  edge_interpolation : pyval;
  arrow_width : pyval; arrow_length : Q; arrow_length_is_relative : bool;
  arrow_colour : pyval; arrow_cmap : pyval; arrow_alpha : pyval;
  arrow_legend : bool;
  chart_width : option Q; chart_height : option Q
}.
Definition defaults : t :=
  {| node_subset := PNone; edge_subset := PNone;
     show_orphans := true; show_self_loops := true;
     node_size := PInt 400; node_outline_width := PFloat 1;
     node_shape := PStr "circle";
     node_colour := PStr "teal"; node_cmap := PNone; node_alpha := PFloat 1;
     node_label := PNone; node_font_size := PInt 15;
     node_font_colour := PStr "black";
     node_tooltip := PNone; node_legend := false;
     edge_width := PInt 1; edge_colour := PStr "grey"; edge_cmap := PNone;
     edge_alpha := PFloat 1;
     edge_tooltip := PNone; edge_legend := false;
     loop_radius := 1 # 20; loop_angle := 90; loop_n_points := 30;
     curved_edges := false; edge_control_points := None;
     edge_interpolation := PStr "basis";
     arrow_width := PInt 2; arrow_length := 1 # 10;
     arrow_length_is_relative := true;
     arrow_colour := PStr "black"; arrow_cmap := PNone; arrow_alpha := PFloat 1;
     arrow_legend := false;
     chart_width := Some 500%Q; chart_height := Some 300%Q |}.

(** [show_self_loops] and [show_orphans] set, the rest as in [a]. *)
Definition with_filters (self_loops orphans : bool) (a : t) : t :=
  {| node_subset := node_subset a; edge_subset := edge_subset a;
     show_orphans := orphans; show_self_loops := self_loops;
     node_size := node_size a; node_outline_width := node_outline_width a;
     node_shape := node_shape a;
     node_colour := node_colour a; node_cmap := node_cmap a;
     node_alpha := node_alpha a;
     node_label := node_label a; node_font_size := node_font_size a;
     node_font_colour := node_font_colour a;
     node_tooltip := node_tooltip a; node_legend := node_legend a;
     edge_width := edge_width a; edge_colour := edge_colour a;
     edge_cmap := edge_cmap a; edge_alpha := edge_alpha a;
     edge_tooltip := edge_tooltip a; edge_legend := edge_legend a;
     loop_radius := loop_radius a; loop_angle := loop_angle a;
     loop_n_points := loop_n_points a;
     curved_edges := curved_edges a; edge_control_points := edge_control_points a;
     edge_interpolation := edge_interpolation a;
     arrow_width := arrow_width a; arrow_length := arrow_length a;
     arrow_length_is_relative := arrow_length_is_relative a;
     arrow_colour := arrow_colour a; arrow_cmap := arrow_cmap a;
     arrow_alpha := arrow_alpha a;
     arrow_legend := arrow_legend a;
     chart_width := chart_width a; chart_height := chart_height a |}.

(** The keyword arguments [draw_networkx] hands to each layer's function. *)
Definition for_edges (a : t) : EdgesArgs.t :=
  {| EdgesArgs.subset := edge_subset a;
     EdgesArgs.width := edge_width a; EdgesArgs.colour := edge_colour a;
     EdgesArgs.cmap := edge_cmap a; EdgesArgs.alpha := edge_alpha a;
     EdgesArgs.tooltip := edge_tooltip a; EdgesArgs.legend := edge_legend a;
     EdgesArgs.loop_radius := loop_radius a; EdgesArgs.loop_angle := loop_angle a;
     EdgesArgs.loop_n_points := loop_n_points a;
     EdgesArgs.curved_edges := curved_edges a;
     EdgesArgs.control_points := edge_control_points a;
     EdgesArgs.interpolation := edge_interpolation a |}.

Definition for_arrows (a : t) : ArrowsArgs.t :=
  {| ArrowsArgs.subset := edge_subset a;
     ArrowsArgs.width := arrow_width a; ArrowsArgs.length := arrow_length a;
     ArrowsArgs.length_is_relative := arrow_length_is_relative a;
     ArrowsArgs.colour := arrow_colour a; ArrowsArgs.cmap := arrow_cmap a;
     ArrowsArgs.alpha := arrow_alpha a;
     ArrowsArgs.tooltip := edge_tooltip a; ArrowsArgs.legend := arrow_legend a;
     ArrowsArgs.curved_edges := curved_edges a;
     ArrowsArgs.control_points := edge_control_points a |}.

Definition for_nodes (a : t) : NodesArgs.t :=
  {| NodesArgs.subset := node_subset a;
     NodesArgs.size := node_size a; NodesArgs.outline_width := node_outline_width a;
     NodesArgs.shape := node_shape a;
     NodesArgs.colour := node_colour a; NodesArgs.cmap := node_cmap a;
     NodesArgs.alpha := node_alpha a;
     NodesArgs.tooltip := node_tooltip a; NodesArgs.legend := node_legend a |}.

Definition for_labels (a : t) : LabelsArgs.t :=
  {| LabelsArgs.subset := node_subset a;
     LabelsArgs.label := node_label a; LabelsArgs.font_size := node_font_size a;
     LabelsArgs.font_colour := node_font_colour a |}.
End NetworkxArgs.

(** The graph the filters of lines 525-528 leave in the copy. *)
Definition filtered (show_self_loops show_orphans : bool) (G : Graph) : Graph :=
  let G1 := if show_self_loops then G else remove_selfloop_edges G in
  if show_orphans then G1 else remove_nodes_from (isolates G1) G1.

(** Lines 525-528: the filters work on a deep copy, to which [G] is rebound.
    [deepcopy(None)] is [None], which has neither method. *)
Definition filter_copy (G : option loc) (show_self_loops show_orphans : bool)
  : M (option loc) :=
  if negb (show_self_loops && show_orphans) then
    match G with
    | None => raise AttributeError
    | Some g =>
        let! g' := deepcopy g in
        let! _ := if negb show_self_loops
                  then update_graph g' remove_selfloop_edges
                  else ret tt in
        let! _ := if negb show_orphans
                  then update_graph g' (fun G' => remove_nodes_from (isolates G') G')
                  else ret tt in
        ret (Some g')
    end
  else ret G.

Section composition.
Context `{!Externals}.

(** Line 530: [if not pos: pos = kamada_kawai_layout(G)]; the layout
    routine rejects [None]. *)
Definition positions (G : option loc) (pos : option Pos) : M Pos :=
  match pos with
  | Some (kv :: rest) => ret (kv :: rest)
  | _ =>
      match G with
      | Some g => let! Gv := get_graph g in ret (kamada_kawai_layout Gv)
      | None => raise TypeError
      end
  end.

(** Lines 550-564 with 580-582: the edge layer, and the arrow layer of a
    directed graph, when the graph [Gv] behind [G] has edges. *)
Definition edge_layers (G : option loc) (Gv : Graph) (pos : Pos) (chart : option loc)
    (a : NetworkxArgs.t) : M (list loc) :=
  match edges Gv with
  | [] => ret []
  | _ =>
      let! e := draw_networkx_edges G (Some pos) chart None (NetworkxArgs.for_edges a) in
      if directed Gv then
        let! ar := draw_networkx_arrows G (Some pos) chart None
                     (NetworkxArgs.for_arrows a) in
        ret [e; ar]
      else ret [e]
  end.

(** Lines 566-576 with 584-586: the node layer, and the label layer when a
    label is asked for, when the graph has nodes. *)
Definition node_layers (G : option loc) (Gv : Graph) (pos : Pos) (chart : option loc)
    (a : NetworkxArgs.t) : M (list loc) :=
  match nodes Gv with
  | [] => ret []
  | _ =>
      let! n := draw_networkx_nodes G (Some pos) chart None (NetworkxArgs.for_nodes a) in
      if truthy (NetworkxArgs.node_label a) then
        let! lb := draw_networkx_labels G (Some pos) chart None
                     (NetworkxArgs.for_labels a) in
        ret [n; lb]
      else ret [n]
  end.

(** [draw_networkx].  The layers are collected while they are drawn; the
    source draws them first and collects them under the same conditions
    afterwards (lines 579-586). *)
Definition draw_networkx (G : option loc) (pos : option Pos) (chart : option loc)
    (a : NetworkxArgs.t) : M loc :=
  let! G := filter_copy G (NetworkxArgs.show_self_loops a) (NetworkxArgs.show_orphans a) in
  let! pos := positions G pos in
  let! (pos, width, height) :=
    lift (scale_coordinates pos (NetworkxArgs.chart_width a) (NetworkxArgs.chart_height a)) in
  let! Gv := match G with
             | Some g => get_graph g
             | None => raise AttributeError
             end in
  let! edge_layers := edge_layers G Gv pos chart a in
  let! node_layers := node_layers G Gv pos chart a in
  match edge_layers ++ node_layers with
  | [] => raise ValueError
  | viz => alloc (OLayerChart {| layer_list := viz;
                                 prop_width := Some width;
                                 prop_height := Some height |})
  end.
End composition.

(** ** Concrete inputs *)

(** Stand-ins for the external collaborators: nodes laid out on a parabola,
    a loop ring leaving and re-entering the node, and the arrow on the last
    stretch of the straight edge. *)
Definition demo_externals : Externals :=
  {| kamada_kawai_layout G :=
       imap (fun i (n : label * attrs) =>
               (n.1, (inject_Z (Z.of_nat i), inject_Z (Z.of_nat (i * i))))) (nodes G);
     self_loop_point xy radius angle n i :=
       if bool_decide (i = 0%nat) || bool_decide (S i = n) then xy
       else (xy.1 + radius, xy.2 + radius * inject_Z (Z.of_nat i))%Q;
     arrow_placement src dst cps len rel :=
       ((dst.1 - len * (dst.1 - src.1), dst.2 - len * (dst.2 - src.2))%Q, dst) |}.

(** The directed path A -> B -> C. *)
Definition path_graph : Graph :=
  {| directed := true;
     nodes := [(LStr "A", []); (LStr "B", []); (LStr "C", [])];
     edges := [(LStr "A", LStr "B", []); (LStr "B", LStr "C", [])] |}.

(** Record sets of a two-node graph with one edge, each with a text-valued
    attribute (kind) and a number-valued one (score, weight). *)
Definition demo_edges_df : DataFrame :=
  {| df_columns := [("edge", DObject); ("order", DInt); ("source", DObject);
                    ("target", DObject); ("pair", DObject);
                    ("x", DFloat); ("y", DFloat);
                    ("kind", DObject); ("weight", DFloat)];
     df_rows :=
       [(LInt 0, [CAtom (LStr "('A', 'B')"); CAtom (LInt 0); CAtom (LStr "A");
                  CAtom (LStr "B"); CAtom (LPair (LStr "A") (LStr "B"));
                  CFloat 0; CFloat 0; CAtom (LStr "road"); CFloat (3 # 2)]);
        (LInt 1, [CAtom (LStr "('A', 'B')"); CAtom (LInt 1); CAtom (LStr "A");
                  CAtom (LStr "B"); CAtom (LPair (LStr "A") (LStr "B"));
                  CFloat 1; CFloat 1; CAtom (LStr "road"); CFloat (3 # 2)])] |}.

Definition demo_nodes_df : DataFrame :=
  {| df_columns := [("node", DObject); ("x", DFloat); ("y", DFloat);
                    ("kind", DObject); ("score", DFloat)];
     df_rows :=
       [(LStr "A", [CAtom (LStr "A"); CFloat 0; CFloat 0;
                    CAtom (LStr "hub"); CFloat 1]);
        (LStr "B", [CAtom (LStr "B"); CFloat 1; CFloat 1;
                    CAtom (LStr "leaf"); CFloat 2])] |}.

(** A store holding an edge layer (location 0) and a node layer (location 1)
    drawn earlier. *)
Definition demo_store : store :=
  [OChart (new_chart demo_edges_df); OChart (new_chart demo_nodes_df)].

(** [colour='kind', cmap='viridis'] and [colour='score', cmap='viridis']
    (resp. ['weight']), everything else at its default. *)
Definition nodes_cmap_on (column : string) : NodesArgs.t :=
  {| NodesArgs.subset := PNone;
     NodesArgs.size := PInt 400; NodesArgs.outline_width := PFloat 1;
     NodesArgs.shape := PStr "circle";
     NodesArgs.colour := PStr column; NodesArgs.cmap := PStr "viridis";
     NodesArgs.alpha := PFloat 1;
     NodesArgs.tooltip := PNone; NodesArgs.legend := false |}.

Definition edges_cmap_on (column : string) : EdgesArgs.t :=
  {| EdgesArgs.subset := PNone;
     EdgesArgs.width := PInt 1; EdgesArgs.colour := PStr column;
     EdgesArgs.cmap := PStr "viridis"; EdgesArgs.alpha := PFloat 1;
     EdgesArgs.tooltip := PNone; EdgesArgs.legend := false;
     EdgesArgs.loop_radius := 1 # 20; EdgesArgs.loop_angle := 90;
     EdgesArgs.loop_n_points := 30;
     EdgesArgs.curved_edges := false; EdgesArgs.control_points := None;
     EdgesArgs.interpolation := PStr "basis" |}.

Definition arrows_cmap_on (column : string) : ArrowsArgs.t :=
  {| ArrowsArgs.subset := PNone;
     ArrowsArgs.width := PInt 1; ArrowsArgs.length := 1 # 10;
     ArrowsArgs.length_is_relative := true;
     ArrowsArgs.colour := PStr column; ArrowsArgs.cmap := PStr "viridis";
     ArrowsArgs.alpha := PFloat 1;
     ArrowsArgs.tooltip := PNone; ArrowsArgs.legend := false;
     ArrowsArgs.curved_edges := false; ArrowsArgs.control_points := None |}.

(** [width='thick'], everything else at its default. *)
Definition edges_width_thick : EdgesArgs.t :=
  {| EdgesArgs.subset := PNone;
     EdgesArgs.width := PStr "thick"; EdgesArgs.colour := PStr "grey";
     EdgesArgs.cmap := PNone; EdgesArgs.alpha := PFloat 1;
     EdgesArgs.tooltip := PNone; EdgesArgs.legend := false;
     EdgesArgs.loop_radius := 1 # 20; EdgesArgs.loop_angle := 90;
     EdgesArgs.loop_n_points := 30;
     EdgesArgs.curved_edges := false; EdgesArgs.control_points := None;
     EdgesArgs.interpolation := PStr "basis" |}.

(** [subset=l], everything else at its default. *)
Definition nodes_subset (l : list label) : NodesArgs.t :=
  NodesArgs.with_subset (PList l) NodesArgs.defaults.

Definition edges_subset (l : list label) : EdgesArgs.t :=
  EdgesArgs.with_subset (PList l) EdgesArgs.defaults.

(** [size=2.5], everything else at its default. *)
Definition nodes_size_float : NodesArgs.t :=
  {| NodesArgs.subset := PNone;
     NodesArgs.size := PFloat (5 # 2); NodesArgs.outline_width := PFloat 1;
     NodesArgs.shape := PStr "circle";
     NodesArgs.colour := PStr "teal"; NodesArgs.cmap := PNone;
     NodesArgs.alpha := PFloat 1;
     NodesArgs.tooltip := PNone; NodesArgs.legend := false |}.

(** Two nodes whose raw positions span 1 across and 10 up. *)
Definition tall_pos : Pos :=
  [(LStr "A", (0, 0)%Q); (LStr "B", (1, 10)%Q)].

(** Three nodes without any edge, and a graph with the edge A - B, the
    self-loop C - C and the orphan D. *)
Definition orphans_graph : Graph :=
  {| directed := false;
     nodes := [(LStr "A", []); (LStr "B", []); (LStr "C", [])];
     edges := [] |}.

Definition mixed_graph : Graph :=
  {| directed := false;
     nodes := [(LStr "A", []); (LStr "B", []); (LStr "C", []); (LStr "D", [])];
     edges := [(LStr "A", LStr "B", []); (LStr "C", LStr "C", [])] |}.

(** ** The rescaling in closed form *)

(** A coordinate brought to [0, 1] (line 543), and the factors by which
    lines 544-545 stretch x and y. *)
Definition unit_coordinate (range least x : Q) : Q :=
  if Qeq_bool range 0 then 0%Q else ((x - least) / range)%Q.

Definition stretch_x (w h : Q) : Q := if Qle_bool h w then (w / h)%Q else 1%Q.
Definition stretch_y (w h : Q) : Q := if Qle_bool h w then 1%Q else (h / w)%Q.

Definition rescaled (pos : Pos) (w h : Q) : Pos :=
  (fun kv : label * point =>
     (kv.1,
      (unit_coordinate (x_range pos) (min_of (pos_xs pos)) kv.2.1 * stretch_x w h,
       unit_coordinate (y_range pos) (min_of (pos_ys pos)) kv.2.2 * stretch_y w h)%Q))
  <$> pos.

(** The same node at the same place, coordinates compared as numbers. *)
Definition same_place (kv kv' : label * point) : Prop :=
  kv.1 = kv'.1 /\ (kv.2.1 == kv'.2.1)%Q /\ (kv.2.2 == kv'.2.2)%Q.

(** The positions after a change of units and origin on each axis. *)
Definition moved (kx dx ky dy : Q) (pos : Pos) : Pos :=
  (fun kv : label * point => (kv.1, (kx * kv.2.1 + dx, ky * kv.2.2 + dy)%Q)) <$> pos.

(** The positions brought to the origin and divided, on both axes alike, by
    the smaller of the two extents. *)
Definition to_scale (pos : Pos) : Pos :=
  let m := if Qle_bool (y_range pos) (x_range pos) then y_range pos else x_range pos in
  (fun kv : label * point =>
     (kv.1, ((kv.2.1 - min_of (pos_xs pos)) / m,
             (kv.2.2 - min_of (pos_ys pos)) / m)%Q)) <$> pos.

(** [chart_width] and [chart_height] set, the rest as in [a]. *)
Definition with_sizes (w h : option Q) (a : NetworkxArgs.t) : NetworkxArgs.t :=
  {| NetworkxArgs.node_subset := NetworkxArgs.node_subset a;
     NetworkxArgs.edge_subset := NetworkxArgs.edge_subset a;
     NetworkxArgs.show_orphans := NetworkxArgs.show_orphans a;
     NetworkxArgs.show_self_loops := NetworkxArgs.show_self_loops a;
     NetworkxArgs.node_size := NetworkxArgs.node_size a;
     NetworkxArgs.node_outline_width := NetworkxArgs.node_outline_width a;
     NetworkxArgs.node_shape := NetworkxArgs.node_shape a;
     NetworkxArgs.node_colour := NetworkxArgs.node_colour a;
     NetworkxArgs.node_cmap := NetworkxArgs.node_cmap a;
     NetworkxArgs.node_alpha := NetworkxArgs.node_alpha a;
     NetworkxArgs.node_label := NetworkxArgs.node_label a;
     NetworkxArgs.node_font_size := NetworkxArgs.node_font_size a;
     NetworkxArgs.node_font_colour := NetworkxArgs.node_font_colour a;
     NetworkxArgs.node_tooltip := NetworkxArgs.node_tooltip a;
     NetworkxArgs.node_legend := NetworkxArgs.node_legend a;
     NetworkxArgs.edge_width := NetworkxArgs.edge_width a;
     NetworkxArgs.edge_colour := NetworkxArgs.edge_colour a;
     NetworkxArgs.edge_cmap := NetworkxArgs.edge_cmap a;
     NetworkxArgs.edge_alpha := NetworkxArgs.edge_alpha a;
     NetworkxArgs.edge_tooltip := NetworkxArgs.edge_tooltip a;
     NetworkxArgs.edge_legend := NetworkxArgs.edge_legend a;
     NetworkxArgs.loop_radius := NetworkxArgs.loop_radius a;
     NetworkxArgs.loop_angle := NetworkxArgs.loop_angle a;
     NetworkxArgs.loop_n_points := NetworkxArgs.loop_n_points a;
     NetworkxArgs.curved_edges := NetworkxArgs.curved_edges a;
     NetworkxArgs.edge_control_points := NetworkxArgs.edge_control_points a;
     NetworkxArgs.edge_interpolation := NetworkxArgs.edge_interpolation a;
     NetworkxArgs.arrow_width := NetworkxArgs.arrow_width a;
     NetworkxArgs.arrow_length := NetworkxArgs.arrow_length a;
     NetworkxArgs.arrow_length_is_relative := NetworkxArgs.arrow_length_is_relative a;
     NetworkxArgs.arrow_colour := NetworkxArgs.arrow_colour a;
     NetworkxArgs.arrow_cmap := NetworkxArgs.arrow_cmap a;
     NetworkxArgs.arrow_alpha := NetworkxArgs.arrow_alpha a;
     NetworkxArgs.arrow_legend := NetworkxArgs.arrow_legend a;
     NetworkxArgs.chart_width := w; NetworkxArgs.chart_height := h |}.

(** Two nodes one above the other. *)
Definition upright_pos : Pos := [(LStr "A", (2, 0)%Q); (LStr "B", (2, 5)%Q)].

(** ** Reading a store *)

(** The mark of the chart at [l], when [l] holds a chart. *)
Definition mark_at (σ : store) (l : loc) : option mark_type :=
  match σ !! l with
  | Some (OChart c) => chart_mark c
  | _ => None
  end.

(** [σ'] has every object of [σ] unchanged, and possibly new ones after
    them. *)
Definition extends (σ σ' : store) : Prop := exists t, σ' = σ ++ t.

(** A computation that only creates objects. *)
Definition only_adds {A} (m : M A) : Prop := forall σ, extends σ (m σ).2.

(** The marks of the layers lines 579-586 collect for a graph: a line layer
    when there are edges, a second one when the graph is directed; a point
    layer when there are nodes, and a text layer when the label is truthy. *)
Definition edge_marks (Gv : Graph) : list mark_type :=
  match edges Gv with
  | [] => []
  | _ => MarkLine :: (if directed Gv then [MarkLine] else [])
  end.

Definition node_marks (Gv : Graph) (node_label : pyval) : list mark_type :=
  match nodes Gv with
  | [] => []
  | _ => MarkPoint :: (if truthy node_label then [MarkText] else [])
  end.

(** ** The common shape of the four drawing functions *)

(** Each of [draw_networkx_edges], [draw_networkx_arrows],
    [draw_networkx_nodes] and [draw_networkx_labels] selects its source,
    restricts it to the subset, handles its styling arguments and closes
    with the new chart; they differ in the layer position [idx], the
    projector, the way the subset selects, the styling and the mark. *)
Definition layer_call `{!Externals} (idx : nat)
    (project : Graph -> Pos -> outcome DataFrame)
    (select : DataFrame -> list label -> outcome DataFrame) (subset : pyval)
    (styling_of : DataFrame -> outcome styling) (m : mark_type)
    (attrs_of : styling -> gmap string pyval)
    (enc_of : styling -> gmap string channel)
    (G : option loc) (pos : option Pos) (chart layer : option loc) : M loc :=
  let! (df, c) := select_source idx project G pos chart layer in
  let! df' := restrict select subset c df in
  let! s := lift (styling_of df') in
  finish c m (attrs_of s) (enc_of s) chart idx.

(** The encodings each function passes to [encode]. *)
Definition edges_encoding (s : styling) : gmap string channel :=
  with_axes (Some "")
    (<["detail" := ChShorthand (PStr "edge")]>
       (<["order" := ChShorthand (PStr "order")]> (encoded_attrs s))).

Definition arrows_encoding (s : styling) : gmap string channel :=
  with_axes None (<["detail" := ChShorthand (PStr "edge")]> (encoded_attrs s)).

Definition points_encoding (s : styling) : gmap string channel :=
  with_axes None (encoded_attrs s).

Definition labels_attrs (s : styling) : gmap string pyval :=
  <["baseline" := PStr "middle"]> (marker_attrs s).

(** The chart [c] with its record set replaced, as [c.data = df] leaves
    it. *)
Definition with_data (df : DataFrame) (c : Chart) : Chart :=
  {| chart_data := df; chart_mark := chart_mark c;
     chart_mark_attrs := chart_mark_attrs c;
     chart_encoding := chart_encoding c |}.

(** The layered chart [lc] with [r] at position [idx], as
    [chart.layer[idx] = r] leaves it. *)
Definition replaced (idx : nat) (r : loc) (lc : LayerChart) : LayerChart :=
  {| layer_list := <[idx := r]> (layer_list lc);
     prop_width := prop_width lc; prop_height := prop_height lc |}.

(** [isinstance(subset, list)] *)
Definition is_list (v : pyval) : bool :=
  match v with PList _ => true | _ => false end.

(** What a call that draws over the chart [ch] leaves: layer [idx] of [ch]
    was the chart [l]; the result [r] is a new chart of mark [m] holding the
    (restricted) record set of [l] and the encodings of [l] updated with the
    new ones; [r] has taken the place of [l] in [ch]; nothing else has
    changed but, when a subset was given, the record set of [l]. *)
Definition drawn_over (idx : nat) (m : mark_type) (subset : pyval)
    (select : DataFrame -> list label -> outcome DataFrame)
    (ch : loc) (σ σ' : store) (r : loc) : Prop :=
  exists lc l c df' cr,
    σ !! ch = Some (OLayerChart lc) /\ layer_list lc !! idx = Some l /\
    σ !! l = Some (OChart c) /\
    restricted select subset (chart_data c) = Ok df' /\
    r = length σ /\ length σ' = S (length σ) /\
    σ' !! r = Some (OChart cr) /\
    chart_mark cr = Some m /\ chart_data cr = df' /\
    (forall k v, chart_encoding c !! k = Some v -> exists v', chart_encoding cr !! k = Some v') /\
    σ' !! ch = Some (OLayerChart (replaced idx r lc)) /\
    σ' !! l = Some (OChart (if is_list subset then with_data df' c else c)) /\
    (forall k, k <> ch -> k <> l -> k <> r -> σ' !! k = σ !! k).

(** A layered chart over the two layers of [demo_store], at location 2. *)
Definition demo_layered_store : store :=
  demo_store ++ [OLayerChart {| layer_list := [0; 1]%nat;
                                prop_width := Some 500%Q;
                                prop_height := Some 300%Q |}].

(** ** Subsets that select the same pairs *)

(** [l] and [l'] list the same identifiers, but for identifiers that match
    no pair of [df]. *)
Definition agree_on_pairs (df : DataFrame) (l l' : list label) : Prop :=
  forall x, (x ∈ l <-> x ∈ l') \/ matches_no_pair [x] df.

(** ** A graph with an orphan, and a chart of it *)

(** The edge A - B and the orphan D; the node record set of that graph; a
    store with the graph (location 0), an edge layer (1), a node layer (2)
    and a layered chart over the two (3). *)
Definition abd_graph : Graph :=
  {| directed := false;
     nodes := [(LStr "A", []); (LStr "B", []); (LStr "D", [])];
     edges := [(LStr "A", LStr "B", [])] |}.

Definition abd_nodes_df : DataFrame :=
  {| df_columns := [("node", DObject); ("x", DFloat); ("y", DFloat)];
     df_rows :=
       [(LStr "A", [CAtom (LStr "A"); CFloat 0; CFloat 0]);
        (LStr "B", [CAtom (LStr "B"); CFloat 1; CFloat 1]);
        (LStr "D", [CAtom (LStr "D"); CFloat 2; CFloat 0])] |}.

Definition abd_store : store :=
  [OGraph abd_graph; OChart (new_chart demo_edges_df); OChart (new_chart abd_nodes_df);
   OLayerChart {| layer_list := [1; 2]%nat;
                  prop_width := Some 500%Q; prop_height := Some 300%Q |}].

(** ** Sources and checks, for the statements below *)



(** The record set [df] without any row. *)
Definition no_rows (df : DataFrame) : DataFrame :=
  {| df_columns := df_columns df; df_rows := [] |}.

(** * Properties *)

(** ** The monad *)

Lemma bind_Ok {A B} (m : M A) (k : A -> M B) σ a σ1 :
  m σ = (Ok a, σ1) -> bind m k σ = k a σ1.
Proof. intros E. unfold bind. by rewrite E. Qed.

Lemma bind_Raise {A B} (m : M A) (k : A -> M B) σ e σ1 :
  m σ = (Raise e, σ1) -> bind m k σ = (Raise e, σ1).
Proof. intros E. unfold bind. by rewrite E. Qed.

Lemma bind_Ok_inv {A B} (m : M A) (k : A -> M B) σ b σ' :
  bind m k σ = (Ok b, σ') ->
  exists a σ1, m σ = (Ok a, σ1) /\ k a σ1 = (Ok b, σ').
Proof.
  unfold bind. destruct (m σ) as [[a|e] σ1]; [eauto | discriminate].
Qed.

Lemma bind_assoc {A B C} (m : M A) (k : A -> M B) (h : B -> M C) σ :
  bind (bind m k) h σ = bind m (fun a => bind (k a) h) σ.
Proof.
  unfold bind. destruct (m σ) as [[a|e] σ1]; reflexivity.
Qed.

Lemma lift_Ok_inv {A} (o : outcome A) σ a σ' :
  lift o σ = (Ok a, σ') -> o = Ok a /\ σ' = σ.
Proof. unfold lift. intros [= -> ->]. done. Qed.

Lemma obind_Ok_inv {A B} (o : outcome A) (k : A -> outcome B) b :
  obind o k = Ok b -> exists a, o = Ok a /\ k a = Ok b.
Proof. destruct o; [eauto | discriminate]. Qed.

Lemma bind_ext {A B} (m : M A) (k1 k2 : A -> M B) σ :
  (forall a σ1, k1 a σ1 = k2 a σ1) -> bind m k1 σ = bind m k2 σ.
Proof.
  intros E. unfold bind. destruct (m σ) as [[a|e] σ1]; [apply E | reflexivity].
Qed.

Lemma bind_ret {A B} (a : A) (k : A -> M B) σ : bind (ret a) k σ = k a σ.
Proof. reflexivity. Qed.

Lemma bind_ext_on {A B} (m : M A) (k1 k2 : A -> M B) σ :
  (forall a σ1, m σ = (Ok a, σ1) -> k1 a σ1 = k2 a σ1) ->
  bind m k1 σ = bind m k2 σ.
Proof.
  intros E. unfold bind. destruct (m σ) as [[a|e] σ1]; [by apply E | reflexivity].
Qed.

(** ** C6: a call with no source of data is refused *)

Section refusals.
Context `{!Externals}.

(** C6. Every drawing function called with neither a graph, nor a chart,
    nor a layer raises at once, whatever its other arguments: the result
    is [ValueError] and nothing has been allocated or changed. *)
Theorem no_source_is_refused (pos : option Pos) (σ : store)
    (ea : EdgesArgs.t) (aa : ArrowsArgs.t) (na : NodesArgs.t) (la : LabelsArgs.t) :
  draw_networkx_edges None pos None None ea σ = (Raise ValueError, σ) /\
  draw_networkx_arrows None pos None None aa σ = (Raise ValueError, σ) /\
  draw_networkx_nodes None pos None None na σ = (Raise ValueError, σ) /\
  draw_networkx_labels None pos None None la σ = (Raise ValueError, σ).
Proof. repeat split; reflexivity. Qed.
End refusals.

(** ** The closing step and the replacement of a layer *)


(** ** C10: the label of [draw_networkx_labels] *)

Lemma column_or_constant_not_str key v df s :
  is_str v = false -> column_or_constant key v df s = Raise TypeError.
Proof. by destruct v. Qed.

Section labels.
Context `{!Externals}.

(** C10, amended. A call of [draw_networkx_labels] whose label is not a
    string never returns a chart.  The error is the [TypeError] of the label
    check when the data source has been resolved and the subset applied;
    before that, the errors of those two steps come first (among them the
    [ValueError] of a call with no graph, chart or layer). *)
Theorem labels_need_a_string (G : option loc) (pos : option Pos)
    (chart layer : option loc) (a : LabelsArgs.t) (σ : store) :
  is_str (LabelsArgs.label a) = false ->
  (exists e σ', draw_networkx_labels G pos chart layer a σ = (Raise e, σ')) /\
  (forall df c σ1 df' σ2,
     nodes_source G pos chart layer σ = (Ok (df, c), σ1) ->
     restrict loc_labels (LabelsArgs.subset a) c df σ1 = (Ok df', σ2) ->
     draw_networkx_labels G pos chart layer a σ = (Raise TypeError, σ2)).
Proof.
  intros Hl.
  assert (Hs : forall df, labels_styling a df = Raise TypeError).
  { intros df. unfold labels_styling.
    by rewrite (column_or_constant_not_str _ _ _ _ Hl). }
  unfold draw_networkx_labels. split.
  - unfold bind at 1.
    destruct (nodes_source G pos chart layer σ) as [[[df c]|e] σ1]; [|eauto].
    unfold bind at 1.
    destruct (restrict loc_labels (LabelsArgs.subset a) c df σ1) as [[df'|e] σ2];
      [|eauto].
    unfold bind, lift. rewrite Hs. eauto.
  - intros df c σ1 df' σ2 E1 E2.
    rewrite (bind_Ok _ _ _ _ _ E1). cbv beta iota.
    rewrite (bind_Ok _ _ _ _ _ E2).
    unfold bind, lift. by rewrite Hs.
Qed.
End labels.

(** The default label in a layer drawn earlier: the [TypeError]. *)
Lemma labels_need_a_string_witness :
  draw_networkx_labels (H := demo_externals) None None None (Some 1%nat)
    LabelsArgs.defaults demo_store = (Raise TypeError, demo_store).
Proof.
  exact (proj2 (labels_need_a_string (H := demo_externals) None None None
                  (Some 1%nat) LabelsArgs.defaults demo_store eq_refl)
               _ _ _ _ _ eq_refl eq_refl).
Defined.

(** C10 as stated fails: the call with every argument at its default has a
    label that is not a string, and raises [ValueError]. *)
Lemma labels_default_call_raises_ValueError :
  is_str (LabelsArgs.label LabelsArgs.defaults) = false /\
  draw_networkx_labels (H := demo_externals) None None None None
    LabelsArgs.defaults [] = (Raise ValueError, []) /\
  ~ (forall G pos chart layer a σ,
       is_str (LabelsArgs.label a) = false ->
       fst (draw_networkx_labels (H := demo_externals) G pos chart layer a σ)
       = Raise TypeError).
Proof.
  split; [reflexivity|]. split; [reflexivity|].
  intros C.
  specialize (C None None None None LabelsArgs.defaults [] eq_refl).
  discriminate C.
Qed.

(** ** C4: colour maps and the type of the colour column *)

(** Edges and arrows: a colour map on a column of type object is refused,
    and accepted on any other column. *)
Lemma line_colour_cmap (c m : string) (legend : legend_arg) (df : DataFrame)
    (s : styling) :
  c ∈ columns df ->
  line_colour (PStr c) (PStr m) legend df s
  = if bool_decide (dtype_of df c = Some DObject) then Raise TypeError
    else Ok (set_encoded "color" (ChColor c (Some m) legend) s).
Proof.
  intros Hc. unfold line_colour. by rewrite bool_decide_eq_true_2.
Qed.

(** Nodes: the colour map is applied whatever the type of the column. *)
Lemma nodes_cmap_unchecked (c m : string) (s : styling) :
  nodes_cmap (PStr c) (PStr m) s
  = Ok (set_encoded "fill" (ChColor c (Some m) LegendUndefined) s).
Proof. reflexivity. Qed.

(** C4 at its failing input: with a colour map and the text column [kind],
    [draw_networkx_edges] and [draw_networkx_arrows] raise [TypeError], but
    [draw_networkx_nodes] returns a chart whose fill is mapped from [kind]
    through the colour map.  On the numeric columns all three succeed. *)
Theorem nodes_cmap_accepts_text_column :
  dtype_of demo_nodes_df "kind" = Some DObject /\
  dtype_of demo_edges_df "kind" = Some DObject /\
  draw_networkx_edges (H := demo_externals) None None None (Some 0%nat)
    (edges_cmap_on "kind") demo_store = (Raise TypeError, demo_store) /\
  draw_networkx_arrows (H := demo_externals) None None None (Some 0%nat)
    (arrows_cmap_on "kind") demo_store = (Raise TypeError, demo_store) /\
  (exists c,
     draw_networkx_nodes (H := demo_externals) None None None (Some 1%nat)
       (nodes_cmap_on "kind") demo_store = (Ok 2%nat, demo_store ++ [OChart c]) /\
     chart_encoding c !! "fill"
     = Some (ChColor "kind" (Some "viridis") LegendUndefined)) /\
  is_ok (fst (draw_networkx_edges (H := demo_externals) None None None (Some 0%nat)
                (edges_cmap_on "weight") demo_store)) = true /\
  is_ok (fst (draw_networkx_arrows (H := demo_externals) None None None (Some 0%nat)
                (arrows_cmap_on "weight") demo_store)) = true /\
  is_ok (fst (draw_networkx_nodes (H := demo_externals) None None None (Some 1%nat)
                (nodes_cmap_on "score") demo_store)) = true.
Proof.
  repeat split; try (vm_compute; reflexivity).
  eexists. split; vm_compute; reflexivity.
Qed.

(** ** C8: identifiers of a subset that are not in the record set *)

Lemma filter_ext_in {A} (P Q : A -> Prop) `{!forall x, Decision (P x)}
    `{!forall x, Decision (Q x)} (l : list A) :
  (forall x, x ∈ l -> P x <-> Q x) -> filter P l = filter Q l.
Proof.
  induction l as [|a l IH]; intros E; [reflexivity|].
  rewrite !filter_cons.
  rewrite IH by (intros x Hx; apply E; by right).
  destruct (decide (P a)) as [p|p], (decide (Q a)) as [q|q]; try reflexivity;
    destruct (E a) as [E1 E2]; try (by left); tauto.
Qed.

Lemma loc_labels_absent (df : DataFrame) (l : list label) (x : label) :
  x ∈ l -> x ∉ index df -> loc_labels df l = Raise KeyError.
Proof.
  intros Hx Hn. unfold loc_labels. rewrite bool_decide_eq_false_2; [done|].
  rewrite Forall_forall. intros Hall. by apply Hn, Hall.
Qed.

Lemma cell_isin_agree (l l' : list label) (c : cell) :
  (forall x, c = CAtom x -> (x ∈ l <-> x ∈ l')) ->
  cell_isin l c = cell_isin l' c.
Proof.
  intros Hx. destruct c as [| |y]; try reflexivity. simpl.
  apply bool_decide_ext. by apply Hx.
Qed.

Lemma select_pairs_agree (df : DataFrame) (l l' : list label) :
  agree_on_pairs df l l' -> select_pairs df l = select_pairs df l'.
Proof.
  intros Hag. unfold select_pairs, loc_isin.
  destruct (column_pos df "pair") as [i|] eqn:Ei; [|reflexivity].
  do 2 f_equal. apply filter_ext_in. intros r Hr.
  rewrite (cell_isin_agree l l'); [done|].
  intros x Hc. destruct (Hag x) as [Hiff|Hno]; [done|].
  destruct (r.2 !! i) as [c|] eqn:Er; simpl in Hc; [|discriminate].
  subst c. exfalso. apply (Hno i r x Ei Hr); [by left | done].
Qed.

(** Identifiers that match no pair may be added anywhere, at the end in
    particular. *)
Lemma agree_on_pairs_absent (df : DataFrame) (l extra : list label) :
  matches_no_pair extra df -> agree_on_pairs df (l ++ extra) l.
Proof.
  intros Hno x. destruct (decide (x ∈ extra)) as [Hx|Hx].
  - right. intros i r y Ei Hr Hy. apply list_elem_of_singleton in Hy as ->.
    by apply (Hno i r x).
  - left. rewrite elem_of_app. tauto.
Qed.

Lemma agree_on_pairs_without (df : DataFrame) (l : list label) (x : label) :
  matches_no_pair [x] df -> agree_on_pairs df l (filter (fun y => y <> x) l).
Proof.
  intros Hno y. destruct (decide (y = x)) as [->|Hy]; [by right|].
  left. rewrite list_elem_of_filter. tauto.
Qed.

Section subsets.
Context `{!Externals}.

(** C8, amended. In [draw_networkx_edges] and [draw_networkx_arrows] the
    identifiers of [subset] that match no pair of the record set select
    nothing, wherever they stand in the list: two subsets that differ only
    in such identifiers give the same call, so that the call behaves as if
    they had not been listed.  In [draw_networkx_nodes] and
    [draw_networkx_labels] the subset is looked up in the index of the
    record set, and an identifier that is not in it makes the call raise
    [KeyError]. *)
Theorem absent_identifiers_in_subset (G : option loc) (pos : option Pos)
    (chart layer : option loc) (σ : store) (l l' : list label) :
  (forall a : EdgesArgs.t,
     (forall df c σ1, edges_source a G pos chart layer σ = (Ok (df, c), σ1) ->
                      agree_on_pairs df l l') ->
     draw_networkx_edges G pos chart layer
       (EdgesArgs.with_subset (PList l) a) σ
     = draw_networkx_edges G pos chart layer
         (EdgesArgs.with_subset (PList l') a) σ) /\
  (forall a : ArrowsArgs.t,
     (forall df c σ1, arrows_source a G pos chart layer σ = (Ok (df, c), σ1) ->
                      agree_on_pairs df l l') ->
     draw_networkx_arrows G pos chart layer
       (ArrowsArgs.with_subset (PList l) a) σ
     = draw_networkx_arrows G pos chart layer
         (ArrowsArgs.with_subset (PList l') a) σ) /\
  (forall (a : NodesArgs.t) df c σ1 x,
     nodes_source G pos chart layer σ = (Ok (df, c), σ1) ->
     x ∈ l -> x ∉ index df ->
     draw_networkx_nodes G pos chart layer
       (NodesArgs.with_subset (PList l) a) σ = (Raise KeyError, σ1)) /\
  (forall (a : LabelsArgs.t) df c σ1 x,
     nodes_source G pos chart layer σ = (Ok (df, c), σ1) ->
     x ∈ l -> x ∉ index df ->
     draw_networkx_labels G pos chart layer
       (LabelsArgs.with_subset (PList l) a) σ = (Raise KeyError, σ1)).
Proof.
  repeat split.
  - intros a Hag. unfold draw_networkx_edges.
    change (edges_source (EdgesArgs.with_subset _ a)) with (edges_source a).
    apply bind_ext_on. intros [df c] σ1 E.
    simpl EdgesArgs.subset. unfold restrict.
    by rewrite (select_pairs_agree df l l' (Hag _ _ _ E)).
  - intros a Hag. unfold draw_networkx_arrows.
    change (arrows_source (ArrowsArgs.with_subset _ a)) with (arrows_source a).
    apply bind_ext_on. intros [df c] σ1 E.
    simpl ArrowsArgs.subset. unfold restrict.
    by rewrite (select_pairs_agree df l l' (Hag _ _ _ E)).
  - intros a df c σ1 x E Hx Hn. unfold draw_networkx_nodes.
    rewrite (bind_Ok _ _ _ _ _ E). simpl. unfold restrict.
    by rewrite (loc_labels_absent df l x Hx Hn).
  - intros a df c σ1 x E Hx Hn. unfold draw_networkx_labels.
    rewrite (bind_Ok _ _ _ _ _ E). simpl. unfold restrict.
    by rewrite (loc_labels_absent df l x Hx Hn).
Qed.
End subsets.

(** The pair [(Z, Z)], which the demonstration edges do not have, listed
    before the pair they do have; node [Z] in a subset of nodes. *)
Lemma absent_identifiers_in_subset_witness :
  draw_networkx_edges (H := demo_externals) None None None (Some 0%nat)
    (edges_subset [LPair (LStr "Z") (LStr "Z"); LPair (LStr "A") (LStr "B")])
    demo_store
  = draw_networkx_edges (H := demo_externals) None None None (Some 0%nat)
      (edges_subset [LPair (LStr "A") (LStr "B")]) demo_store /\
  draw_networkx_nodes (H := demo_externals) None None None (Some 1%nat)
    (nodes_subset [LStr "A"; LStr "Z"]) demo_store = (Raise KeyError, demo_store).
Proof.
  pose proof (absent_identifiers_in_subset (H := demo_externals)
                None None None (Some 0%nat) demo_store
                [LPair (LStr "Z") (LStr "Z"); LPair (LStr "A") (LStr "B")]
                [LPair (LStr "A") (LStr "B")])
    as (He & _).
  pose proof (absent_identifiers_in_subset (H := demo_externals)
                None None None (Some 1%nat) demo_store
                [LStr "A"; LStr "Z"] []) as (_ & _ & Hn & _).
  split.
  - apply (He EdgesArgs.defaults).
    intros df c σ1 [= <- <- <-] x.
    destruct (decide (x = LPair (LStr "Z") (LStr "Z"))) as [->|Hx].
    + right. intros i r y [= <-] Hr Hy.
      apply list_elem_of_In in Hr. apply list_elem_of_In in Hy.
      simpl in Hr, Hy. intuition (subst; discriminate).
    + left. rewrite !elem_of_cons. tauto.
  - apply (Hn NodesArgs.defaults demo_nodes_df 1%nat demo_store (LStr "Z") eq_refl).
    + apply list_elem_of_In. simpl. tauto.
    + intros Hin. apply list_elem_of_In in Hin. simpl in Hin.
      intuition discriminate.
Defined.

(** C8 as stated fails for nodes: [Z] is not a node of the record set, and
    [draw_networkx_nodes] with [subset=['Z']] raises [KeyError]; so does
    [draw_networkx_labels]. *)
Lemma nodes_subset_absent_raises_KeyError :
  (LStr "Z" ∉ index demo_nodes_df) /\
  draw_networkx_nodes (H := demo_externals) None None None (Some 1%nat)
    (nodes_subset [LStr "Z"]) demo_store = (Raise KeyError, demo_store) /\
  draw_networkx_labels (H := demo_externals) None None None (Some 1%nat)
    (LabelsArgs.with_subset (PList [LStr "Z"]) LabelsArgs.defaults) demo_store
  = (Raise KeyError, demo_store).
Proof.
  split; [|split; reflexivity].
  intros Hin. apply list_elem_of_In in Hin. simpl in Hin. intuition discriminate.
Qed.

(** ** What a drawing function returns *)

Lemma get_chart_inv l σ c σ1 :
  get_chart l σ = (Ok c, σ1) -> σ1 = σ /\ σ !! l = Some (OChart c).
Proof.
  unfold get_chart. destruct (σ !! l) as [[| |]|]; intros [= <- <-] || intros [=]; done.
Qed.

Lemma get_graph_inv g σ G σ1 :
  get_graph g σ = (Ok G, σ1) -> σ1 = σ /\ σ !! g = Some (OGraph G).
Proof.
  unfold get_graph. destruct (σ !! g) as [[| |]|]; intros [= <- <-] || intros [=]; done.
Qed.

Lemma get_layer_chart_inv l σ c σ1 :
  get_layer_chart l σ = (Ok c, σ1) -> σ1 = σ /\ σ !! l = Some (OLayerChart c).
Proof.
  unfold get_layer_chart.
  destruct (σ !! l) as [[| |]|]; intros [= <- <-] || intros [=]; done.
Qed.

Lemma get_chart_Ok l σ c : σ !! l = Some (OChart c) -> get_chart l σ = (Ok c, σ).
Proof. unfold get_chart. by intros ->. Qed.

Lemma get_graph_Ok g σ G : σ !! g = Some (OGraph G) -> get_graph g σ = (Ok G, σ).
Proof. unfold get_graph. by intros ->. Qed.

Lemma alloc_lookup (σ : store) (o : obj) : (σ ++ [o]) !! length σ = Some o.
Proof. by apply list_lookup_middle. Qed.

Lemma layer_item_inv chart i σ l σ1 :
  layer_item chart i σ = (Ok l, σ1) -> σ1 = σ.
Proof.
  unfold layer_item. intros E. apply bind_Ok_inv in E as (c & σ2 & E1 & E2).
  apply get_layer_chart_inv in E1 as [-> _].
  destruct (layer_list c !! i); [by injection E2 | discriminate].
Qed.

Lemma set_layer_item_inv chart i l σ u σ1 :
  set_layer_item chart i l σ = (Ok u, σ1) ->
  exists c c', σ !! chart = Some (OLayerChart c) /\ σ1 = <[chart := OLayerChart c']> σ.
Proof.
  unfold set_layer_item. intros E. apply bind_Ok_inv in E as (c & σ2 & E1 & E2).
  apply get_layer_chart_inv in E1 as [-> E1].
  case_decide; [|discriminate]. simplify_eq. eauto.
Qed.

(** The source step hands over a record set together with a chart that
    holds it. *)
Lemma select_source_chart `{!Externals} idx project G pos chart layer σ df c σ1 :
  select_source idx project G pos chart layer σ = (Ok (df, c), σ1) ->
  exists ch, σ1 !! c = Some (OChart ch) /\ chart_data ch = df.
Proof.
  unfold select_source. destruct layer as [l|].
  { intros E. apply bind_Ok_inv in E as (c0 & σ2 & E1 & [= <- <- <-]).
    apply get_chart_inv in E1 as [-> E1]. eauto. }
  destruct chart as [ch|].
  { intros E. apply bind_Ok_inv in E as (l & σ2 & E1 & E2).
    apply layer_item_inv in E1 as ->.
    apply bind_Ok_inv in E2 as (c0 & σ3 & E2 & [= <- <- <-]).
    apply get_chart_inv in E2 as [-> E2]. eauto. }
  destruct G as [g|]; [|discriminate].
  intros E. apply bind_Ok_inv in E as (Gv & σ2 & E1 & E2).
  apply get_graph_inv in E1 as [-> E1].
  apply bind_Ok_inv in E2 as (df0 & σ3 & E2 & E3).
  apply lift_Ok_inv in E2 as [E2 ->].
  injection E3 as <- <- <-. eexists. split; [apply alloc_lookup | reflexivity].
Qed.

Lemma set_data_inv l df σ u σ1 :
  set_data l df σ = (Ok u, σ1) ->
  exists c c', σ !! l = Some (OChart c) /\ σ1 = <[l := OChart c']> σ /\
               chart_data c' = df.
Proof.
  unfold set_data. intros E. apply bind_Ok_inv in E as (c & σ2 & E1 & E2).
  apply get_chart_inv in E1 as [-> E1]. simplify_eq.
  eexists _, _. split; [done|]. split; reflexivity.
Qed.

(** After the subset step the chart holds the restricted record set. *)
Lemma restrict_chart select subset c df σ1 df' σ2 ch :
  σ1 !! c = Some (OChart ch) -> chart_data ch = df ->
  restrict select subset c df σ1 = (Ok df', σ2) ->
  exists ch', σ2 !! c = Some (OChart ch') /\ chart_data ch' = df'.
Proof.
  intros Hc Hd. unfold restrict. destruct subset; try discriminate.
  - intros [= <- <-]. eauto.
  - intros E. apply bind_Ok_inv in E as (d & σ3 & E1 & E2).
    apply lift_Ok_inv in E1 as [E1 ->].
    apply bind_Ok_inv in E2 as ([] & σ4 & E2 & [= <- <-]).
    apply set_data_inv in E2 as (c0 & c' & _ & -> & Hd').
    exists c'. split; [|done].
    apply list_lookup_insert_eq. by eapply lookup_lt_Some.
Qed.

(** The closing step returns a fresh chart with the mark, the attributes
    and the encodings it was given. *)
Lemma finish_chart c m attrs enc chart idx σ r σ' old :
  σ !! c = Some (OChart old) ->
  finish c m attrs enc chart idx σ = (Ok r, σ') ->
  r = length σ /\
  σ' !! r = Some (OChart {| chart_data := chart_data old; chart_mark := Some m;
                            chart_mark_attrs := attrs;
                            chart_encoding := enc ∪ chart_encoding old |}).
Proof.
  intros Hc. unfold finish. rewrite (bind_Ok _ _ _ _ _ (get_chart_Ok _ _ _ Hc)).
  unfold bind at 1, alloc. intros E.
  apply bind_Ok_inv in E as ([] & σ2 & E1 & [= <- <-]). split; [done|].
  destruct chart as [ch|]; simpl in E1.
  - apply set_layer_item_inv in E1 as (lc & lc' & Hl & ->).
    rewrite list_lookup_insert_ne; [apply alloc_lookup|].
    intros ->. rewrite alloc_lookup in Hl. discriminate.
  - injection E1 as <-. apply alloc_lookup.
Qed.

Section results.
Context `{!Externals}.

Lemma draw_networkx_edges_result G pos chart layer a σ r σ' :
  draw_networkx_edges G pos chart layer a σ = (Ok r, σ') ->
  exists df s old,
    edges_styling a df = Ok s /\
    σ' !! r = Some (OChart
      {| chart_data := df; chart_mark := Some MarkLine;
         chart_mark_attrs := marker_attrs s;
         chart_encoding :=
           with_axes (Some "")
             (<["detail" := ChShorthand (PStr "edge")]>
                (<["order" := ChShorthand (PStr "order")]> (encoded_attrs s)))
           ∪ old |}).
Proof.
  unfold draw_networkx_edges. intros E.
  apply bind_Ok_inv in E as ([df c] & σ1 & E1 & E).
  apply bind_Ok_inv in E as (df' & σ2 & E2 & E).
  apply bind_Ok_inv in E as (s & σ3 & E3 & E).
  apply lift_Ok_inv in E3 as [E3 ->].
  apply select_source_chart in E1 as (ch & Hc & Hd).
  destruct (restrict_chart _ _ _ _ _ _ _ _ Hc Hd E2) as (ch' & Hc' & Hd').
  destruct (finish_chart _ _ _ _ _ _ _ _ _ _ Hc' E) as [_ Hr].
  rewrite Hd' in Hr. eauto.
Qed.

Lemma draw_networkx_arrows_result G pos chart layer a σ r σ' :
  draw_networkx_arrows G pos chart layer a σ = (Ok r, σ') ->
  exists df s old,
    arrows_styling a df = Ok s /\
    σ' !! r = Some (OChart
      {| chart_data := df; chart_mark := Some MarkLine;
         chart_mark_attrs := marker_attrs s;
         chart_encoding :=
           with_axes None
             (<["detail" := ChShorthand (PStr "edge")]> (encoded_attrs s))
           ∪ old |}).
Proof.
  unfold draw_networkx_arrows. intros E.
  apply bind_Ok_inv in E as ([df c] & σ1 & E1 & E).
  apply bind_Ok_inv in E as (df' & σ2 & E2 & E).
  apply bind_Ok_inv in E as (s & σ3 & E3 & E).
  apply lift_Ok_inv in E3 as [E3 ->].
  apply select_source_chart in E1 as (ch & Hc & Hd).
  destruct (restrict_chart _ _ _ _ _ _ _ _ Hc Hd E2) as (ch' & Hc' & Hd').
  destruct (finish_chart _ _ _ _ _ _ _ _ _ _ Hc' E) as [_ Hr].
  rewrite Hd' in Hr. eauto.
Qed.

Lemma draw_networkx_nodes_result G pos chart layer a σ r σ' :
  draw_networkx_nodes G pos chart layer a σ = (Ok r, σ') ->
  exists df s old,
    nodes_styling a df = Ok s /\
    σ' !! r = Some (OChart
      {| chart_data := df; chart_mark := Some MarkPoint;
         chart_mark_attrs := marker_attrs s;
         chart_encoding := with_axes None (encoded_attrs s) ∪ old |}).
Proof.
  unfold draw_networkx_nodes. intros E.
  apply bind_Ok_inv in E as ([df c] & σ1 & E1 & E).
  apply bind_Ok_inv in E as (df' & σ2 & E2 & E).
  apply bind_Ok_inv in E as (s & σ3 & E3 & E).
  apply lift_Ok_inv in E3 as [E3 ->].
  apply select_source_chart in E1 as (ch & Hc & Hd).
  destruct (restrict_chart _ _ _ _ _ _ _ _ Hc Hd E2) as (ch' & Hc' & Hd').
  destruct (finish_chart _ _ _ _ _ _ _ _ _ _ Hc' E) as [_ Hr].
  rewrite Hd' in Hr. eauto.
Qed.

Lemma draw_networkx_labels_result G pos chart layer a σ r σ' :
  draw_networkx_labels G pos chart layer a σ = (Ok r, σ') ->
  exists df s old,
    labels_styling a df = Ok s /\
    σ' !! r = Some (OChart
      {| chart_data := df; chart_mark := Some MarkText;
         chart_mark_attrs := <["baseline" := PStr "middle"]> (marker_attrs s);
         chart_encoding := with_axes None (encoded_attrs s) ∪ old |}).
Proof.
  unfold draw_networkx_labels. intros E.
  apply bind_Ok_inv in E as ([df c] & σ1 & E1 & E).
  apply bind_Ok_inv in E as (df' & σ2 & E2 & E).
  apply bind_Ok_inv in E as (s & σ3 & E3 & E).
  apply lift_Ok_inv in E3 as [E3 ->].
  apply select_source_chart in E1 as (ch & Hc & Hd).
  destruct (restrict_chart _ _ _ _ _ _ _ _ Hc Hd E2) as (ch' & Hc' & Hd').
  destruct (finish_chart _ _ _ _ _ _ _ _ _ _ Hc' E) as [_ Hr].
  rewrite Hd' in Hr. eauto.
Qed.
End results.

(** ** C7: constants and column references *)

Ltac notin :=
  let Hin := fresh in
  intros Hin; apply list_elem_of_In in Hin; simpl in Hin; intuition discriminate.

Ltac step_frame f :=
  let E := fresh "E" in
  let k := fresh "k" in
  let Hk := fresh "Hk" in
  intros E k Hk; unfold f in E;
  repeat case_match; simplify_eq; simpl;
  rewrite ?lookup_insert_ne
    by (intros <-; apply Hk; apply list_elem_of_In; simpl; tauto);
  done.

Lemma edges_width_frame w lg s s' :
  edges_width w lg s = Ok s' -> only_changes ["strokeWidth"] s s'.
Proof. step_frame edges_width. Qed.

Lemma arrows_width_frame w lg s s' :
  arrows_width w lg s = Ok s' -> only_changes ["size"; "strokeWidth"] s s'.
Proof. step_frame arrows_width. Qed.

Lemma line_colour_frame c m lg df s s' :
  line_colour c m lg df s = Ok s' -> only_changes ["color"] s s'.
Proof. step_frame line_colour. Qed.

Lemma opacity_frame a s s' :
  opacity a s = Ok s' -> only_changes ["opacity"] s s'.
Proof. step_frame opacity. Qed.

Lemma interpolate_frame b i s s' :
  interpolate b i s = Ok s' -> only_changes ["interpolate"] s s'.
Proof. step_frame interpolate. Qed.

Lemma tooltips_frame t s : only_changes ["tooltip"] s (tooltips t s).
Proof.
  intros k Hk. unfold tooltips. destruct t; simpl;
    rewrite ?lookup_insert_ne
      by (intros <-; apply Hk; apply list_elem_of_In; simpl; tauto);
    done.
Qed.

Lemma point_size_frame v lg s s' :
  point_size v lg s = Ok s' -> only_changes ["size"] s s'.
Proof. step_frame point_size. Qed.

Lemma nodes_outline_width_frame v lg s s' :
  nodes_outline_width v lg s = Ok s' -> only_changes ["strokeWidth"] s s'.
Proof. step_frame nodes_outline_width. Qed.

Lemma nodes_shape_frame v lg df s s' :
  nodes_shape v lg df s = Ok s' -> only_changes ["shape"] s s'.
Proof. step_frame nodes_shape. Qed.

Lemma column_or_constant_frame key v df s s' :
  column_or_constant key v df s = Ok s' -> only_changes [key] s s'.
Proof. step_frame column_or_constant. Qed.

Lemma nodes_cmap_frame c m s s' :
  nodes_cmap c m s = Ok s' -> only_changes ["fill"] s s'.
Proof. step_frame nodes_cmap. Qed.

(** A resolved parameter stays resolved while other keys are filled. *)
Lemma numeric_param_frame keys s s' number v mkey ekey :
  only_changes keys s s' -> mkey ∉ keys -> ekey ∉ keys ->
  numeric_param number v mkey ekey (marker_attrs s) (encoded_attrs s) ->
  numeric_param number v mkey ekey (marker_attrs s') (encoded_attrs s').
Proof.
  intros Hc Hm He [H1 H2]. split.
  - intros f Hf. destruct (H1 f Hf) as (ch & Hch & Hfd). exists ch.
    by rewrite (proj2 (Hc ekey He)).
  - intros Hn. rewrite (proj1 (Hc mkey Hm)). auto.
Qed.

Lemma text_param_frame keys s s' v key cols :
  only_changes keys s s' -> key ∉ keys ->
  text_param v key cols (marker_attrs s) (encoded_attrs s) ->
  text_param v key cols (marker_attrs s') (encoded_attrs s').
Proof.
  intros Hc Hk [H1 H2]. split.
  - intros f Hf Hin. destruct (H1 f Hf Hin) as (ch & Hch & Hfd). exists ch.
    by rewrite (proj2 (Hc key Hk)).
  - intros f Hf Hin. rewrite (proj1 (Hc key Hk)). eauto.
Qed.

(** Each step resolves its own parameter. *)
Ltac step_sets f :=
  let E := fresh "E" in
  intros E; unfold f in E; split; intros; repeat case_match; simplify_eq;
  try discriminate; simpl in *;
  try (eexists; split; [apply lookup_insert_eq | reflexivity]);
  try apply lookup_insert_eq;
  try done.

Lemma edges_width_sets w lg s s' :
  edges_width w lg s = Ok s' ->
  numeric_param is_number w "strokeWidth" "strokeWidth"
    (marker_attrs s') (encoded_attrs s').
Proof. step_sets edges_width. Qed.

Lemma arrows_width_sets w lg s s' :
  arrows_width w lg s = Ok s' ->
  numeric_param is_number w "strokeWidth" "size"
    (marker_attrs s') (encoded_attrs s').
Proof. step_sets arrows_width. Qed.

Lemma opacity_sets a s s' :
  opacity a s = Ok s' ->
  numeric_param is_number a "opacity" "opacity"
    (marker_attrs s') (encoded_attrs s').
Proof. step_sets opacity. Qed.

Lemma point_size_sets v lg s s' :
  point_size v lg s = Ok s' ->
  numeric_param is_int v "size" "size" (marker_attrs s') (encoded_attrs s').
Proof. step_sets point_size. Qed.

Lemma nodes_outline_width_sets v lg s s' :
  nodes_outline_width v lg s = Ok s' ->
  numeric_param is_number v "strokeWidth" "strokeWidth"
    (marker_attrs s') (encoded_attrs s').
Proof. step_sets nodes_outline_width. Qed.

Lemma line_colour_sets c m lg df s s' :
  line_colour c m lg df s = Ok s' ->
  text_param c "color" (columns df) (marker_attrs s') (encoded_attrs s').
Proof.
  intros E. unfold line_colour in E. split; intros f -> Hin.
  - rewrite bool_decide_eq_true_2 in E by done.
    repeat case_match; simplify_eq; simpl;
      (eexists; split; [apply lookup_insert_eq | reflexivity]).
  - rewrite bool_decide_eq_false_2 in E by done. simplify_eq. simpl.
    apply lookup_insert_eq.
Qed.

Lemma nodes_shape_sets v lg df s s' :
  nodes_shape v lg df s = Ok s' ->
  text_param v "shape" (columns df) (marker_attrs s') (encoded_attrs s').
Proof.
  intros E. unfold nodes_shape in E. split; intros f -> Hin.
  - rewrite bool_decide_eq_true_2 in E by done. simplify_eq. simpl.
    eexists; split; [apply lookup_insert_eq | reflexivity].
  - rewrite bool_decide_eq_false_2 in E by done. simplify_eq. simpl.
    apply lookup_insert_eq.
Qed.

Lemma column_or_constant_sets key v df s s' :
  column_or_constant key v df s = Ok s' ->
  text_param v key (columns df) (marker_attrs s') (encoded_attrs s').
Proof.
  intros E. unfold column_or_constant in E. split; intros f -> Hin.
  - rewrite bool_decide_eq_true_2 in E by done. simplify_eq. simpl.
    eexists; split; [apply lookup_insert_eq | reflexivity].
  - rewrite bool_decide_eq_false_2 in E by done. simplify_eq. simpl.
    apply lookup_insert_eq.
Qed.

(** The colour map of nodes replaces the fill encoding by one of the same
    column, and leaves the mark attributes alone. *)
Lemma nodes_cmap_keeps_fill c m cols s s' :
  nodes_cmap c m s = Ok s' ->
  text_param c "fill" cols (marker_attrs s) (encoded_attrs s) ->
  text_param c "fill" cols (marker_attrs s') (encoded_attrs s').
Proof.
  intros E [H1 H2]. unfold nodes_cmap in E.
  destruct m; simplify_eq; try discriminate; [done|].
  destruct c; simplify_eq. split.
  - intros f [= <-] _. simpl.
    eexists; split; [apply lookup_insert_eq | reflexivity].
  - intros f Hf Hin. simpl. eauto.
Qed.

Ltac frame_src :=
  first [ apply tooltips_frame
        | eapply edges_width_frame; eassumption
        | eapply arrows_width_frame; eassumption
        | eapply line_colour_frame; eassumption
        | eapply opacity_frame; eassumption
        | eapply interpolate_frame; eassumption
        | eapply point_size_frame; eassumption
        | eapply nodes_outline_width_frame; eassumption
        | eapply nodes_shape_frame; eassumption
        | eapply column_or_constant_frame; eassumption
        | eapply nodes_cmap_frame; eassumption ].

Ltac resolved :=
  repeat first
    [ eapply edges_width_sets; eassumption
    | eapply arrows_width_sets; eassumption
    | eapply opacity_sets; eassumption
    | eapply point_size_sets; eassumption
    | eapply nodes_outline_width_sets; eassumption
    | eapply line_colour_sets; eassumption
    | eapply nodes_shape_sets; eassumption
    | eapply column_or_constant_sets; eassumption
    | eapply numeric_param_frame; [frame_src | notin | notin | ]
    | eapply text_param_frame; [frame_src | notin | ]
    | eapply nodes_cmap_keeps_fill; [eassumption | ] ].

Lemma edges_styling_resolved a df s :
  edges_styling a df = Ok s ->
  numeric_param is_number (EdgesArgs.width a) "strokeWidth" "strokeWidth"
    (marker_attrs s) (encoded_attrs s) /\
  text_param (EdgesArgs.colour a) "color" (columns df)
    (marker_attrs s) (encoded_attrs s) /\
  numeric_param is_number (EdgesArgs.alpha a) "opacity" "opacity"
    (marker_attrs s) (encoded_attrs s).
Proof.
  unfold edges_styling. intros E.
  apply obind_Ok_inv in E as (s1 & E1 & E).
  apply obind_Ok_inv in E as (s2 & E2 & E).
  apply obind_Ok_inv in E as (s3 & E3 & E).
  apply obind_Ok_inv in E as (s4 & E4 & [= <-]).
  split_and!; resolved.
Qed.

Lemma arrows_styling_resolved a df s :
  arrows_styling a df = Ok s ->
  numeric_param is_number (ArrowsArgs.width a) "strokeWidth" "size"
    (marker_attrs s) (encoded_attrs s) /\
  text_param (ArrowsArgs.colour a) "color" (columns df)
    (marker_attrs s) (encoded_attrs s) /\
  numeric_param is_number (ArrowsArgs.alpha a) "opacity" "opacity"
    (marker_attrs s) (encoded_attrs s).
Proof.
  unfold arrows_styling. intros E.
  apply obind_Ok_inv in E as (s1 & E1 & E).
  apply obind_Ok_inv in E as (s2 & E2 & E).
  apply obind_Ok_inv in E as (s3 & E3 & [= <-]).
  split_and!; resolved.
Qed.

Lemma nodes_styling_resolved a df s :
  nodes_styling a df = Ok s ->
  numeric_param is_int (NodesArgs.size a) "size" "size"
    (marker_attrs s) (encoded_attrs s) /\
  numeric_param is_number (NodesArgs.outline_width a) "strokeWidth" "strokeWidth"
    (marker_attrs s) (encoded_attrs s) /\
  text_param (NodesArgs.shape a) "shape" (columns df)
    (marker_attrs s) (encoded_attrs s) /\
  text_param (NodesArgs.colour a) "fill" (columns df)
    (marker_attrs s) (encoded_attrs s) /\
  numeric_param is_number (NodesArgs.alpha a) "opacity" "opacity"
    (marker_attrs s) (encoded_attrs s).
Proof.
  unfold nodes_styling. intros E.
  apply obind_Ok_inv in E as (s1 & E1 & E).
  apply obind_Ok_inv in E as (s2 & E2 & E).
  apply obind_Ok_inv in E as (s3 & E3 & E).
  apply obind_Ok_inv in E as (s4 & E4 & E).
  apply obind_Ok_inv in E as (s5 & E5 & E).
  apply obind_Ok_inv in E as (s6 & E6 & [= <-]).
  split_and!; resolved.
Qed.

Lemma labels_styling_resolved a df s :
  labels_styling a df = Ok s ->
  text_param (LabelsArgs.label a) "text" (columns df)
    (marker_attrs s) (encoded_attrs s) /\
  numeric_param is_int (LabelsArgs.font_size a) "size" "size"
    (marker_attrs s) (encoded_attrs s) /\
  text_param (LabelsArgs.font_colour a) "fill" (columns df)
    (marker_attrs s) (encoded_attrs s).
Proof.
  unfold labels_styling. intros E.
  apply obind_Ok_inv in E as (s1 & E1 & E).
  apply obind_Ok_inv in E as (s2 & E2 & E).
  split_and!; resolved.
Qed.

(** The encodings and attributes a function assembled are those of the
    chart it returns. *)
Lemma numeric_param_chart number v mkey ekey attrs enc attrs' enc' :
  (forall x, attrs !! mkey = Some x -> attrs' !! mkey = Some x) ->
  (forall ch, enc !! ekey = Some ch -> enc' !! ekey = Some ch) ->
  numeric_param number v mkey ekey attrs enc ->
  numeric_param number v mkey ekey attrs' enc'.
Proof.
  intros Ha He [H1 H2]. split.
  - intros f Hf. destruct (H1 f Hf) as (ch & Hch & Hfd). exists ch. auto.
  - auto.
Qed.

Lemma text_param_chart v key cols attrs enc attrs' enc' :
  (forall x, attrs !! key = Some x -> attrs' !! key = Some x) ->
  (forall ch, enc !! key = Some ch -> enc' !! key = Some ch) ->
  text_param v key cols attrs enc ->
  text_param v key cols attrs' enc'.
Proof.
  intros Ha He [H1 H2]. split.
  - intros f Hf Hin. destruct (H1 f Hf Hin) as (ch & Hch & Hfd). exists ch. auto.
  - eauto.
Qed.

Ltac to_chart :=
  first [ eapply numeric_param_chart | eapply text_param_chart ];
  [ simpl; intros x Hx; rewrite ?lookup_insert_ne by done; exact Hx
  | simpl; intros x Hx; apply lookup_union_Some_l; unfold with_axes;
    rewrite ?lookup_insert_ne by done; exact Hx
  | eassumption ].

Section resolution.
Context `{!Externals}.

(** C7, amended. In the chart a drawing function returns, each styling
    parameter is resolved from its own value alone.  For the parameters
    whose constants are numbers (width, size, outline width, font size,
    opacity) a number is a mark attribute (for size and font size the number
    must be an int) and a string, whether or not it names a column, is an
    encoding of the column of that name.  For the parameters whose constants
    are strings (colour, shape, label, font colour) a string that names a
    column of the record set is an encoding of that column and any other
    string is a mark attribute. *)
Theorem styling_parameters_resolved (G : option loc) (pos : option Pos)
    (chart layer : option loc) (σ σ' : store) (r : loc) :
  (forall a, draw_networkx_edges G pos chart layer a σ = (Ok r, σ') ->
     exists c, σ' !! r = Some (OChart c) /\
       numeric_param is_number (EdgesArgs.width a) "strokeWidth" "strokeWidth"
         (chart_mark_attrs c) (chart_encoding c) /\
       text_param (EdgesArgs.colour a) "color" (columns (chart_data c))
         (chart_mark_attrs c) (chart_encoding c) /\
       numeric_param is_number (EdgesArgs.alpha a) "opacity" "opacity"
         (chart_mark_attrs c) (chart_encoding c)) /\
  (forall a, draw_networkx_arrows G pos chart layer a σ = (Ok r, σ') ->
     exists c, σ' !! r = Some (OChart c) /\
       numeric_param is_number (ArrowsArgs.width a) "strokeWidth" "size"
         (chart_mark_attrs c) (chart_encoding c) /\
       text_param (ArrowsArgs.colour a) "color" (columns (chart_data c))
         (chart_mark_attrs c) (chart_encoding c) /\
       numeric_param is_number (ArrowsArgs.alpha a) "opacity" "opacity"
         (chart_mark_attrs c) (chart_encoding c)) /\
  (forall a, draw_networkx_nodes G pos chart layer a σ = (Ok r, σ') ->
     exists c, σ' !! r = Some (OChart c) /\
       numeric_param is_int (NodesArgs.size a) "size" "size"
         (chart_mark_attrs c) (chart_encoding c) /\
       numeric_param is_number (NodesArgs.outline_width a)
         "strokeWidth" "strokeWidth"
         (chart_mark_attrs c) (chart_encoding c) /\
       text_param (NodesArgs.shape a) "shape" (columns (chart_data c))
         (chart_mark_attrs c) (chart_encoding c) /\
       text_param (NodesArgs.colour a) "fill" (columns (chart_data c))
         (chart_mark_attrs c) (chart_encoding c) /\
       numeric_param is_number (NodesArgs.alpha a) "opacity" "opacity"
         (chart_mark_attrs c) (chart_encoding c)) /\
  (forall a, draw_networkx_labels G pos chart layer a σ = (Ok r, σ') ->
     exists c, σ' !! r = Some (OChart c) /\
       text_param (LabelsArgs.label a) "text" (columns (chart_data c))
         (chart_mark_attrs c) (chart_encoding c) /\
       numeric_param is_int (LabelsArgs.font_size a) "size" "size"
         (chart_mark_attrs c) (chart_encoding c) /\
       text_param (LabelsArgs.font_colour a) "fill" (columns (chart_data c))
         (chart_mark_attrs c) (chart_encoding c)).
Proof.
  split_and!; intros a E.
  - apply draw_networkx_edges_result in E as (df & s & old & Hs & Hr).
    apply edges_styling_resolved in Hs as (H1 & H2 & H3).
    eexists. split; [exact Hr|]. split_and!; to_chart.
  - apply draw_networkx_arrows_result in E as (df & s & old & Hs & Hr).
    apply arrows_styling_resolved in Hs as (H1 & H2 & H3).
    eexists. split; [exact Hr|]. split_and!; to_chart.
  - apply draw_networkx_nodes_result in E as (df & s & old & Hs & Hr).
    apply nodes_styling_resolved in Hs as (H1 & H2 & H3 & H4 & H5).
    eexists. split; [exact Hr|]. split_and!; to_chart.
  - apply draw_networkx_labels_result in E as (df & s & old & Hs & Hr).
    apply labels_styling_resolved in Hs as (H1 & H2 & H3).
    eexists. split; [exact Hr|]. split_and!; to_chart.
Qed.
End resolution.

(** The demonstration edge layer drawn with [width='thick']. *)
Lemma styling_parameters_resolved_witness :
  let out := draw_networkx_edges (H := demo_externals) None None None
               (Some 0%nat) edges_width_thick demo_store in
  exists c, out.2 !! 2%nat = Some (OChart c) /\
    numeric_param is_number (EdgesArgs.width edges_width_thick)
      "strokeWidth" "strokeWidth" (chart_mark_attrs c) (chart_encoding c) /\
    text_param (EdgesArgs.colour edges_width_thick) "color"
      (columns (chart_data c)) (chart_mark_attrs c) (chart_encoding c) /\
    numeric_param is_number (EdgesArgs.alpha edges_width_thick)
      "opacity" "opacity" (chart_mark_attrs c) (chart_encoding c).
Proof.
  intros out.
  apply (proj1 (styling_parameters_resolved (H := demo_externals)
                  None None None (Some 0%nat) demo_store out.2 2%nat)
               edges_width_thick).
  vm_compute. reflexivity.
Defined.

(** C7 as stated fails.  ['thick'] names no column of the edge record set,
    yet as a width it becomes an encoding and no mark attribute; and the
    number 2.5 as a node size is refused. *)
Lemma width_string_is_never_a_constant :
  ("thick" ∉ columns demo_edges_df) /\
  (exists c,
     draw_networkx_edges (H := demo_externals) None None None (Some 0%nat)
       edges_width_thick demo_store = (Ok 2%nat, demo_store ++ [OChart c]) /\
     chart_mark_attrs c !! "strokeWidth" = None /\
     chart_encoding c !! "strokeWidth" = Some (ChSize "thick" LegendNone)) /\
  draw_networkx_nodes (H := demo_externals) None None None (Some 1%nat)
    nodes_size_float demo_store = (Raise TypeError, demo_store).
Proof.
  split; [|split].
  - intros Hin. apply list_elem_of_In in Hin. simpl in Hin. intuition discriminate.
  - eexists. split; [|split]; vm_compute; reflexivity.
  - reflexivity.
Qed.

(** ** C1: rescaling of the coordinates *)

Lemma omap_Ok_map {A B} (f : A -> outcome B) (g : A -> B) (l : list A) :
  (forall a, f a = Ok (g a)) -> omap f l = Ok (g <$> l).
Proof.
  intros E. induction l as [|a l IH]; [reflexivity|].
  simpl. by rewrite E, IH.
Qed.

Lemma py_max_map (f : Q -> Q) (x : Q) (xs : list Q) :
  (forall a b, Qle_bool (f a) (f b) = Qle_bool a b) ->
  py_max (f x) (f <$> xs) = f (py_max x xs).
Proof.
  intros Hf. revert x. induction xs as [|y xs IH]; intros x; [reflexivity|].
  unfold py_max in *. simpl. rewrite Hf.
  destruct (Qle_bool y x); apply IH.
Qed.

Lemma py_min_map (f : Q -> Q) (x : Q) (xs : list Q) :
  (forall a b, Qle_bool (f a) (f b) = Qle_bool a b) ->
  py_min (f x) (f <$> xs) = f (py_min x xs).
Proof.
  intros Hf. revert x. induction xs as [|y xs IH]; intros x; [reflexivity|].
  unfold py_min in *. simpl. rewrite Hf.
  destruct (Qle_bool x y); apply IH.
Qed.

Lemma max_of_map (f : Q -> Q) (l : list Q) :
  l <> [] -> (forall a b, Qle_bool (f a) (f b) = Qle_bool a b) ->
  max_of (f <$> l) = f (max_of l).
Proof. destruct l; [done|]. intros _. apply py_max_map. Qed.

Lemma min_of_map (f : Q -> Q) (l : list Q) :
  l <> [] -> (forall a b, Qle_bool (f a) (f b) = Qle_bool a b) ->
  min_of (f <$> l) = f (min_of l).
Proof. destruct l; [done|]. intros _. apply py_min_map. Qed.

Lemma py_min_le_py_max (a b : Q) (xs : list Q) :
  (a <= b)%Q -> (py_min a xs <= py_max b xs)%Q.
Proof.
  revert a b. induction xs as [|y xs IH]; intros a b Hab; [exact Hab|].
  unfold py_min, py_max in *. simpl. apply IH.
  destruct (Qle_bool a y) eqn:E1, (Qle_bool y b) eqn:E2; try done.
  - apply Qle_bool_iff in E1. done.
  - apply Qle_bool_iff in E2. done.
  - apply Qle_refl.
Qed.

Lemma min_of_le_max_of (l : list Q) : (min_of l <= max_of l)%Q.
Proof.
  destruct l as [|x xs]; [apply Qle_refl|]. apply py_min_le_py_max, Qle_refl.
Qed.

Lemma Qle_bool_ext (a b c d : Q) :
  ((a <= b)%Q <-> (c <= d)%Q) -> Qle_bool a b = Qle_bool c d.
Proof.
  intros E. destruct (Qle_bool a b) eqn:E1, (Qle_bool c d) eqn:E2; try done.
  - apply Qle_bool_iff, E, Qle_bool_iff in E1. congruence.
  - apply Qle_bool_iff, E, Qle_bool_iff in E2. congruence.
Qed.

(** The two maps applied to a coordinate keep the order. *)
Lemma normalising_keeps_order (m r a b : Q) :
  (0 < r)%Q -> Qle_bool ((a - m) / r) ((b - m) / r) = Qle_bool a b.
Proof.
  intros Hr. apply Qle_bool_ext. unfold Qdiv, Qminus.
  rewrite Qmult_le_r by (by apply Qinv_lt_0_compat).
  apply Qplus_le_l.
Qed.

Lemma stretching_keeps_order (k d a b : Q) :
  (0 < k)%Q -> (0 < d)%Q -> Qle_bool (a * k / d) (b * k / d) = Qle_bool a b.
Proof.
  intros Hk Hd. apply Qle_bool_ext. unfold Qdiv.
  rewrite Qmult_le_r by (by apply Qinv_lt_0_compat).
  by apply Qmult_le_r.
Qed.

Lemma range_positive (l : list Q) :
  ~ (max_of l - min_of l == 0)%Q -> (0 < max_of l - min_of l)%Q.
Proof.
  intros Hn. pose proof (min_of_le_max_of l) as Hle.
  destruct (Qlt_le_dec 0 (max_of l - min_of l)) as [|Hc]; [done|].
  exfalso. apply Hn. apply Qle_antisym; [done|].
  unfold Qminus. rewrite <- (Qplus_opp_r (min_of l)).
  by apply Qplus_le_l.
Qed.

Lemma normalise_nonzero (pos : Pos) :
  Qeq_bool (x_range pos) 0 = false -> Qeq_bool (y_range pos) 0 = false ->
  normalise pos
  = (fun kv : label * point =>
       (kv.1, ((kv.2.1 - min_of (pos_xs pos)) / x_range pos,
               (kv.2.2 - min_of (pos_ys pos)) / y_range pos)%Q)) <$> pos.
Proof. intros Hx Hy. unfold normalise. by rewrite Hx, Hy. Qed.

Lemma py_div_nonzero (a b : Q) : ~ (b == 0)%Q -> py_div a b = Ok (a / b)%Q.
Proof.
  intros Hb. unfold py_div. destruct (Qeq_bool b 0) eqn:E; [|done].
  by apply Qeq_bool_iff in E.
Qed.

Lemma stretch_wide (pos : Pos) (w h : Q) :
  Qeq_bool w h = false -> Qle_bool h w = true -> ~ (h == 0)%Q ->
  stretch pos w h
  = Ok ((fun kv : label * point => (kv.1, (kv.2.1 * w / h, kv.2.2)%Q)) <$> pos).
Proof.
  intros E1 E2 Hh. unfold stretch. rewrite E1, E2.
  apply omap_Ok_map. intros kv. by rewrite py_div_nonzero.
Qed.

Lemma stretch_tall (pos : Pos) (w h : Q) :
  Qeq_bool w h = false -> Qle_bool h w = false -> ~ (w == 0)%Q ->
  stretch pos w h
  = Ok ((fun kv : label * point => (kv.1, (kv.2.1, kv.2.2 * h / w)%Q)) <$> pos).
Proof.
  intros E1 E2 Hh. unfold stretch. rewrite E1, E2.
  apply omap_Ok_map. intros kv. by rewrite py_div_nonzero.
Qed.

Lemma Qeq_bool_false (a b : Q) : ~ (a == b)%Q -> Qeq_bool a b = false.
Proof.
  intros H. destruct (Qeq_bool a b) eqn:E; [|done]. by apply Qeq_bool_iff in E.
Qed.

Lemma scale_coordinates_both (pos : Pos) (w h : Q) :
  pos <> [] ->
  scale_coordinates pos (Some w) (Some h)
  = try! pos' := stretch (normalise pos) w h in Ok (pos', w, h).
Proof. destruct pos; [done | reflexivity]. Qed.

(** C1, amended. For positions spanning a non-zero width and a non-zero
    height and a chart of positive width and height, both given, the
    rescaling succeeds and keeps the nodes; both coordinates then start at
    0; the coordinate of the smaller chart size spans [0, 1] and the other
    one [0, larger size / smaller size], whichever raw axis was the longer;
    so the coordinates have the aspect ratio chart_width / chart_height. *)
Theorem rescaling_follows_chart_size (pos : Pos) (w h : Q) :
  pos <> [] -> ~ (x_range pos == 0)%Q -> ~ (y_range pos == 0)%Q ->
  (0 < w)%Q -> (0 < h)%Q ->
  exists pos',
    scale_coordinates pos (Some w) (Some h) = Ok (pos', w, h) /\
    pos'.*1 = pos.*1 /\
    (min_of (pos_xs pos') == 0)%Q /\ (min_of (pos_ys pos') == 0)%Q /\
    (if Qle_bool h w
     then (max_of (pos_ys pos') == 1 /\ max_of (pos_xs pos') == w / h)%Q
     else (max_of (pos_xs pos') == 1 /\ max_of (pos_ys pos') == h / w)%Q) /\
    (x_range pos' / y_range pos' == w / h)%Q.
Proof.
  intros Hne Hx Hy Hw Hh.
  assert (Hw0 : ~ (w == 0)%Q) by (intros E; rewrite E in Hw; by apply Qlt_irrefl in Hw).
  assert (Hh0 : ~ (h == 0)%Q) by (intros E; rewrite E in Hh; by apply Qlt_irrefl in Hh).
  pose proof (range_positive _ Hx) as Hxp. pose proof (range_positive _ Hy) as Hyp.
  fold (x_range pos) in Hxp. fold (y_range pos) in Hyp.
  rewrite scale_coordinates_both by done.
  rewrite normalise_nonzero by (by apply Qeq_bool_false).
  assert (Hxs : pos_xs pos <> []) by (by destruct pos).
  assert (Hys : pos_ys pos <> []) by (by destruct pos).
  set (mx := min_of (pos_xs pos)). set (my := min_of (pos_ys pos)).
  set (rx := x_range pos) in *. set (ry := y_range pos) in *.
  assert (Hmaxx : (max_of (pos_xs pos) - mx == rx)%Q) by apply Qeq_refl.
  assert (Hmaxy : (max_of (pos_ys pos) - my == ry)%Q) by apply Qeq_refl.
  assert (Hsc : forall fx fy : Q -> Q,
     (forall a b, Qle_bool (fx a) (fx b) = Qle_bool a b) ->
     (forall a b, Qle_bool (fy a) (fy b) = Qle_bool a b) ->
     let pos' := (fun kv : label * point => (kv.1, (fx kv.2.1, fy kv.2.2))) <$> pos in
     pos'.*1 = pos.*1 /\
     min_of (pos_xs pos') = fx mx /\ min_of (pos_ys pos') = fy my /\
     max_of (pos_xs pos') = fx (max_of (pos_xs pos)) /\
     max_of (pos_ys pos') = fy (max_of (pos_ys pos))).
  { intros fx fy Mx My pos'.
    assert (Ex : pos_xs pos' = fx <$> pos_xs pos).
    { unfold pos', pos_xs. rewrite <- !list_fmap_compose. done. }
    assert (Ey : pos_ys pos' = fy <$> pos_ys pos).
    { unfold pos', pos_ys. rewrite <- !list_fmap_compose. done. }
    split_and!.
    - unfold pos'. rewrite <- list_fmap_compose. done.
    - rewrite Ex. by apply min_of_map.
    - rewrite Ey. by apply min_of_map.
    - rewrite Ex. by apply max_of_map.
    - rewrite Ey. by apply max_of_map. }
  assert (Bx : ((mx - mx) / rx == 0)%Q) by (field; done).
  assert (By : ((my - my) / ry == 0)%Q) by (field; done).
  assert (Tx : ((max_of (pos_xs pos) - mx) / rx == 1)%Q)
    by (rewrite Hmaxx; field; done).
  assert (Ty : ((max_of (pos_ys pos) - my) / ry == 1)%Q)
    by (rewrite Hmaxy; field; done).
  destruct (Qeq_bool w h) eqn:Ewh; [|destruct (Qle_bool h w) eqn:Ele].
  - (* square chart: no stretching *)
    apply Qeq_bool_iff in Ewh.
    assert (Ele : Qle_bool h w = true)
      by (apply Qle_bool_iff; rewrite Ewh; apply Qle_refl).
    rewrite Ele.
    destruct (Hsc (fun x => (x - mx) / rx)%Q (fun y => (y - my) / ry)%Q)
      as (Hk & Hmx & Hmy & HMx & HMy);
      [intros; by apply normalising_keeps_order ..|].
    eexists. split.
    { unfold stretch. apply Qeq_bool_iff in Ewh. rewrite Ewh. reflexivity. }
    unfold x_range, y_range. rewrite Hmx, Hmy, HMx, HMy, Bx, By, Tx, Ty.
    split_and!; try done; rewrite Ewh; field; done.
  - (* the chart is wider than high: x is stretched *)
    destruct (Hsc (fun x => (x - mx) / rx * w / h)%Q (fun y => (y - my) / ry)%Q)
      as (Hk & Hmx & Hmy & HMx & HMy).
    { intros a b. rewrite stretching_keeps_order by done.
      by apply normalising_keeps_order. }
    { intros; by apply normalising_keeps_order. }
    exists ((fun kv : label * point =>
               (kv.1, ((kv.2.1 - mx) / rx * w / h, (kv.2.2 - my) / ry)%Q)) <$> pos).
    split.
    { rewrite stretch_wide by done. rewrite <- list_fmap_compose. reflexivity. }
    unfold x_range, y_range. simpl in *. rewrite Hmx, Hmy, HMx, HMy, Bx, By, Tx, Ty.
    split_and!; try done; field; split_and?; done.
  - (* the chart is higher than wide: y is stretched *)
    destruct (Hsc (fun x => (x - mx) / rx)%Q (fun y => (y - my) / ry * h / w)%Q)
      as (Hk & Hmx & Hmy & HMx & HMy).
    { intros; by apply normalising_keeps_order. }
    { intros a b. rewrite stretching_keeps_order by done.
      by apply normalising_keeps_order. }
    exists ((fun kv : label * point =>
               (kv.1, ((kv.2.1 - mx) / rx, (kv.2.2 - my) / ry * h / w)%Q)) <$> pos).
    split.
    { rewrite stretch_tall by done. rewrite <- list_fmap_compose. reflexivity. }
    unfold x_range, y_range. simpl in *. rewrite Hmx, Hmy, HMx, HMy, Bx, By, Tx, Ty.
    split_and!; try done; field; split_and?; done.
Qed.

(** The tall positions on the default 500 x 300 chart. *)
Lemma rescaling_follows_chart_size_witness :
  exists pos',
    scale_coordinates tall_pos (Some 500%Q) (Some 300%Q) = Ok (pos', 500%Q, 300%Q) /\
    pos'.*1 = tall_pos.*1 /\
    (min_of (pos_xs pos') == 0)%Q /\ (min_of (pos_ys pos') == 0)%Q /\
    (if Qle_bool 300 500
     then (max_of (pos_ys pos') == 1 /\ max_of (pos_xs pos') == 500 / 300)%Q
     else (max_of (pos_xs pos') == 1 /\ max_of (pos_ys pos') == 300 / 500)%Q) /\
    (x_range pos' / y_range pos' == 500 / 300)%Q.
Proof.
  apply rescaling_follows_chart_size.
  - discriminate.
  - vm_compute. discriminate.
  - vm_compute. discriminate.
  - reflexivity.
  - reflexivity.
Defined.

(** C1 as stated fails: the raw positions [tall_pos] are shorter across
    (1) than up (10), yet on the default 500 x 300 chart it is the x
    coordinate, the shorter raw axis, that ends up spanning 5/3, and the y
    coordinate that spans the unit range. *)
Lemma shorter_raw_axis_is_not_the_unit_axis :
  (x_range tall_pos < y_range tall_pos)%Q /\
  exists pos',
    scale_coordinates tall_pos (Some 500%Q) (Some 300%Q) = Ok (pos', 500%Q, 300%Q) /\
    (x_range pos' == 5 # 3)%Q /\ (y_range pos' == 1)%Q /\
    ~ (x_range pos' == 1)%Q.
Proof.
  split; [reflexivity|].
  eexists. split; [vm_compute; reflexivity|].
  split_and!; vm_compute; discriminate || reflexivity.
Qed.

(** ** The caller's graph *)

Lemma keeps_ret {A} g G (a : A) : keeps g G (ret a).
Proof. by intros σ H. Qed.

Lemma keeps_raise {A} g G e : keeps g G (raise (A := A) e).
Proof. by intros σ H. Qed.

Lemma keeps_lift {A} g G (o : outcome A) : keeps g G (lift o).
Proof. by intros σ H. Qed.

Lemma keeps_bind {A B} g G (m : M A) (k : A -> M B) :
  keeps g G m -> (forall a, keeps g G (k a)) -> keeps g G (bind m k).
Proof.
  intros Hm Hk σ H. unfold bind. specialize (Hm σ H).
  destruct (m σ) as [[a|e] σ1]; simpl in *; [by apply Hk | done].
Qed.

Lemma keeps_alloc g G o : keeps g G (alloc o).
Proof. intros σ H. simpl. by apply lookup_app_l_Some. Qed.

Lemma keeps_get_graph g G l : keeps g G (get_graph l).
Proof. intros σ H. unfold get_graph. by destruct (σ !! l) as [[| |]|]. Qed.

Lemma keeps_get_chart g G l : keeps g G (get_chart l).
Proof. intros σ H. unfold get_chart. by destruct (σ !! l) as [[| |]|]. Qed.

Lemma keeps_get_layer_chart g G l : keeps g G (get_layer_chart l).
Proof. intros σ H. unfold get_layer_chart. by destruct (σ !! l) as [[| |]|]. Qed.

(** Assigning to an attribute of a chart does not reach a graph. *)
Lemma keeps_set_data g G l df : keeps g G (set_data l df).
Proof.
  intros σ H. unfold set_data, bind, get_chart.
  destruct (σ !! l) as [[| |]|] eqn:E; simpl; try done.
  rewrite list_lookup_insert_ne; [done|]. intros ->. congruence.
Qed.

Lemma keeps_set_layer_item g G chart i l : keeps g G (set_layer_item chart i l).
Proof.
  intros σ H. unfold set_layer_item, bind, get_layer_chart.
  destruct (σ !! chart) as [[| |]|] eqn:E; simpl; try done.
  case_decide; simpl; [|done].
  rewrite list_lookup_insert_ne; [done|]. intros ->. congruence.
Qed.

Lemma keeps_layer_item g G chart i : keeps g G (layer_item chart i).
Proof.
  unfold layer_item. apply keeps_bind; [apply keeps_get_layer_chart|].
  intros c. destruct (layer_list c !! i); [apply keeps_ret | apply keeps_raise].
Qed.

Lemma keeps_replace_layer g G chart i l : keeps g G (replace_layer chart i l).
Proof.
  destruct chart; [apply keeps_set_layer_item | apply keeps_ret].
Qed.

Ltac keeps_tac :=
  repeat first
    [ apply keeps_ret | apply keeps_raise | apply keeps_lift
    | apply keeps_alloc | apply keeps_get_graph | apply keeps_get_chart
    | apply keeps_get_layer_chart | apply keeps_set_data
    | apply keeps_set_layer_item | apply keeps_layer_item
    | apply keeps_replace_layer
    | apply keeps_bind; [|intros ?]
    | match goal with
      | |- keeps _ _ (match ?x with _ => _ end) => destruct x
      | |- keeps _ _ (let (_, _) := ?x in _) => destruct x
      end ].

Lemma keeps_select_source `{!Externals} g G idx project G0 pos chart layer :
  keeps g G (select_source idx project G0 pos chart layer).
Proof. unfold select_source. keeps_tac. Qed.

Lemma keeps_restrict g G select subset c df :
  keeps g G (restrict select subset c df).
Proof. unfold restrict. keeps_tac. Qed.

Lemma keeps_finish g G c m attrs enc chart idx :
  keeps g G (finish c m attrs enc chart idx).
Proof. unfold finish. keeps_tac. Qed.

Section frame.
Context `{!Externals}.

Lemma keeps_draw_networkx_edges g G G0 pos chart layer a :
  keeps g G (draw_networkx_edges G0 pos chart layer a).
Proof.
  unfold draw_networkx_edges, edges_source.
  apply keeps_bind; [apply keeps_select_source|]. intros [df c].
  apply keeps_bind; [apply keeps_restrict|]. intros df'.
  apply keeps_bind; [apply keeps_lift|]. intros s. apply keeps_finish.
Qed.

Lemma keeps_draw_networkx_arrows g G G0 pos chart layer a :
  keeps g G (draw_networkx_arrows G0 pos chart layer a).
Proof.
  unfold draw_networkx_arrows, arrows_source.
  apply keeps_bind; [apply keeps_select_source|]. intros [df c].
  apply keeps_bind; [apply keeps_restrict|]. intros df'.
  apply keeps_bind; [apply keeps_lift|]. intros s. apply keeps_finish.
Qed.

Lemma keeps_draw_networkx_nodes g G G0 pos chart layer a :
  keeps g G (draw_networkx_nodes G0 pos chart layer a).
Proof.
  unfold draw_networkx_nodes, nodes_source.
  apply keeps_bind; [apply keeps_select_source|]. intros [df c].
  apply keeps_bind; [apply keeps_restrict|]. intros df'.
  apply keeps_bind; [apply keeps_lift|]. intros s. apply keeps_finish.
Qed.

Lemma keeps_draw_networkx_labels g G G0 pos chart layer a :
  keeps g G (draw_networkx_labels G0 pos chart layer a).
Proof.
  unfold draw_networkx_labels, nodes_source.
  apply keeps_bind; [apply keeps_select_source|]. intros [df c].
  apply keeps_bind; [apply keeps_restrict|]. intros df'.
  apply keeps_bind; [apply keeps_lift|]. intros s. apply keeps_finish.
Qed.

Lemma keeps_edge_layers g G G0 Gv pos chart a :
  keeps g G (edge_layers G0 Gv pos chart a).
Proof.
  unfold edge_layers. destruct (edges Gv); [apply keeps_ret|].
  apply keeps_bind; [apply keeps_draw_networkx_edges|]. intros e.
  destruct (directed Gv); [|apply keeps_ret].
  apply keeps_bind; [apply keeps_draw_networkx_arrows|]. intros ar.
  apply keeps_ret.
Qed.

Lemma keeps_node_layers g G G0 Gv pos chart a :
  keeps g G (node_layers G0 Gv pos chart a).
Proof.
  unfold node_layers. destruct (nodes Gv); [apply keeps_ret|].
  apply keeps_bind; [apply keeps_draw_networkx_nodes|]. intros n.
  destruct (truthy _); [|apply keeps_ret].
  apply keeps_bind; [apply keeps_draw_networkx_labels|]. intros lb.
  apply keeps_ret.
Qed.

Lemma keeps_positions g G G0 pos : keeps g G (positions G0 pos).
Proof. unfold positions. keeps_tac. Qed.
End frame.

(** The filters of lines 525-528 work on a fresh object. *)
Lemma insert_last (σ : store) (o o' : obj) :
  <[length σ := o']> (σ ++ [o]) = σ ++ [o'].
Proof.
  rewrite insert_app_r_alt by done. by rewrite Nat.sub_diag.
Qed.

Lemma update_graph_last (σ : store) (G : Graph) (f : Graph -> Graph) :
  update_graph (length σ) f (σ ++ [OGraph G]) = (Ok tt, σ ++ [OGraph (f G)]).
Proof.
  unfold update_graph.
  rewrite (bind_Ok _ _ _ _ _ (get_graph_Ok _ _ _ (alloc_lookup σ (OGraph G)))).
  by rewrite insert_last.
Qed.

Lemma deepcopy_Ok (g : loc) (G : Graph) (σ : store) :
  σ !! g = Some (OGraph G) ->
  deepcopy g σ = (Ok (length σ), σ ++ [OGraph G]).
Proof.
  intros H. unfold deepcopy. by rewrite (bind_Ok _ _ _ _ _ (get_graph_Ok _ _ _ H)).
Qed.

Lemma filter_copy_spec (g : loc) (G : Graph) (self_loops orphans : bool) (σ : store) :
  σ !! g = Some (OGraph G) ->
  filter_copy (Some g) self_loops orphans σ
  = if self_loops && orphans then (Ok (Some g), σ)
    else (Ok (Some (length σ)), σ ++ [OGraph (filtered self_loops orphans G)]).
Proof.
  intros H. unfold filter_copy, filtered.
  destruct self_loops, orphans; simpl; try reflexivity.
  all: rewrite (bind_Ok _ _ _ _ _ (deepcopy_Ok _ _ _ H)).
  - rewrite bind_ret.
    by rewrite (bind_Ok _ _ _ _ _ (update_graph_last _ _ _)).
  - rewrite (bind_Ok _ _ _ _ _ (update_graph_last _ _ _)).
    by rewrite bind_ret.
  - rewrite (bind_Ok _ _ _ _ _ (update_graph_last _ _ _)).
    by rewrite (bind_Ok _ _ _ _ _ (update_graph_last _ _ _)).
Qed.

Lemma filter_copy_graph (g : loc) (G : Graph) (self_loops orphans : bool) (σ : store) :
  σ !! g = Some (OGraph G) ->
  exists g' σ1,
    filter_copy (Some g) self_loops orphans σ = (Ok (Some g'), σ1) /\
    σ1 !! g' = Some (OGraph (filtered self_loops orphans G)) /\
    σ1 !! g = Some (OGraph G).
Proof.
  intros H. rewrite (filter_copy_spec _ _ _ _ _ H).
  destruct (self_loops && orphans) eqn:E.
  - exists g, σ. split_and!; [done| |done].
    apply andb_true_iff in E as [-> ->]. done.
  - eexists _, _. split_and!; [done|apply alloc_lookup|by apply lookup_app_l_Some].
Qed.

(** ** Drawing from the graph *)

Lemma restrict_last select subset (σ : store) (df : DataFrame) :
  restrict select subset (length σ) df (σ ++ [OChart (new_chart df)])
  = match restricted select subset df with
    | Ok df' => (Ok df', σ ++ [OChart (new_chart df')])
    | Raise e => (Raise e, σ ++ [OChart (new_chart df)])
    end.
Proof.
  unfold restrict, restricted. destruct subset; try reflexivity.
  unfold bind at 1, lift. destruct (select df l) as [df'|e]; [|reflexivity].
  unfold set_data.
  rewrite (bind_Ok _ _ _ _ _
             (bind_Ok _ _ _ _ _ (get_chart_Ok _ _ _ (alloc_lookup σ _)))).
  by rewrite insert_last.
Qed.

Lemma finish_last m attrs enc idx (σ : store) (df : DataFrame) :
  finish (length σ) m attrs enc None idx (σ ++ [OChart (new_chart df)])
  = (Ok (S (length σ)),
     σ ++ [OChart (new_chart df);
           OChart {| chart_data := df; chart_mark := Some m;
                     chart_mark_attrs := attrs;
                     chart_encoding := enc ∪ ∅ |}]).
Proof.
  unfold finish.
  rewrite (bind_Ok _ _ _ _ _ (get_chart_Ok _ _ _ (alloc_lookup σ _))).
  unfold bind, alloc, replace_layer, ret. simpl.
  rewrite length_app, <- app_assoc. simpl. by rewrite Nat.add_1_r.
Qed.

(** The shape shared by the four drawing functions, on a graph alone: the
    projection, the subset and the styling decide the outcome. *)
Lemma drawn_from_graph `{!Externals} idx project select subset
    (styling_of : DataFrame -> outcome styling) m
    (attrs_of : styling -> gmap string pyval)
    (enc_of : styling -> gmap string channel)
    (g : loc) (pos : Pos) (σ : store) (Gv : Graph) :
  σ !! g = Some (OGraph Gv) ->
  (let! (df, c) := select_source idx project (Some g) (Some pos) None None in
   let! df' := restrict select subset c df in
   let! s := lift (styling_of df') in
   finish c m (attrs_of s) (enc_of s) None idx) σ
  = drawn (project Gv pos) select subset styling_of m attrs_of enc_of σ.
Proof.
  intros Hg. unfold drawn, select_source.
  rewrite bind_assoc. rewrite (bind_Ok _ _ _ _ _ (get_graph_Ok _ _ _ Hg)).
  rewrite bind_assoc. unfold bind at 1, lift at 1.
  destruct (project Gv pos) as [df|e]; [|reflexivity].
  rewrite bind_assoc. unfold bind at 1, alloc at 1. rewrite bind_ret.
  unfold bind at 1. rewrite restrict_last.
  destruct (restricted select subset df) as [df'|e]; [|reflexivity].
  unfold bind at 1, lift at 1.
  destruct (styling_of df') as [s|e]; [|reflexivity].
  apply finish_last.
Qed.

(** What the subset leaves was in the record set. *)
Lemma restricted_labels_index subset df df' :
  restricted loc_labels subset df = Ok df' ->
  forall n, n ∈ index df' -> n ∈ index df.
Proof.
  unfold restricted, loc_labels. destruct subset; try discriminate.
  - by intros [= <-].
  - case_bool_decide; [|discriminate]. intros [= <-] n. unfold index. simpl.
    rewrite !list_elem_of_fmap. intros (r & -> & Hr). exists r. split; [done|].
    apply list_elem_of_bind in Hr as (x & Hr & _).
    unfold rows_labelled in Hr. by apply list_elem_of_filter in Hr as [_ Hr].
Qed.

Lemma omap_Ok_fst {A B K} (f : A -> outcome B) (ka : A -> K) (kb : B -> K)
    (l : list A) (l' : list B) :
  (forall a b, f a = Ok b -> kb b = ka a) ->
  omap f l = Ok l' -> kb <$> l' = ka <$> l.
Proof.
  intros Hf. revert l'. induction l as [|a l IH]; intros l'; simpl.
  - by intros [= <-].
  - destruct (f a) as [b|e] eqn:E; simpl; [|discriminate].
    destruct (omap f l) as [bs|e]; simpl; [|discriminate].
    intros [= <-]. rewrite !fmap_cons. f_equal; [by apply Hf | by apply IH].
Qed.

(** The node record set has one row per node, indexed by the node. *)
Lemma to_pandas_nodes_index (G : Graph) (pos : Pos) (df : DataFrame) :
  to_pandas_nodes G pos = Ok df -> index df = node_ids G.
Proof.
  unfold to_pandas_nodes. intros E.
  apply obind_Ok_inv in E as (recs & E & [= <-]).
  unfold index, from_records, node_ids. simpl.
  rewrite <- list_fmap_compose.
  apply (omap_Ok_fst _ fst fst _ _) in E; [done|].
  intros n b Hb. apply obind_Ok_inv in Hb as (xy & _ & [= <-]). done.
Qed.

Lemma drawn_Ok_inv projected select subset styling_of m attrs_of enc_of
    (σ σ' : store) (r : loc) :
  drawn projected select subset styling_of m attrs_of enc_of σ = (Ok r, σ') ->
  exists df df' s,
    projected = Ok df /\ restricted select subset df = Ok df' /\
    styling_of df' = Ok s /\ r = S (length σ) /\
    σ' = σ ++ [OChart (new_chart df');
               OChart {| chart_data := df'; chart_mark := Some m;
                         chart_mark_attrs := attrs_of s;
                         chart_encoding := enc_of s ∪ ∅ |}].
Proof.
  unfold drawn. destruct projected as [df|]; [|discriminate].
  destruct (restricted select subset df) as [df'|] eqn:E1; [|discriminate].
  destruct (styling_of df') as [s|] eqn:E2; [|discriminate].
  intros [= <- <-]. exists df, df', s. split_and!; done.
Qed.

(** A layer drawn from a graph alone: the store only grows, and the chart
    returned is new, with the mark and a record set the projection gave. *)
Lemma drawn_layer projected select subset styling_of m attrs_of enc_of
    (σ σ' : store) (r : loc) :
  drawn projected select subset styling_of m attrs_of enc_of σ = (Ok r, σ') ->
  exists df df' c t,
    projected = Ok df /\ restricted select subset df = Ok df' /\
    σ' = σ ++ t /\ σ' !! r = Some (OChart c) /\
    chart_mark c = Some m /\ chart_data c = df'.
Proof.
  intros E. apply drawn_Ok_inv in E as (df & df' & s & E1 & E2 & _ & -> & ->).
  exists df, df',
    {| chart_data := df'; chart_mark := Some m; chart_mark_attrs := attrs_of s;
       chart_encoding := enc_of s ∪ ∅ |},
    [OChart (new_chart df');
     OChart {| chart_data := df'; chart_mark := Some m;
               chart_mark_attrs := attrs_of s;
               chart_encoding := enc_of s ∪ ∅ |}].
  split_and!; try done.
  rewrite lookup_app_r by lia.
  replace (S (length σ) - length σ)%nat with 1%nat by lia. reflexivity.
Qed.

Section on_graph.
Context `{!Externals}.

Lemma draw_networkx_edges_on_graph g pos a σ Gv :
  σ !! g = Some (OGraph Gv) ->
  draw_networkx_edges (Some g) (Some pos) None None a σ
  = drawn (to_pandas_edges Gv pos
             (effective_control_points (EdgesArgs.curved_edges a)
                (EdgesArgs.control_points a))
             (EdgesArgs.loop_radius a) (EdgesArgs.loop_angle a)
             (EdgesArgs.loop_n_points a))
      select_pairs (EdgesArgs.subset a) (edges_styling a) MarkLine marker_attrs
      (fun s => with_axes (Some "")
                  (<["detail" := ChShorthand (PStr "edge")]>
                     (<["order" := ChShorthand (PStr "order")]> (encoded_attrs s))))
      σ.
Proof.
  intros Hg. unfold draw_networkx_edges, edges_source.
  exact (drawn_from_graph 0 _ select_pairs (EdgesArgs.subset a) (edges_styling a)
           MarkLine marker_attrs _ g pos σ Gv Hg).
Qed.

Lemma draw_networkx_arrows_on_graph g pos a σ Gv :
  σ !! g = Some (OGraph Gv) ->
  draw_networkx_arrows (Some g) (Some pos) None None a σ
  = drawn (to_pandas_edge_arrows Gv pos (ArrowsArgs.length a)
             (ArrowsArgs.length_is_relative a)
             (effective_control_points (ArrowsArgs.curved_edges a)
                (ArrowsArgs.control_points a)))
      select_pairs (ArrowsArgs.subset a) (arrows_styling a) MarkLine marker_attrs
      (fun s => with_axes None
                  (<["detail" := ChShorthand (PStr "edge")]> (encoded_attrs s)))
      σ.
Proof.
  intros Hg. unfold draw_networkx_arrows, arrows_source.
  exact (drawn_from_graph 0 _ select_pairs (ArrowsArgs.subset a) (arrows_styling a)
           MarkLine marker_attrs _ g pos σ Gv Hg).
Qed.

Lemma draw_networkx_nodes_on_graph g pos a σ Gv :
  σ !! g = Some (OGraph Gv) ->
  draw_networkx_nodes (Some g) (Some pos) None None a σ
  = drawn (to_pandas_nodes Gv pos) loc_labels (NodesArgs.subset a)
      (nodes_styling a) MarkPoint marker_attrs
      (fun s => with_axes None (encoded_attrs s)) σ.
Proof.
  intros Hg. unfold draw_networkx_nodes, nodes_source.
  exact (drawn_from_graph 1 _ loc_labels (NodesArgs.subset a) (nodes_styling a)
           MarkPoint marker_attrs _ g pos σ Gv Hg).
Qed.

Lemma draw_networkx_labels_on_graph g pos a σ Gv :
  σ !! g = Some (OGraph Gv) ->
  draw_networkx_labels (Some g) (Some pos) None None a σ
  = drawn (to_pandas_nodes Gv pos) loc_labels (LabelsArgs.subset a)
      (labels_styling a) MarkText
      (fun s => <["baseline" := PStr "middle"]> (marker_attrs s))
      (fun s => with_axes None (encoded_attrs s)) σ.
Proof.
  intros Hg. unfold draw_networkx_labels, nodes_source.
  exact (drawn_from_graph 1 _ loc_labels (LabelsArgs.subset a) (labels_styling a)
           MarkText _ _ g pos σ Gv Hg).
Qed.

(** The edge and arrow layers are line charts. *)
Lemma edge_layers_on_graph g Gv pos a σ ls σ' :
  σ !! g = Some (OGraph Gv) ->
  edge_layers (Some g) Gv pos None a σ = (Ok ls, σ') ->
  (exists t, σ' = σ ++ t) /\
  forall l, l ∈ ls -> exists c, σ' !! l = Some (OChart c) /\ chart_mark c = Some MarkLine.
Proof.
  intros Hg. unfold edge_layers. destruct (edges Gv) as [|e0 es].
  { intros [= <- <-]. split; [by exists []; rewrite app_nil_r|].
    intros l Hl. by apply elem_of_nil in Hl. }
  intros E. apply bind_Ok_inv in E as (e & σ1 & E1 & E).
  rewrite (draw_networkx_edges_on_graph _ _ _ _ _ Hg) in E1.
  apply drawn_layer in E1 as (df & df' & ce & t1 & _ & _ & -> & Hce & Hme & _).
  destruct (directed Gv).
  - apply bind_Ok_inv in E as (ar & σ2 & E2 & [= <- <-]).
    rewrite (draw_networkx_arrows_on_graph _ _ _ _ Gv) in E2
      by (by apply lookup_app_l_Some).
    apply drawn_layer in E2 as (df2 & df2' & ca & t2 & _ & _ & -> & Hca & Hma & _).
    split; [exists (t1 ++ t2); by rewrite app_assoc|].
    intros l Hl. apply list_elem_of_In in Hl. simpl in Hl.
    destruct Hl as [<-|[<-|[]]]; [|by eauto].
    exists ce. split; [by apply lookup_app_l_Some | done].
  - injection E as <- <-. split; [by exists t1|].
    intros l Hl. apply list_elem_of_In in Hl. simpl in Hl.
    destruct Hl as [<-|[]]. by eauto.
Qed.

(** The node layer is the one chart of points; its record set has nodes of
    the graph only.  The label layer is a chart of text. *)
Lemma node_layers_on_graph g Gv pos a σ ls σ' :
  σ !! g = Some (OGraph Gv) ->
  node_layers (Some g) Gv pos None a σ = (Ok ls, σ') ->
  (exists t, σ' = σ ++ t) /\
  forall l, l ∈ ls -> exists c, σ' !! l = Some (OChart c) /\
    (chart_mark c = Some MarkPoint ->
     forall n, n ∈ index (chart_data c) -> n ∈ node_ids Gv).
Proof.
  intros Hg. unfold node_layers. destruct (nodes Gv) as [|n0 ns] eqn:En.
  { intros [= <- <-]. split; [by exists []; rewrite app_nil_r|].
    intros l Hl. by apply elem_of_nil in Hl. }
  intros E. apply bind_Ok_inv in E as (n & σ1 & E1 & E).
  rewrite (draw_networkx_nodes_on_graph _ _ _ _ _ Hg) in E1.
  apply drawn_layer in E1 as (df & df' & cn & t1 & Hp & Hr & -> & Hcn & Hmn & Hdn).
  assert (Hidx : forall x, x ∈ index (chart_data cn) -> x ∈ node_ids Gv).
  { intros x Hx. rewrite Hdn in Hx.
    apply (restricted_labels_index _ _ _ Hr) in Hx.
    by rewrite (to_pandas_nodes_index _ _ _ Hp) in Hx. }
  destruct (truthy _).
  - apply bind_Ok_inv in E as (lb & σ2 & E2 & [= <- <-]).
    rewrite (draw_networkx_labels_on_graph _ _ _ _ Gv) in E2
      by (by apply lookup_app_l_Some).
    apply drawn_layer in E2 as (df2 & df2' & cl & t2 & _ & _ & -> & Hcl & Hml & _).
    split; [exists (t1 ++ t2); by rewrite app_assoc|].
    intros l Hl. apply list_elem_of_In in Hl. simpl in Hl.
    destruct Hl as [<-|[<-|[]]].
    + exists cn. split; [by apply lookup_app_l_Some | done].
    + exists cl. split; [done|]. rewrite Hml. discriminate.
  - injection E as <- <-. split; [by exists t1|].
    intros l Hl. apply list_elem_of_In in Hl. simpl in Hl.
    destruct Hl as [<-|[]]. by eauto.
Qed.
End on_graph.

(** ** C5 and C3: the graph [draw_networkx] draws *)

Lemma node_ids_remove_nodes_from (ns : list label) (G : Graph) (n : label) :
  n ∈ node_ids (remove_nodes_from ns G) <-> n ∈ node_ids G /\ n ∉ ns.
Proof.
  unfold node_ids, remove_nodes_from. simpl. rewrite !list_elem_of_fmap. split.
  - intros (x & -> & Hx). apply list_elem_of_filter in Hx as [Hns Hx]. eauto.
  - intros [(x & -> & Hx) Hns]. exists x. split; [done|].
    by apply list_elem_of_filter.
Qed.

Lemma node_ids_filtered_no_orphans (self_loops : bool) (G : Graph) (n : label) :
  n ∈ node_ids (filtered self_loops false G) ->
  n ∈ node_ids G /\
  n ∉ isolates (if self_loops then G else remove_selfloop_edges G).
Proof.
  unfold filtered. intros Hn. apply node_ids_remove_nodes_from in Hn.
  by destruct self_loops.
Qed.

Section whole_graph.
Context `{!Externals}.

Lemma positions_Ok g Gv pos (σ : store) :
  σ !! g = Some (OGraph Gv) -> exists p, positions (Some g) pos σ = (Ok p, σ).
Proof.
  intros Hg. unfold positions. destruct pos as [[|kv rest]|]; [|by eauto|].
  all: rewrite (bind_Ok _ _ _ _ _ (get_graph_Ok _ _ _ Hg)); by eauto.
Qed.

(** C5. When the graph that is left after the filters has no node and no
    edge, [draw_networkx] raises, whatever the other arguments, and no
    chart is returned. *)
Theorem empty_graph_is_refused (g : loc) (G : Graph) (pos : option Pos)
    (chart : option loc) (a : NetworkxArgs.t) (σ : store) :
  σ !! g = Some (OGraph G) ->
  nodes (filtered (NetworkxArgs.show_self_loops a) (NetworkxArgs.show_orphans a) G) = [] ->
  edges (filtered (NetworkxArgs.show_self_loops a) (NetworkxArgs.show_orphans a) G) = [] ->
  exists e σ', draw_networkx (Some g) pos chart a σ = (Raise e, σ').
Proof.
  intros Hg Hn He.
  destruct (filter_copy_graph g G (NetworkxArgs.show_self_loops a)
              (NetworkxArgs.show_orphans a) σ Hg) as (g' & σ1 & Hf & Hg' & _).
  unfold draw_networkx. rewrite (bind_Ok _ _ _ _ _ Hf).
  destruct (positions_Ok g' _ pos σ1 Hg') as [p Hp].
  rewrite (bind_Ok _ _ _ _ _ Hp).
  unfold bind at 1, lift at 1.
  destruct (scale_coordinates p _ _) as [[[p' w] h]|e]; [|by eauto].
  rewrite (bind_Ok _ _ _ _ _ (get_graph_Ok _ _ _ Hg')).
  unfold edge_layers, node_layers. rewrite He, Hn. rewrite !bind_ret. simpl.
  by eauto.
Qed.

(** C3, amended. [draw_networkx] leaves the caller's graph object as it was, for
    every argument and whether it returns or raises: the filters are applied
    to a copy made for them (a new object, holding the filtered graph).  And
    when the graph itself is drawn (no chart to draw over) with
    [show_orphans=False], the record set of the node layer holds nodes of
    the graph only, none of them without an edge once the self-loops have
    been dealt with as [show_self_loops] says. *)
Theorem draw_networkx_spares_the_graph (g : loc) (G : Graph) (pos : option Pos)
    (chart : option loc) (a : NetworkxArgs.t) (σ : store) :
  σ !! g = Some (OGraph G) ->
  let self_loops := NetworkxArgs.show_self_loops a in
  let orphans := NetworkxArgs.show_orphans a in
  let out := draw_networkx (Some g) pos chart a σ in
  filter_copy (Some g) self_loops orphans σ
  = (if self_loops && orphans then (Ok (Some g), σ)
     else (Ok (Some (length σ)), σ ++ [OGraph (filtered self_loops orphans G)])) /\
  out.2 !! g = Some (OGraph G) /\
  (chart = None -> orphans = false ->
   forall r lc l c n,
     out.1 = Ok r -> out.2 !! r = Some (OLayerChart lc) ->
     l ∈ layer_list lc -> out.2 !! l = Some (OChart c) ->
     chart_mark c = Some MarkPoint ->
     n ∈ index (chart_data c) ->
     n ∈ node_ids G /\
     n ∉ isolates (if self_loops then G else remove_selfloop_edges G)).
Proof.
  intros Hg self_loops orphans out.
  split; [by apply filter_copy_spec|].
  destruct (filter_copy_graph g G self_loops orphans σ Hg)
    as (g' & σ1 & Hf & Hg' & Hg1).
  split.
  - subst out. unfold draw_networkx. fold self_loops orphans.
    rewrite (bind_Ok _ _ _ _ _ Hf).
    match goal with
    | |- (?m σ1).2 !! _ = _ => assert (Hk : keeps g G m)
    end; [|by apply Hk].
    apply keeps_bind; [apply keeps_positions|]. intros p.
    apply keeps_bind; [apply keeps_lift|]. intros [[p' w] h].
    apply keeps_bind; [apply keeps_get_graph|]. intros Gv.
    apply keeps_bind; [apply keeps_edge_layers|]. intros el.
    apply keeps_bind; [apply keeps_node_layers|]. intros nl.
    destruct (el ++ nl); [apply keeps_raise | apply keeps_alloc].
  - subst out. intros -> Ho r lc l c n Hr Hlc Hl Hc Hm Hn.
    destruct (draw_networkx (Some g) pos None a σ) as [o σ'] eqn:E.
    simpl in *. subst o.
    unfold draw_networkx in E. fold self_loops orphans in E.
    rewrite (bind_Ok _ _ _ _ _ Hf) in E.
    destruct (positions_Ok g' _ pos σ1 Hg') as [p Hp].
    rewrite (bind_Ok _ _ _ _ _ Hp) in E.
    apply bind_Ok_inv in E as ([[p' w] h] & σ2 & E1 & E).
    apply lift_Ok_inv in E1 as [_ ->].
    rewrite (bind_Ok _ _ _ _ _ (get_graph_Ok _ _ _ Hg')) in E.
    apply bind_Ok_inv in E as (el & σ2 & E2 & E).
    apply bind_Ok_inv in E as (nl & σ3 & E3 & E).
    destruct (edge_layers_on_graph _ _ _ _ _ _ _ Hg' E2) as [[t2 ->] Hel].
    destruct (node_layers_on_graph g' _ _ _ _ _ _
                (lookup_app_l_Some _ _ _ _ Hg') E3) as [[t3 ->] Hnl].
    assert (Hfin : σ' = (σ1 ++ t2) ++ t3
                        ++ [OLayerChart {| layer_list := el ++ nl;
                                           prop_width := Some w;
                                           prop_height := Some h |}]
                   /\ r = length ((σ1 ++ t2) ++ t3)).
    { destruct (el ++ nl) eqn:Eviz; [discriminate|].
      unfold alloc in E. injection E as <- <-. by rewrite <- app_assoc. }
    destruct Hfin as [-> ->].
    rewrite app_assoc, alloc_lookup in Hlc. injection Hlc as <-. simpl in Hl.
    rewrite app_assoc in Hc.
    apply node_ids_filtered_no_orphans. fold self_loops. rewrite <- Ho.
    apply elem_of_app in Hl as [Hl|Hl].
    + destruct (Hel l Hl) as (c0 & Hc0 & Hm0).
      rewrite (lookup_app_l_Some _ _ _ _ (lookup_app_l_Some _ _ _ _ Hc0)) in Hc.
      injection Hc as <-. congruence.
    + destruct (Hnl l Hl) as (c0 & Hc0 & Hi0).
      rewrite (lookup_app_l_Some _ _ _ _ Hc0) in Hc. injection Hc as <-.
      by apply Hi0.
Qed.
End whole_graph.

(** Three nodes without an edge, drawn with [show_orphans=False]. *)
Lemma empty_graph_is_refused_witness :
  exists e σ',
    draw_networkx (H := demo_externals) (Some 0%nat) None None
      (NetworkxArgs.with_filters true false NetworkxArgs.defaults)
      [OGraph orphans_graph] = (Raise e, σ').
Proof.
  apply (empty_graph_is_refused (H := demo_externals) 0%nat orphans_graph);
    reflexivity.
Defined.

(** The graph with an edge, a self-loop and an orphan, drawn with
    [show_orphans=False]. *)
Lemma draw_networkx_spares_the_graph_witness :
  let a := NetworkxArgs.with_filters true false NetworkxArgs.defaults in
  let out := draw_networkx (H := demo_externals) (Some 0%nat) None None a
               [OGraph mixed_graph] in
  out.2 !! 0%nat = Some (OGraph mixed_graph) /\
  forall r lc l c n,
    out.1 = Ok r -> out.2 !! r = Some (OLayerChart lc) ->
    l ∈ layer_list lc -> out.2 !! l = Some (OChart c) ->
    chart_mark c = Some MarkPoint ->
    n ∈ index (chart_data c) ->
    n ∈ node_ids mixed_graph /\ n ∉ isolates mixed_graph.
Proof.
  intros a out.
  destruct (draw_networkx_spares_the_graph (H := demo_externals) 0%nat mixed_graph
              None None a [OGraph mixed_graph] eq_refl) as (_ & H1 & H2).
  split; [exact H1 | exact (H2 eq_refl eq_refl)].
Defined.

(** C3 as stated fails when a chart is drawn over: the node rows are then
    those of layer 1 of the chart (lines 274-276), not of the filtered copy.
    D is an orphan of the graph, the call with [show_orphans=False] over
    the chart returns, and the point layer of the result still has the row
    of D; the caller's graph is as it was. *)
Lemma orphan_stays_when_drawing_over_a_chart :
  let a := NetworkxArgs.with_filters true false NetworkxArgs.defaults in
  let out := draw_networkx (H := demo_externals) (Some 0%nat) None (Some 3%nat) a
               abd_store in
  LStr "D" ∈ isolates abd_graph /\
  out.1 = Ok 7%nat /\
  (exists lc c,
     out.2 !! 7%nat = Some (OLayerChart lc) /\ 6%nat ∈ layer_list lc /\
     out.2 !! 6%nat = Some (OChart c) /\ chart_mark c = Some MarkPoint /\
     LStr "D" ∈ index (chart_data c)) /\
  out.2 !! 0%nat = Some (OGraph abd_graph) /\
  ~ (forall r lc l c n,
       out.1 = Ok r -> out.2 !! r = Some (OLayerChart lc) ->
       l ∈ layer_list lc -> out.2 !! l = Some (OChart c) ->
       chart_mark c = Some MarkPoint ->
       n ∈ index (chart_data c) ->
       n ∉ isolates abd_graph).
Proof.
  intros a out.
  assert (HD : LStr "D" ∈ isolates abd_graph).
  { apply list_elem_of_In. vm_compute. tauto. }
  assert (Hout : out.1 = Ok 7%nat) by (vm_compute; reflexivity).
  assert (Hlayers : exists lc c,
     out.2 !! 7%nat = Some (OLayerChart lc) /\ 6%nat ∈ layer_list lc /\
     out.2 !! 6%nat = Some (OChart c) /\ chart_mark c = Some MarkPoint /\
     LStr "D" ∈ index (chart_data c)).
  { eexists _, _. split_and!.
    - vm_compute. reflexivity.
    - apply list_elem_of_In. simpl. tauto.
    - vm_compute. reflexivity.
    - reflexivity.
    - apply list_elem_of_In. simpl. tauto. }
  split_and!; [exact HD | exact Hout | exact Hlayers | by vm_compute |].
  intros Hall. destruct Hlayers as (lc & c & H7 & H6 & Hc & Hm & Hi).
  exact (Hall 7%nat lc 6%nat c (LStr "D") Hout H7 H6 Hc Hm Hi HD).
Qed.

(** That call returns: the chart has an edge layer and a node layer, and
    the node layer has the rows of A, B and C (which keeps its self-loop),
    not of the orphan D; the caller's graph still has its four nodes. *)
Example mixed_graph_without_orphans :
  let out := draw_networkx (H := demo_externals) (Some 0%nat) None None
               (NetworkxArgs.with_filters true false NetworkxArgs.defaults)
               [OGraph mixed_graph] in
  out.1 = Ok 6%nat /\
  (layer_list <$> (out.2 !! 6%nat ≫= fun o =>
     match o with OLayerChart lc => Some lc | _ => None end)) = Some [3; 5]%nat /\
  (index <$> (out.2 !! 5%nat ≫= fun o =>
     match o with OChart c => Some (chart_data c) | _ => None end))
  = Some [LStr "A"; LStr "B"; LStr "C"] /\
  out.2 !! 0%nat = Some (OGraph mixed_graph).
Proof. vm_compute. split_and!; reflexivity. Qed.

(** ** C2: the layers and rows of a drawn graph *)

Lemma omap_Ok {A B} (f : A -> outcome B) (l : list A) :
  (forall a, a ∈ l -> exists b, f a = Ok b) -> exists l', omap f l = Ok l'.
Proof.
  induction l as [|a l IH]; intros Hf; [by eexists|].
  destruct (Hf a) as [b Hb]; [by left|].
  destruct IH as [l' Hl']; [intros x Hx; apply Hf; by right|].
  exists (b :: l'). simpl. by rewrite Hb, Hl'.
Qed.

Lemma omap_length {A B} (f : A -> outcome B) (l : list A) (l' : list B) :
  omap f l = Ok l' -> length l' = length l.
Proof.
  revert l'. induction l as [|a l IH]; intros l'; simpl.
  - by intros [= <-].
  - destruct (f a) as [b|]; simpl; [|discriminate].
    destruct (omap f l) as [bs|]; simpl; [|discriminate].
    intros [= <-]. simpl. by rewrite (IH bs).
Qed.

Lemma omap_concat_length {A B} (k : nat) (f : A -> outcome (list B))
    (l : list A) (l' : list (list B)) :
  (forall a b, a ∈ l -> f a = Ok b -> length b = k) ->
  omap f l = Ok l' -> length (concat l') = (k * length l)%nat.
Proof.
  revert l'. induction l as [|a l IH]; intros l' Hk; simpl.
  - intros [= <-]. simpl. lia.
  - destruct (f a) as [b|] eqn:Eb; simpl; [|discriminate].
    destruct (omap f l) as [bs|] eqn:Ebs; simpl; [|discriminate].
    intros [= <-]. simpl. rewrite length_app.
    rewrite (Hk a b) by (done || by left).
    rewrite (IH bs) by (done || (intros x y Hx; apply Hk; by right)). lia.
Qed.

Lemma pos_lookup_Ok (pos : Pos) (n : label) :
  n ∈ pos.*1 -> exists xy, pos_lookup pos n = Ok xy.
Proof.
  intros Hn. unfold pos_lookup. apply list_elem_of_fmap in Hn as (kv & -> & Hkv).
  destruct (list_find (fun kv0 : label * point => kv0.1 = kv.1) pos) as [r|] eqn:E;
    [by eexists|].
  apply list_find_None in E. rewrite Forall_forall in E. by destruct (E kv Hkv).
Qed.

Lemma columns_from_records (cols : list string) (recs : list (label * attrs)) :
  columns (from_records cols recs) = cols.
Proof.
  unfold columns, from_records. simpl. rewrite <- list_fmap_compose.
  by rewrite <- (list_fmap_id cols) at 2.
Qed.

Lemma n_rows_from_records (cols : list string) (recs : list (label * attrs)) :
  n_rows (from_records cols recs) = length recs.
Proof. unfold n_rows, from_records. simpl. by rewrite length_fmap. Qed.

(** Every node and every end of an edge of [G] has a position in [pos]. *)
Lemma to_pandas_nodes_rows (G : Graph) (pos : Pos) :
  (forall n, n ∈ node_ids G -> n ∈ pos.*1) ->
  exists df, to_pandas_nodes G pos = Ok df /\
    n_rows df = length (nodes G) /\
    columns df = remove_dups (["node"; "x"; "y"] ++ attr_keys ((fun n => n.2) <$> nodes G)).
Proof.
  intros Hp. unfold to_pandas_nodes.
  match goal with
  | |- context [omap ?f (nodes G)] => destruct (omap_Ok f (nodes G)) as [recs E]
  end.
  { intros n Hn. destruct (pos_lookup_Ok pos n.1) as [xy Hxy].
    - apply Hp. unfold node_ids. apply list_elem_of_fmap. eauto.
    - rewrite Hxy. by eexists. }
  rewrite E. eexists. split; [reflexivity|]. split.
  - rewrite n_rows_from_records. by apply omap_length in E.
  - apply columns_from_records.
Qed.

Section projection_rows.
Context `{!Externals}.

(** Straight edges between distinct nodes: two rows per edge. *)
Lemma to_pandas_edges_rows (G : Graph) (pos : Pos) (loop_radius loop_angle : Q)
    (loop_n_points : nat) :
  (forall e, e ∈ edges G -> e.1.1 ∈ pos.*1 /\ e.1.2 ∈ pos.*1 /\ e.1.1 <> e.1.2) ->
  exists df,
    to_pandas_edges G pos None loop_radius loop_angle loop_n_points = Ok df /\
    n_rows df = (2 * length (edges G))%nat /\
    columns df = remove_dups (["edge"; "order"; "source"; "target"; "pair"; "x"; "y"]
                              ++ attr_keys ((fun e => e.2) <$> edges G)).
Proof.
  intros Hp. unfold to_pandas_edges.
  match goal with
  | |- context [omap ?f (edges G)] =>
      destruct (omap_Ok f (edges G)) as [recs E];
      [|pose proof (omap_concat_length 2 f (edges G) recs) as Hlen]
  end.
  { intros [[u v] a] He. destruct (Hp _ He) as (Hu & Hv & _). simpl in *.
    destruct (pos_lookup_Ok pos u Hu) as [xy1 ->].
    destruct (pos_lookup_Ok pos v Hv) as [xy2 ->]. by eexists. }
  rewrite E. eexists. split; [reflexivity|]. split.
  - rewrite n_rows_from_records, length_imap. apply Hlen; [|done].
    intros [[u v] a] b He Hb. destruct (Hp _ He) as (_ & _ & Hne). simpl in *.
    apply obind_Ok_inv in Hb as (src & _ & Hb).
    apply obind_Ok_inv in Hb as (dst & _ & [= <-]).
    rewrite length_imap. unfold edge_path.
    by rewrite bool_decide_eq_false_2.
  - apply columns_from_records.
Qed.

(** The arrows: two rows per edge. *)
Lemma to_pandas_edge_arrows_rows (G : Graph) (pos : Pos) (arrow_length : Q)
    (relative : bool) (control_points : option (list (Q * Q))) :
  (forall e, e ∈ edges G -> e.1.1 ∈ pos.*1 /\ e.1.2 ∈ pos.*1) ->
  exists df,
    to_pandas_edge_arrows G pos arrow_length relative control_points = Ok df /\
    n_rows df = (2 * length (edges G))%nat /\
    columns df = remove_dups (["edge"; "source"; "target"; "pair"; "x"; "y"]
                              ++ attr_keys ((fun e => e.2) <$> edges G)).
Proof.
  intros Hp. unfold to_pandas_edge_arrows.
  match goal with
  | |- context [omap ?f (edges G)] =>
      destruct (omap_Ok f (edges G)) as [recs E];
      [|pose proof (omap_concat_length 2 f (edges G) recs) as Hlen]
  end.
  { intros [[u v] a] He. destruct (Hp _ He) as (Hu & Hv). simpl in *.
    destruct (pos_lookup_Ok pos u Hu) as [xy1 ->].
    destruct (pos_lookup_Ok pos v Hv) as [xy2 ->]. by eexists. }
  rewrite E. eexists. split; [reflexivity|]. split.
  - rewrite n_rows_from_records, length_imap. apply Hlen; [|done].
    intros [[u v] a] b He Hb. simpl in *.
    apply obind_Ok_inv in Hb as (src & _ & Hb).
    apply obind_Ok_inv in Hb as (dst & _ & [= <-]). reflexivity.
  - apply columns_from_records.
Qed.
End projection_rows.

Lemma normalise_keys (pos : Pos) : (normalise pos).*1 = pos.*1.
Proof. unfold normalise. by rewrite <- list_fmap_compose. Qed.

(** With both sizes given and positive the rescaling succeeds and keeps the
    nodes. *)
Lemma scale_coordinates_keys (pos : Pos) (w h : Q) :
  pos <> [] -> (0 < w)%Q -> (0 < h)%Q ->
  exists pos', scale_coordinates pos (Some w) (Some h) = Ok (pos', w, h) /\
               pos'.*1 = pos.*1.
Proof.
  intros Hne Hw Hh.
  assert (Hw0 : ~ (w == 0)%Q) by (intros E; rewrite E in Hw; by apply Qlt_irrefl in Hw).
  assert (Hh0 : ~ (h == 0)%Q) by (intros E; rewrite E in Hh; by apply Qlt_irrefl in Hh).
  rewrite scale_coordinates_both by done.
  destruct (Qeq_bool w h) eqn:Ewh; [|destruct (Qle_bool h w) eqn:Ele].
  - unfold stretch. rewrite Ewh. eexists. split; [reflexivity|apply normalise_keys].
  - rewrite stretch_wide by done. eexists. split; [reflexivity|].
    rewrite <- list_fmap_compose. apply normalise_keys.
  - rewrite stretch_tall by done. eexists. split; [reflexivity|].
    rewrite <- list_fmap_compose. apply normalise_keys.
Qed.

Lemma drawn_succeeds projected select subset styling_of m attrs_of enc_of
    (σ : store) (df df' : DataFrame) (s : styling) :
  projected = Ok df -> restricted select subset df = Ok df' ->
  styling_of df' = Ok s ->
  exists r t c,
    drawn projected select subset styling_of m attrs_of enc_of σ = (Ok r, σ ++ t) /\
    (σ ++ t) !! r = Some (OChart c) /\
    chart_mark c = Some m /\ chart_data c = df' /\
    chart_encoding c = enc_of s ∪ ∅.
Proof.
  intros -> E2 E3. unfold drawn. rewrite E2, E3.
  eexists _, _,
    {| chart_data := df'; chart_mark := Some m; chart_mark_attrs := attrs_of s;
       chart_encoding := enc_of s ∪ ∅ |}.
  split; [reflexivity|]. split_and!; [|reflexivity..].
  rewrite lookup_app_r by lia.
  replace (S (length σ) - length σ)%nat with 1%nat by lia. reflexivity.
Qed.

(** The default styling never fails. *)
Lemma default_edges_styling (df : DataFrame) :
  exists s, edges_styling (NetworkxArgs.for_edges NetworkxArgs.defaults) df = Ok s /\
            encoded_attrs s !! "order" = None.
Proof.
  unfold edges_styling, line_colour. simpl. case_bool_decide; by eexists.
Qed.

Lemma default_arrows_styling (df : DataFrame) :
  exists s, arrows_styling (NetworkxArgs.for_arrows NetworkxArgs.defaults) df = Ok s /\
            encoded_attrs s !! "order" = None.
Proof.
  unfold arrows_styling, line_colour. simpl. case_bool_decide; by eexists.
Qed.

Lemma default_nodes_styling (df : DataFrame) :
  exists s, nodes_styling (NetworkxArgs.for_nodes NetworkxArgs.defaults) df = Ok s.
Proof.
  unfold nodes_styling, nodes_shape, column_or_constant. simpl.
  repeat case_bool_decide; by eexists.
Qed.

Section path.
Context `{!Externals}.

Lemma positions_layout g Gv (σ : store) :
  σ !! g = Some (OGraph Gv) ->
  positions (Some g) None σ = (Ok (kamada_kawai_layout Gv), σ).
Proof.
  intros Hg. unfold positions. by rewrite (bind_Ok _ _ _ _ _ (get_graph_Ok _ _ _ Hg)).
Qed.

(** C2, amended. The directed path A -> B -> C drawn with every argument at
    its default, the layout giving each node a position, yields a layered
    chart with exactly three layers, in this order: the edges (a line chart
    of 4 rows, ordered along each edge), the arrows (a line chart of 4
    rows) and the nodes (a point chart of 3 rows); there is no label
    layer.  The chart has the default size, 500 x 300. *)
Theorem path_graph_layers (g : loc) (σ : store) :
  σ !! g = Some (OGraph path_graph) ->
  (forall n, n ∈ node_ids path_graph -> n ∈ (kamada_kawai_layout path_graph).*1) ->
  exists r σ' e ar n ce ca cn,
    draw_networkx (Some g) None None NetworkxArgs.defaults σ = (Ok r, σ') /\
    σ' !! r = Some (OLayerChart {| layer_list := [e; ar; n];
                                   prop_width := Some 500%Q;
                                   prop_height := Some 300%Q |}) /\
    (σ' !! e = Some (OChart ce) /\ chart_mark ce = Some MarkLine /\
     n_rows (chart_data ce) = 4%nat /\
     chart_encoding ce !! "order" = Some (ChShorthand (PStr "order"))) /\
    (σ' !! ar = Some (OChart ca) /\ chart_mark ca = Some MarkLine /\
     n_rows (chart_data ca) = 4%nat /\
     chart_encoding ca !! "order" = None) /\
    (σ' !! n = Some (OChart cn) /\ chart_mark cn = Some MarkPoint /\
     n_rows (chart_data cn) = 3%nat) /\
    σ' !! g = Some (OGraph path_graph).
Proof.
  intros Hg Hlay.
  set (p := kamada_kawai_layout path_graph) in *.
  assert (Hne : p <> []).
  { intros Hp. specialize (Hlay (LStr "A")). rewrite Hp in Hlay.
    apply (elem_of_nil (LStr "A")), Hlay, list_elem_of_In. simpl. tauto. }
  destruct (scale_coordinates_keys p 500 300 Hne eq_refl eq_refl) as (p' & Hs & Hk).
  assert (Hcov : forall n, n ∈ node_ids path_graph -> n ∈ p'.*1)
    by (intros n Hn; rewrite Hk; by apply Hlay).
  assert (Hends : forall e, e ∈ edges path_graph ->
            e.1.1 ∈ p'.*1 /\ e.1.2 ∈ p'.*1 /\ e.1.1 <> e.1.2).
  { intros e He. apply list_elem_of_In in He. simpl in He.
    destruct He as [<-|[<-|[]]]; simpl; split_and!; try discriminate;
      apply Hcov, list_elem_of_In; simpl; tauto. }
  destruct (to_pandas_edges_rows path_graph p' (1 # 20) 90 30 Hends)
    as (dfe & Epe & Hre & _).
  destruct (to_pandas_edge_arrows_rows path_graph p' (1 # 10) true None)
    as (dfa & Epa & Hra & _); [intros e He; destruct (Hends e He); tauto|].
  destruct (to_pandas_nodes_rows path_graph p' Hcov) as (dfn & Epn & Hrn & _).
  destruct (default_edges_styling dfe) as (se & Ese & Hoe).
  destruct (default_arrows_styling dfa) as (sa & Esa & Hoa).
  destruct (default_nodes_styling dfn) as (sn & Esn).
  unfold draw_networkx.
  rewrite (bind_Ok _ _ _ _ _ (filter_copy_spec g path_graph true true σ Hg)).
  simpl andb. cbv iota.
  rewrite (bind_Ok _ _ _ _ _ (positions_layout g _ σ Hg)). fold p.
  unfold bind at 1, lift at 1. simpl NetworkxArgs.chart_width.
  simpl NetworkxArgs.chart_height. rewrite Hs.
  rewrite (bind_Ok _ _ _ _ _ (get_graph_Ok _ _ _ Hg)).
  (* the edges *)
  destruct (drawn_succeeds _ select_pairs PNone _ MarkLine marker_attrs
              (fun s => with_axes (Some "")
                 (<["detail" := ChShorthand (PStr "edge")]>
                    (<["order" := ChShorthand (PStr "order")]> (encoded_attrs s))))
              σ dfe dfe se Epe eq_refl Ese)
    as (e & t1 & ce & Ee & Hce & Hme & Hde & Hee).
  assert (Ee' : draw_networkx_edges (Some g) (Some p') None None
                  (NetworkxArgs.for_edges NetworkxArgs.defaults) σ
                = (Ok e, σ ++ t1))
    by (rewrite (draw_networkx_edges_on_graph g p' _ σ path_graph Hg); exact Ee).
  (* the arrows *)
  assert (Hg1 : (σ ++ t1) !! g = Some (OGraph path_graph))
    by (by apply lookup_app_l_Some).
  destruct (drawn_succeeds _ select_pairs PNone _ MarkLine marker_attrs
              (fun s => with_axes None
                 (<["detail" := ChShorthand (PStr "edge")]> (encoded_attrs s)))
              (σ ++ t1) dfa dfa sa Epa eq_refl Esa)
    as (ar & t2 & ca & Ea & Hca & Hma & Hda & Hea).
  assert (Ea' : draw_networkx_arrows (Some g) (Some p') None None
                  (NetworkxArgs.for_arrows NetworkxArgs.defaults) (σ ++ t1)
                = (Ok ar, (σ ++ t1) ++ t2))
    by (rewrite (draw_networkx_arrows_on_graph g p' _ _ path_graph Hg1); exact Ea).
  (* the nodes *)
  assert (Hg2 : ((σ ++ t1) ++ t2) !! g = Some (OGraph path_graph))
    by (by apply lookup_app_l_Some).
  destruct (drawn_succeeds _ loc_labels PNone _ MarkPoint marker_attrs
              (fun s => with_axes None (encoded_attrs s))
              ((σ ++ t1) ++ t2) dfn dfn sn Epn eq_refl Esn)
    as (n & t3 & cn & En & Hcn & Hmn & Hdn & _).
  assert (En' : draw_networkx_nodes (Some g) (Some p') None None
                  (NetworkxArgs.for_nodes NetworkxArgs.defaults) ((σ ++ t1) ++ t2)
                = (Ok n, ((σ ++ t1) ++ t2) ++ t3))
    by (rewrite (draw_networkx_nodes_on_graph g p' _ _ path_graph Hg2); exact En).
  unfold edge_layers, node_layers. simpl edges. simpl nodes. simpl directed.
  cbv iota.
  rewrite !bind_assoc.
  rewrite (bind_Ok _ _ _ _ _ Ee'). rewrite ?bind_assoc.
  rewrite (bind_Ok _ _ _ _ _ Ea'). rewrite ?bind_assoc, ?bind_ret.
  rewrite ?bind_assoc.
  rewrite (bind_Ok _ _ _ _ _ En'). simpl truthy. cbv iota. rewrite !bind_ret.
  simpl app. unfold alloc.
  eexists _, _, e, ar, n, ce, ca, cn. split; [reflexivity|].
  split_and!.
  - apply alloc_lookup.
  - by do 3 apply lookup_app_l_Some.
  - done.
  - by rewrite Hde.
  - rewrite Hee. apply lookup_union_Some_l. unfold with_axes.
    rewrite !lookup_insert_ne by done. apply lookup_insert_eq.
  - by do 2 apply lookup_app_l_Some.
  - done.
  - by rewrite Hda.
  - rewrite Hea. apply lookup_union_None. split; [|apply lookup_empty].
    unfold with_axes. by rewrite !lookup_insert_ne by done.
  - by apply lookup_app_l_Some.
  - done.
  - by rewrite Hdn.
  - by do 4 apply lookup_app_l_Some.
Qed.
End path.

(** The path drawn with the demonstration layout. *)
Lemma path_graph_layers_witness :
  exists r σ' e ar n ce ca cn,
    draw_networkx (H := demo_externals) (Some 0%nat) None None
      NetworkxArgs.defaults [OGraph path_graph] = (Ok r, σ') /\
    σ' !! r = Some (OLayerChart {| layer_list := [e; ar; n];
                                   prop_width := Some 500%Q;
                                   prop_height := Some 300%Q |}) /\
    (σ' !! e = Some (OChart ce) /\ chart_mark ce = Some MarkLine /\
     n_rows (chart_data ce) = 4%nat /\
     chart_encoding ce !! "order" = Some (ChShorthand (PStr "order"))) /\
    (σ' !! ar = Some (OChart ca) /\ chart_mark ca = Some MarkLine /\
     n_rows (chart_data ca) = 4%nat /\
     chart_encoding ca !! "order" = None) /\
    (σ' !! n = Some (OChart cn) /\ chart_mark cn = Some MarkPoint /\
     n_rows (chart_data cn) = 3%nat) /\
    σ' !! 0%nat = Some (OGraph path_graph).
Proof.
  apply (path_graph_layers (H := demo_externals) 0%nat [OGraph path_graph] eq_refl).
  intros n Hn. exact Hn.
Defined.

(** C2 as stated fails on the number of layers: the chart returned for the
    path has three layers, not four. *)
Lemma path_graph_has_three_layers :
  exists lc,
    let out := draw_networkx (H := demo_externals) (Some 0%nat) None None
                 NetworkxArgs.defaults [OGraph path_graph] in
    out.1 = Ok 7%nat /\ out.2 !! 7%nat = Some (OLayerChart lc) /\
    layer_list lc = [2; 4; 6]%nat /\ length (layer_list lc) <> 4%nat.
Proof.
  eexists. vm_compute. split_and!; [reflexivity | reflexivity | reflexivity | discriminate].
Qed.

(** * Further properties of the drawing functions *)

(** ** The rescaling, node by node *)

Lemma Forall2_fmap_same {A B C} (R : B -> C -> Prop) (f : A -> B) (g : A -> C)
    (l : list A) :
  (forall a, a ∈ l -> R (f a) (g a)) -> Forall2 R (f <$> l) (g <$> l).
Proof.
  induction l as [|a l IH]; intros H; [constructor|].
  rewrite !fmap_cons. constructor; [apply H; by left|].
  apply IH. intros x Hx. apply H. by right.
Qed.

Lemma stretch_x_square (w h : Q) : (0 < h)%Q -> (w == h)%Q -> (stretch_x w h == 1)%Q.
Proof.
  intros Hh E. unfold stretch_x.
  destruct (Qle_bool h w); [|reflexivity]. rewrite E. field.
  intros E0. rewrite E0 in Hh. by apply Qlt_irrefl in Hh.
Qed.

Lemma stretch_y_square (w h : Q) : (0 < h)%Q -> (w == h)%Q -> (stretch_y w h == 1)%Q.
Proof.
  intros Hh E. unfold stretch_y.
  destruct (Qle_bool h w); [reflexivity|]. rewrite E. field.
  intros E0. rewrite E0 in Hh. by apply Qlt_irrefl in Hh.
Qed.

Lemma stretch_normalise_rescaled (pos : Pos) (w h : Q) :
  (0 < w)%Q -> (0 < h)%Q ->
  exists pos', stretch (normalise pos) w h = Ok pos' /\
               Forall2 same_place pos' (rescaled pos w h).
Proof.
  intros Hw Hh.
  assert (Hw0 : ~ (w == 0)%Q) by lra.
  assert (Hh0 : ~ (h == 0)%Q) by lra.
  destruct (Qeq_bool w h) eqn:Ewh; [|destruct (Qle_bool h w) eqn:Ele].
  - apply Qeq_bool_iff in Ewh. unfold stretch at 1.
    rewrite (proj2 (Qeq_bool_iff w h) Ewh). eexists. split; [reflexivity|].
    unfold normalise, rescaled. apply Forall2_fmap_same. intros kv _.
    unfold same_place, unit_coordinate. simpl.
    rewrite (stretch_x_square w h Hh Ewh), (stretch_y_square w h Hh Ewh).
    split_and!; [done| |]; ring.
  - rewrite stretch_wide by done. eexists. split; [reflexivity|].
    unfold normalise, rescaled. rewrite <- list_fmap_compose.
    apply Forall2_fmap_same. intros kv _.
    unfold same_place, unit_coordinate, stretch_x, stretch_y. simpl. rewrite Ele.
    split_and!; [done| |]; field; done.
  - rewrite stretch_tall by done. eexists. split; [reflexivity|].
    unfold normalise, rescaled. rewrite <- list_fmap_compose.
    apply Forall2_fmap_same. intros kv _.
    unfold same_place, unit_coordinate, stretch_x, stretch_y. simpl. rewrite Ele.
    split_and!; [done| |]; field; done.
Qed.

(** X1. The coordinates [draw_networkx] draws with, in one formula: with both
    sizes given and positive the rescaling of lines 537-545 succeeds on any
    positions, keeps every node, and puts node by node the x coordinate at
    its normalised value times [stretch_x] and the y coordinate at its
    normalised value times [stretch_y]; an axis without extent is put
    at 0. *)
Theorem rescaling_in_closed_form (pos : Pos) (w h : Q) :
  pos <> [] -> (0 < w)%Q -> (0 < h)%Q ->
  exists pos', scale_coordinates pos (Some w) (Some h) = Ok (pos', w, h) /\
               Forall2 same_place pos' (rescaled pos w h).
Proof.
  intros Hne Hw Hh. rewrite scale_coordinates_both by done.
  destruct (stretch_normalise_rescaled pos w h Hw Hh) as (pos' & -> & F).
  by exists pos'.
Qed.

Lemma rescaling_in_closed_form_witness :
  exists pos', scale_coordinates tall_pos (Some 500%Q) (Some 300%Q)
               = Ok (pos', 500%Q, 300%Q) /\
               Forall2 same_place pos' (rescaled tall_pos 500 300).
Proof.
  apply rescaling_in_closed_form; [discriminate | reflexivity | reflexivity].
Defined.

(** ** Bounds of the rescaled coordinates *)

Lemma py_max_ge_start (x : Q) (xs : list Q) : (x <= py_max x xs)%Q.
Proof.
  revert x. induction xs as [|a xs IH]; intros x; simpl; [lra|].
  destruct (Qle_bool a x) eqn:E; [apply IH|].
  eapply Qle_trans; [|apply IH].
  destruct (Qlt_le_dec x a) as [Hlt|Hle]; [lra|].
  apply Qle_bool_iff in Hle. congruence.
Qed.

Lemma py_min_le_start (x : Q) (xs : list Q) : (py_min x xs <= x)%Q.
Proof.
  revert x. induction xs as [|a xs IH]; intros x; simpl; [lra|].
  destruct (Qle_bool x a) eqn:E; [apply IH|].
  eapply Qle_trans; [apply IH|].
  destruct (Qlt_le_dec a x) as [Hlt|Hle]; [lra|].
  apply Qle_bool_iff in Hle. congruence.
Qed.

Lemma py_max_ge (x : Q) (xs : list Q) (y : Q) : y ∈ xs -> (y <= py_max x xs)%Q.
Proof.
  revert x. induction xs as [|a xs IH]; intros x Hy; [by apply elem_of_nil in Hy|].
  apply elem_of_cons in Hy as [->|Hy]; simpl; [|by apply IH].
  eapply Qle_trans; [|apply py_max_ge_start].
  destruct (Qle_bool a x) eqn:E; [by apply Qle_bool_iff in E | lra].
Qed.

Lemma py_min_le (x : Q) (xs : list Q) (y : Q) : y ∈ xs -> (py_min x xs <= y)%Q.
Proof.
  revert x. induction xs as [|a xs IH]; intros x Hy; [by apply elem_of_nil in Hy|].
  apply elem_of_cons in Hy as [->|Hy]; simpl; [|by apply IH].
  eapply Qle_trans; [apply py_min_le_start|].
  destruct (Qle_bool x a) eqn:E; [by apply Qle_bool_iff in E | lra].
Qed.

Lemma max_of_ge (l : list Q) (y : Q) : y ∈ l -> (y <= max_of l)%Q.
Proof.
  destruct l as [|x xs]; intros Hy; [by apply elem_of_nil in Hy|].
  apply elem_of_cons in Hy as [->|Hy]; simpl;
    [apply py_max_ge_start | by apply py_max_ge].
Qed.

Lemma min_of_le (l : list Q) (y : Q) : y ∈ l -> (min_of l <= y)%Q.
Proof.
  destruct l as [|x xs]; intros Hy; [by apply elem_of_nil in Hy|].
  apply elem_of_cons in Hy as [->|Hy]; simpl;
    [apply py_min_le_start | by apply py_min_le].
Qed.

Lemma unit_coordinate_bounds (l : list Q) (x : Q) :
  x ∈ l ->
  (0 <= unit_coordinate (max_of l - min_of l) (min_of l) x <= 1)%Q.
Proof.
  intros Hx. unfold unit_coordinate.
  destruct (Qeq_bool (max_of l - min_of l) 0) eqn:E; [lra|].
  assert (Hr : (0 < max_of l - min_of l)%Q).
  { apply range_positive. intros E0. apply Qeq_bool_iff in E0. congruence. }
  pose proof (max_of_ge l x Hx). pose proof (min_of_le l x Hx).
  split.
  - apply Qle_shift_div_l; [done|lra].
  - apply Qle_shift_div_r; [done|lra].
Qed.

Lemma stretch_x_ge_1 (w h : Q) : (0 < h)%Q -> (1 <= stretch_x w h)%Q.
Proof.
  intros Hh. unfold stretch_x. destruct (Qle_bool h w) eqn:E; [|lra].
  apply Qle_bool_iff in E. apply Qle_shift_div_l; [done|lra].
Qed.

Lemma stretch_y_ge_1 (w h : Q) : (0 < w)%Q -> (1 <= stretch_y w h)%Q.
Proof.
  intros Hw. unfold stretch_y. destruct (Qle_bool h w) eqn:E; [lra|].
  apply Qle_shift_div_l; [done|].
  destruct (Qlt_le_dec w h) as [Hlt|Hle]; [lra|].
  apply Qle_bool_iff in Hle. congruence.
Qed.

Lemma scaled_bounds (u k : Q) : (0 <= u <= 1)%Q -> (1 <= k)%Q -> (0 <= u * k <= k)%Q.
Proof. intros [H0 H1] Hk. split; nra. Qed.

Lemma Forall2_Forall_r {A B} (R : A -> B -> Prop) (P : A -> Prop) (Q : B -> Prop)
    (l : list A) (l' : list B) :
  Forall2 R l l' -> Forall Q l' -> (forall a b, R a b -> Q b -> P a) -> Forall P l.
Proof.
  intros HR. induction HR as [|a b l l' Hab _ IH]; intros HQ HP; [constructor|].
  apply Forall_cons in HQ as [Hb HQ]. constructor; [by eapply HP | by apply IH].
Qed.

(** X2. The drawn coordinates stay in a box anchored at the origin: with
    both sizes given and positive, every x coordinate [draw_networkx] draws
    with lies between 0 and [stretch_x] (the larger of 1 and w/h) and every
    y coordinate between 0 and [stretch_y] (the larger of 1 and h/w),
    whatever the positions passed in. *)
Theorem rescaled_coordinates_in_box (pos pos' : Pos) (w h : Q) :
  (0 < w)%Q -> (0 < h)%Q ->
  scale_coordinates pos (Some w) (Some h) = Ok (pos', w, h) ->
  Forall (fun kv : label * point =>
            (0 <= kv.2.1 <= stretch_x w h)%Q /\ (0 <= kv.2.2 <= stretch_y w h)%Q) pos'.
Proof.
  intros Hw Hh E.
  assert (Hne : pos <> []) by (intros ->; discriminate).
  rewrite scale_coordinates_both in E by done.
  destruct (stretch_normalise_rescaled pos w h Hw Hh) as (p & Ep & F).
  rewrite Ep in E. simpl in E. simplify_eq.
  eapply Forall2_Forall_r; [exact F | |].
  - unfold rescaled. apply Forall_fmap, Forall_forall. intros kv Hkv. simpl.
    instantiate (1 := fun kv : label * point =>
      (0 <= kv.2.1 <= stretch_x w h)%Q /\ (0 <= kv.2.2 <= stretch_y w h)%Q).
    simpl. split; apply scaled_bounds;
      try (apply stretch_x_ge_1; done); try (apply stretch_y_ge_1; done).
    + apply (unit_coordinate_bounds (pos_xs pos)).
      unfold pos_xs. apply list_elem_of_fmap. by exists kv.
    + apply (unit_coordinate_bounds (pos_ys pos)).
      unfold pos_ys. apply list_elem_of_fmap. by exists kv.
  - intros a b (_ & Hx & Hy) [Hbx Hby]. simpl in *. rewrite Hx, Hy. done.
Qed.

Lemma rescaled_coordinates_in_box_witness :
  exists pos',
    scale_coordinates tall_pos (Some 500%Q) (Some 300%Q) = Ok (pos', 500%Q, 300%Q) /\
    Forall (fun kv : label * point =>
              (0 <= kv.2.1 <= stretch_x 500 300)%Q /\
              (0 <= kv.2.2 <= stretch_y 500 300)%Q) pos'.
Proof.
  eexists. split; [vm_compute; reflexivity|].
  apply (rescaled_coordinates_in_box tall_pos); [reflexivity | reflexivity |].
  vm_compute. reflexivity.
Defined.

(** ** What the rescaling does not depend on *)

#[local] Instance same_place_equivalence : Equivalence same_place.
Proof.
  split.
  - intros a. by split_and!.
  - intros a b (H1 & H2 & H3). split_and!; by symmetry.
  - intros a b c (H1 & H2 & H3) (H4 & H5 & H6).
    split_and!; [congruence | by rewrite H2 | by rewrite H3].
Qed.

Lemma Qeq_bool_ext (a b c d : Q) :
  ((a == b)%Q <-> (c == d)%Q) -> Qeq_bool a b = Qeq_bool c d.
Proof.
  intros H. destruct (Qeq_bool a b) eqn:E1, (Qeq_bool c d) eqn:E2; try done.
  - apply Qeq_bool_iff, H, Qeq_bool_iff in E1. congruence.
  - apply Qeq_bool_iff, H, Qeq_bool_iff in E2. congruence.
Qed.

Lemma affine_keeps_order (k d a b : Q) :
  (0 < k)%Q -> Qle_bool (k * a + d) (k * b + d) = Qle_bool a b.
Proof.
  intros Hk. apply Qle_bool_ext. split; intros H; nra.
Qed.

Lemma unit_coordinate_affine (k d M m x : Q) :
  (0 < k)%Q ->
  (unit_coordinate (k * M + d - (k * m + d)) (k * m + d) (k * x + d)
   == unit_coordinate (M - m) m x)%Q.
Proof.
  intros Hk. unfold unit_coordinate.
  rewrite (Qeq_bool_ext _ 0 (M - m) 0) by (split; intros H; nra).
  destruct (Qeq_bool (M - m) 0) eqn:E; [reflexivity|].
  assert (Hr : ~ (M - m == 0)%Q).
  { intros E0. apply Qeq_bool_iff in E0. congruence. }
  field. split; [done|]. intros E0.
  assert (E1 : (k * (M - m) == 0)%Q) by lra.
  apply Qmult_integral in E1 as [E1|E1]; [lra|done].
Qed.

(** X3. What is drawn does not depend on the units or the origin of the
    positions: with both sizes given, positions whose x and y coordinates
    were multiplied by positive factors and shifted are rescaled to the same
    coordinates as the original ones.  In particular the proportions of the
    layout passed in are not kept. *)
Theorem rescaling_forgets_units_and_origin (pos : Pos) (kx dx ky dy w h : Q) :
  pos <> [] -> (0 < kx)%Q -> (0 < ky)%Q -> (0 < w)%Q -> (0 < h)%Q ->
  exists p1 p2,
    scale_coordinates (moved kx dx ky dy pos) (Some w) (Some h) = Ok (p1, w, h) /\
    scale_coordinates pos (Some w) (Some h) = Ok (p2, w, h) /\
    Forall2 same_place p1 p2.
Proof.
  intros Hne Hkx Hky Hw Hh.
  assert (Hne' : moved kx dx ky dy pos <> []).
  { destruct pos; [done|discriminate]. }
  rewrite !scale_coordinates_both by done.
  destruct (stretch_normalise_rescaled (moved kx dx ky dy pos) w h Hw Hh)
    as (p1 & -> & F1).
  destruct (stretch_normalise_rescaled pos w h Hw Hh) as (p2 & -> & F2).
  exists p1, p2. split_and!; [done..|].
  etrans; [exact F1|]. etrans; [|symmetry; exact F2].
  assert (Xs : pos_xs (moved kx dx ky dy pos) = (fun x => kx * x + dx)%Q <$> pos_xs pos).
  { unfold pos_xs, moved. rewrite <- !list_fmap_compose. done. }
  assert (Ys : pos_ys (moved kx dx ky dy pos) = (fun y => ky * y + dy)%Q <$> pos_ys pos).
  { unfold pos_ys, moved. rewrite <- !list_fmap_compose. done. }
  assert (Hxs : pos_xs pos <> []) by (destruct pos; [done|discriminate]).
  assert (Hys : pos_ys pos <> []) by (destruct pos; [done|discriminate]).
  unfold rescaled, x_range, y_range. rewrite Xs, Ys.
  rewrite !(max_of_map (fun x => kx * x + dx)%Q), !(min_of_map (fun x => kx * x + dx)%Q),
    !(max_of_map (fun y => ky * y + dy)%Q), !(min_of_map (fun y => ky * y + dy)%Q)
    by (done || (intros; by apply affine_keeps_order)).
  unfold moved. rewrite <- list_fmap_compose.
  apply Forall2_fmap_same. intros kv _.
  unfold same_place. simpl. split_and!; [done| |].
  - by rewrite unit_coordinate_affine.
  - by rewrite unit_coordinate_affine.
Qed.

Lemma rescaling_forgets_units_and_origin_witness :
  exists p1 p2,
    scale_coordinates (moved 2 7 (1 # 10) (-3) tall_pos) (Some 500%Q) (Some 300%Q)
    = Ok (p1, 500%Q, 300%Q) /\
    scale_coordinates tall_pos (Some 500%Q) (Some 300%Q) = Ok (p2, 500%Q, 300%Q) /\
    Forall2 same_place p1 p2.
Proof.
  apply rescaling_forgets_units_and_origin; [discriminate | reflexivity..].
Defined.

(** ** A size left to [None] *)

Lemma Qeq_bool_true (a b : Q) : (a == b)%Q -> Qeq_bool a b = true.
Proof. apply Qeq_bool_iff. Qed.

Lemma Qle_bool_false (a b : Q) : (b < a)%Q -> Qle_bool a b = false.
Proof.
  intros H. destruct (Qle_bool a b) eqn:E; [|done].
  apply Qle_bool_iff in E. lra.
Qed.

Lemma rescaled_to_scale (pos : Pos) (w h : Q) :
  (0 < x_range pos)%Q -> (0 < y_range pos)%Q -> (0 < h)%Q ->
  (w == h * x_range pos / y_range pos)%Q ->
  Forall2 same_place (rescaled pos w h) (to_scale pos).
Proof.
  intros Hx Hy Hh Ew. unfold rescaled, to_scale. apply Forall2_fmap_same. intros kv _.
  unfold same_place, unit_coordinate, stretch_x, stretch_y. simpl.
  rewrite !Qeq_bool_false by lra.
  assert (Hq : (w * y_range pos == h * x_range pos)%Q).
  { rewrite Ew. field. lra. }
  assert (Ele : Qle_bool h w = Qle_bool (y_range pos) (x_range pos)).
  { apply Qle_bool_ext. split; intros H; nra. }
  rewrite Ele. destruct (Qle_bool (y_range pos) (x_range pos)).
  - split_and!; [done| |]; [rewrite Ew|]; field; lra.
  - assert (Hw : (0 < w)%Q) by nra.
    split_and!; [done| |].
    + field; lra.
    + transitivity ((kv.2.2 - min_of (pos_ys pos)) * h / (w * y_range pos))%Q;
        [field; lra|]. rewrite Hq. field. lra.
Qed.

(** X4. With one of the two sizes left to [None] the layout keeps its
    proportions: the missing size is the given one times the ratio of the
    extents (lines 539-540), and the positions are brought to the origin and
    divided, on both axes alike, by the smaller of the two extents, so that
    the shorter side of the layout has length 1. *)
Theorem missing_size_keeps_proportions (pos : Pos) (s : Q) :
  pos <> [] -> ~ (x_range pos == 0)%Q -> ~ (y_range pos == 0)%Q -> (0 < s)%Q ->
  (exists pos',
     scale_coordinates pos None (Some s)
     = Ok (pos', (s * x_range pos / y_range pos)%Q, s) /\
     Forall2 same_place pos' (to_scale pos)) /\
  (exists pos',
     scale_coordinates pos (Some s) None
     = Ok (pos', s, (s * y_range pos / x_range pos)%Q) /\
     Forall2 same_place pos' (to_scale pos)).
Proof.
  intros Hne Hx Hy Hs.
  assert (Hxp : (0 < x_range pos)%Q) by (by apply range_positive).
  assert (Hyp : (0 < y_range pos)%Q) by (by apply range_positive).
  split.
  - set (w := (s * x_range pos / y_range pos)%Q).
    assert (Hw : (0 < w)%Q).
    { unfold w. apply Qlt_shift_div_l; [done|]. nra. }
    destruct (stretch_normalise_rescaled pos w s Hw Hs) as (p & Ep & F).
    exists p. split.
    + unfold scale_coordinates, resolve_size. destruct pos; [done|].
      rewrite py_div_nonzero by done. simpl. fold w. rewrite Ep. done.
    + etrans; [exact F|]. apply rescaled_to_scale; try done.
  - set (h := (s * y_range pos / x_range pos)%Q).
    assert (Hh : (0 < h)%Q).
    { unfold h. apply Qlt_shift_div_l; [done|]. nra. }
    destruct (stretch_normalise_rescaled pos s h Hs Hh) as (p & Ep & F).
    exists p. split.
    + unfold scale_coordinates, resolve_size. destruct pos; [done|].
      rewrite py_div_nonzero by done. simpl. fold h. rewrite Ep. done.
    + etrans; [exact F|]. apply rescaled_to_scale; try done. unfold h. field. split; lra.
Qed.

Lemma missing_size_keeps_proportions_witness :
  (exists pos',
     scale_coordinates tall_pos None (Some 300%Q)
     = Ok (pos', (300 * x_range tall_pos / y_range tall_pos)%Q, 300%Q) /\
     Forall2 same_place pos' (to_scale tall_pos)) /\
  (exists pos',
     scale_coordinates tall_pos (Some 300%Q) None
     = Ok (pos', 300%Q, (300 * y_range tall_pos / x_range tall_pos)%Q) /\
     Forall2 same_place pos' (to_scale tall_pos)).
Proof.
  apply missing_size_keeps_proportions; [discriminate | | | reflexivity];
    vm_compute; discriminate.
Defined.

(** X5. An axis on which all the nodes coincide is no obstacle when both
    sizes are given: the guard of line 543 puts every node at 0 on that axis
    instead of dividing by the zero extent; a single node is drawn at the
    origin. *)
Theorem flat_axis_is_drawn_at_zero (pos : Pos) (w h : Q) :
  pos <> [] -> (0 < w)%Q -> (0 < h)%Q ->
  exists pos',
    scale_coordinates pos (Some w) (Some h) = Ok (pos', w, h) /\
    ((x_range pos == 0)%Q -> Forall (fun kv : label * point => (kv.2.1 == 0)%Q) pos') /\
    ((y_range pos == 0)%Q -> Forall (fun kv : label * point => (kv.2.2 == 0)%Q) pos').
Proof.
  intros Hne Hw Hh. rewrite scale_coordinates_both by done.
  destruct (stretch_normalise_rescaled pos w h Hw Hh) as (p & -> & F).
  exists p. split; [done|]. split; intros E0.
  - eapply Forall2_Forall_r; [exact F | |].
    + unfold rescaled. apply Forall_fmap, Forall_forall. intros kv _. simpl.
      instantiate (1 := fun kv : label * point => (kv.2.1 == 0)%Q). simpl.
      unfold unit_coordinate. rewrite (Qeq_bool_true _ _ E0). ring.
    + intros a b (_ & Hx & _) Hb. simpl in *. by rewrite Hx.
  - eapply Forall2_Forall_r; [exact F | |].
    + unfold rescaled. apply Forall_fmap, Forall_forall. intros kv _. simpl.
      instantiate (1 := fun kv : label * point => (kv.2.2 == 0)%Q). simpl.
      unfold unit_coordinate. rewrite (Qeq_bool_true _ _ E0). ring.
    + intros a b (_ & _ & Hy) Hb. simpl in *. by rewrite Hy.
Qed.

Lemma flat_axis_is_drawn_at_zero_witness :
  exists pos',
    scale_coordinates upright_pos (Some 500%Q) (Some 300%Q) = Ok (pos', 500%Q, 300%Q) /\
    ((x_range upright_pos == 0)%Q ->
     Forall (fun kv : label * point => (kv.2.1 == 0)%Q) pos') /\
    ((y_range upright_pos == 0)%Q ->
     Forall (fun kv : label * point => (kv.2.2 == 0)%Q) pos').
Proof.
  apply flat_axis_is_drawn_at_zero; [discriminate | reflexivity | reflexivity].
Defined.

(** ** [draw_networkx]: refusals *)

Section whole_graph_refusals.
Context `{!Externals}.

(** X6. [chart_width] and [chart_height] cannot both be [None]: whatever the
    graph, the positions and the chart, the call raises [ValueError] (line
    535) before anything is drawn; the store holds at most the filtered copy
    of the graph in addition. *)
Theorem sizes_cannot_both_be_missing (g : loc) (G : Graph) (pos : option Pos)
    (chart : option loc) (a : NetworkxArgs.t) (σ : store) :
  σ !! g = Some (OGraph G) ->
  NetworkxArgs.chart_width a = None -> NetworkxArgs.chart_height a = None ->
  draw_networkx (Some g) pos chart a σ
  = (Raise ValueError,
     if NetworkxArgs.show_self_loops a && NetworkxArgs.show_orphans a then σ
     else σ ++ [OGraph (filtered (NetworkxArgs.show_self_loops a)
                          (NetworkxArgs.show_orphans a) G)]).
Proof.
  intros Hg Hw Hh. unfold draw_networkx.
  pose proof (filter_copy_spec g G (NetworkxArgs.show_self_loops a)
                (NetworkxArgs.show_orphans a) σ Hg) as Hf.
  rewrite Hw, Hh.
  destruct (NetworkxArgs.show_self_loops a && NetworkxArgs.show_orphans a).
  - rewrite (bind_Ok _ _ _ _ _ Hf).
    destruct (positions_Ok g G pos σ Hg) as [p Hp].
    rewrite (bind_Ok _ _ _ _ _ Hp). done.
  - rewrite (bind_Ok _ _ _ _ _ Hf).
    edestruct (positions_Ok (length σ)) as [p Hp]; [apply alloc_lookup|].
    rewrite (bind_Ok _ _ _ _ _ Hp). done.
Qed.

(** X7. [draw_networkx] cannot draw from a chart alone: with [G] left to
    [None] every call raises, whatever the positions, the chart and the
    other arguments, and the store is left as it was. *)
Theorem draw_networkx_needs_a_graph (pos : option Pos) (chart : option loc)
    (a : NetworkxArgs.t) (σ : store) :
  exists e, draw_networkx None pos chart a σ = (Raise e, σ).
Proof.
  unfold draw_networkx, filter_copy.
  destruct (negb (NetworkxArgs.show_self_loops a && NetworkxArgs.show_orphans a));
    [by eexists|].
  rewrite bind_ret. unfold positions.
  destruct pos as [[|kv rest]|]; try by eexists.
  rewrite bind_ret. unfold bind at 1, lift.
  destruct (scale_coordinates _ _ _) as [[[p w] h]|e]; [|by eexists].
  by eexists.
Qed.
End whole_graph_refusals.

Lemma sizes_cannot_both_be_missing_witness :
  draw_networkx (H := demo_externals) (Some 0%nat) None None
    (with_sizes None None NetworkxArgs.defaults) [OGraph path_graph]
  = (Raise ValueError, [OGraph path_graph]).
Proof.
  apply (sizes_cannot_both_be_missing (H := demo_externals)
           0%nat path_graph None None
           (with_sizes None None NetworkxArgs.defaults) [OGraph path_graph]);
    reflexivity.
Defined.

(** ** [draw_networkx]: the layers of the result *)

Lemma extends_refl (σ : store) : extends σ σ.
Proof. exists []. by rewrite app_nil_r. Qed.

Lemma extends_trans (σ1 σ2 σ3 : store) : extends σ1 σ2 -> extends σ2 σ3 -> extends σ1 σ3.
Proof. intros [t1 ->] [t2 ->]. exists (t1 ++ t2). by rewrite app_assoc. Qed.

Lemma extends_lookup (σ σ' : store) (l : loc) (o : obj) :
  extends σ σ' -> σ !! l = Some o -> σ' !! l = Some o.
Proof. intros [t ->] Hl. by apply lookup_app_l_Some. Qed.

Lemma mark_at_extends (σ σ' : store) (l : loc) (m : mark_type) :
  extends σ σ' -> mark_at σ l = Some m -> mark_at σ' l = Some m.
Proof.
  intros Hext. unfold mark_at. destruct (σ !! l) as [o|] eqn:E; [|done].
  by rewrite (extends_lookup _ _ _ _ Hext E).
Qed.

Lemma drawn_extends projected select subset styling_of m attrs_of enc_of (σ : store) :
  extends σ (drawn projected select subset styling_of m attrs_of enc_of σ).2.
Proof.
  unfold drawn. destruct projected as [df|e]; [|apply extends_refl].
  destruct (restricted select subset df) as [df'|e]; [|by eexists].
  destruct (styling_of df') as [s|e]; by eexists.
Qed.

Lemma drawn_mark projected select subset styling_of m attrs_of enc_of
    (σ σ' : store) (r : loc) :
  drawn projected select subset styling_of m attrs_of enc_of σ = (Ok r, σ') ->
  extends σ σ' /\ mark_at σ' r = Some m.
Proof.
  intros E. apply drawn_layer in E as (df & df' & c & t & _ & _ & -> & Hc & Hm & _).
  split; [by exists t|]. unfold mark_at. by rewrite Hc.
Qed.

Section layers.
Context `{!Externals}.

Lemma edge_layers_extends g Gv pos a σ :
  σ !! g = Some (OGraph Gv) ->
  extends σ (edge_layers (Some g) Gv pos None a σ).2.
Proof.
  intros Hg. unfold edge_layers. destruct (edges Gv); [apply extends_refl|].
  unfold bind at 1. rewrite (draw_networkx_edges_on_graph _ _ _ _ _ Hg).
  pose proof (drawn_extends
    (to_pandas_edges Gv pos
       (effective_control_points (EdgesArgs.curved_edges (NetworkxArgs.for_edges a))
          (EdgesArgs.control_points (NetworkxArgs.for_edges a)))
       (EdgesArgs.loop_radius (NetworkxArgs.for_edges a))
       (EdgesArgs.loop_angle (NetworkxArgs.for_edges a))
       (EdgesArgs.loop_n_points (NetworkxArgs.for_edges a)))
    select_pairs (EdgesArgs.subset (NetworkxArgs.for_edges a))
    (edges_styling (NetworkxArgs.for_edges a)) MarkLine marker_attrs
    (fun s => with_axes (Some "")
                (<["detail" := ChShorthand (PStr "edge")]>
                   (<["order" := ChShorthand (PStr "order")]> (encoded_attrs s)))) σ) as X1.
  destruct (drawn _ _ _ _ _ _ _ σ) as [[e|x] σ1]; [|exact X1].
  destruct (directed Gv); [|exact X1].
  unfold bind. simpl in X1.
  rewrite (draw_networkx_arrows_on_graph _ _ _ _ Gv) by (by eapply extends_lookup).
  match goal with
  | |- extends _ (match ?d with _ => _ end).2 =>
      assert (X2 : extends σ1 d.2) by apply drawn_extends;
      destruct d as [[ar|x] σ2]
  end; simpl in *; by eapply extends_trans.
Qed.

Lemma node_layers_extends g Gv pos a σ :
  σ !! g = Some (OGraph Gv) ->
  extends σ (node_layers (Some g) Gv pos None a σ).2.
Proof.
  intros Hg. unfold node_layers. destruct (nodes Gv); [apply extends_refl|].
  unfold bind at 1. rewrite (draw_networkx_nodes_on_graph _ _ _ _ _ Hg).
  match goal with
  | |- extends _ (match ?d with _ => _ end).2 =>
      assert (X1 : extends σ d.2) by apply drawn_extends;
      destruct d as [[n|x] σ1]
  end; [|exact X1].
  destruct (truthy _); [|exact X1].
  unfold bind. simpl in X1.
  rewrite (draw_networkx_labels_on_graph _ _ _ _ Gv) by (by eapply extends_lookup).
  match goal with
  | |- extends _ (match ?d with _ => _ end).2 =>
      assert (X2 : extends σ1 d.2) by apply drawn_extends;
      destruct d as [[lb|x] σ2]
  end; simpl in *; by eapply extends_trans.
Qed.

Lemma edge_layers_marks g Gv pos a σ ls σ' :
  σ !! g = Some (OGraph Gv) ->
  edge_layers (Some g) Gv pos None a σ = (Ok ls, σ') ->
  Forall2 (fun l m => mark_at σ' l = Some m) ls (edge_marks Gv).
Proof.
  intros Hg. unfold edge_layers, edge_marks. destruct (edges Gv) as [|e0 es].
  { intros [= <- <-]. constructor. }
  intros E. apply bind_Ok_inv in E as (e & σ1 & E1 & E).
  rewrite (draw_networkx_edges_on_graph _ _ _ _ _ Hg) in E1.
  apply drawn_mark in E1 as [X1 Me].
  destruct (directed Gv).
  - apply bind_Ok_inv in E as (ar & σ2 & E2 & [= <- <-]).
    rewrite (draw_networkx_arrows_on_graph _ _ _ _ Gv) in E2
      by (by eapply extends_lookup).
    apply drawn_mark in E2 as [X2 Ma].
    repeat constructor; [by eapply mark_at_extends | done].
  - injection E as <- <-. by repeat constructor.
Qed.

Lemma node_layers_marks g Gv pos a σ ls σ' :
  σ !! g = Some (OGraph Gv) ->
  node_layers (Some g) Gv pos None a σ = (Ok ls, σ') ->
  Forall2 (fun l m => mark_at σ' l = Some m) ls
    (node_marks Gv (NetworkxArgs.node_label a)).
Proof.
  intros Hg. unfold node_layers, node_marks. destruct (nodes Gv) as [|n0 ns].
  { intros [= <- <-]. constructor. }
  intros E. apply bind_Ok_inv in E as (n & σ1 & E1 & E).
  rewrite (draw_networkx_nodes_on_graph _ _ _ _ _ Hg) in E1.
  apply drawn_mark in E1 as [X1 Mn].
  destruct (truthy _).
  - apply bind_Ok_inv in E as (lb & σ2 & E2 & [= <- <-]).
    rewrite (draw_networkx_labels_on_graph _ _ _ _ Gv) in E2
      by (by eapply extends_lookup).
    apply drawn_mark in E2 as [X2 Ml].
    repeat constructor; [by eapply mark_at_extends | done].
  - injection E as <- <-. by repeat constructor.
Qed.

Lemma scale_coordinates_sizes (pos pos' : Pos) (cw ch : option Q) (w h : Q) :
  scale_coordinates pos cw ch = Ok (pos', w, h) ->
  (forall w0, cw = Some w0 -> w = w0) /\ (forall h0, ch = Some h0 -> h = h0).
Proof.
  unfold scale_coordinates, resolve_size. intros E.
  destruct cw as [w0|], ch as [h0|], pos as [|kv rest]; try discriminate;
    repeat (apply obind_Ok_inv in E as (? & ? & E)); simplify_eq; simpl in *;
    split; intros ? [= <-]; try done;
    repeat match goal with
           | H : obind _ _ = Ok _ |- _ => apply obind_Ok_inv in H as (? & ? & H)
           end; by simplify_eq.
Qed.

(** X8. The layers of the chart [draw_networkx] returns when it draws from a
    graph: a layer of lines if the graph (after the filters) has edges, a
    second layer of lines if it is also directed, a layer of points if it has
    nodes, and a layer of text if moreover [node_label] is truthy, in this
    order and no other layer; the chart has the sizes that were given. *)
Theorem layers_of_the_result (g : loc) (G : Graph) (pos : option Pos)
    (a : NetworkxArgs.t) (σ σ' : store) (r : loc) :
  σ !! g = Some (OGraph G) ->
  draw_networkx (Some g) pos None a σ = (Ok r, σ') ->
  let Gv := filtered (NetworkxArgs.show_self_loops a) (NetworkxArgs.show_orphans a) G in
  exists lc,
    σ' !! r = Some (OLayerChart lc) /\
    Forall2 (fun l m => mark_at σ' l = Some m) (layer_list lc)
      (edge_marks Gv ++ node_marks Gv (NetworkxArgs.node_label a)) /\
    (forall w, NetworkxArgs.chart_width a = Some w -> prop_width lc = Some w) /\
    (forall h, NetworkxArgs.chart_height a = Some h -> prop_height lc = Some h).
Proof.
  intros Hg E Gv.
  destruct (filter_copy_graph g G (NetworkxArgs.show_self_loops a)
              (NetworkxArgs.show_orphans a) σ Hg) as (g' & σ1 & Hf & Hg' & _).
  fold Gv in Hg'. unfold draw_networkx in E.
  rewrite (bind_Ok _ _ _ _ _ Hf) in E.
  destruct (positions_Ok g' _ pos σ1 Hg') as [p Hp].
  rewrite (bind_Ok _ _ _ _ _ Hp) in E.
  apply bind_Ok_inv in E as ([[p' w] h] & σ2 & E1 & E).
  apply lift_Ok_inv in E1 as [Es ->].
  apply scale_coordinates_sizes in Es as [Hw Hh].
  rewrite (bind_Ok _ _ _ _ _ (get_graph_Ok _ _ _ Hg')) in E.
  apply bind_Ok_inv in E as (el & σ2 & E2 & E).
  apply bind_Ok_inv in E as (nl & σ3 & E3 & E).
  pose proof (edge_layers_extends g' Gv p' a σ1 Hg') as X2.
  rewrite E2 in X2. simpl in X2.
  pose proof (edge_layers_marks _ _ _ _ _ _ _ Hg' E2) as M2.
  assert (Hg2 : σ2 !! g' = Some (OGraph Gv)) by (by eapply extends_lookup).
  pose proof (node_layers_extends g' Gv p' a σ2 Hg2) as X3.
  rewrite E3 in X3. simpl in X3.
  pose proof (node_layers_marks _ _ _ _ _ _ _ Hg2 E3) as M3.
  destruct (el ++ nl) as [|l0 viz] eqn:Eviz; [discriminate|].
  unfold alloc in E. injection E as <- <-.
  eexists. split; [apply alloc_lookup|]. simpl. rewrite <- Eviz.
  split_and!.
  - apply Forall2_app.
    + eapply Forall2_impl; [exact M2|]. intros l m Hm. simpl in Hm.
      eapply mark_at_extends; [|exact Hm].
      eapply extends_trans; [exact X3|]. by eexists.
    + eapply Forall2_impl; [exact M3|]. intros l m Hm. simpl in Hm.
      eapply mark_at_extends; [|exact Hm]. by eexists.
  - intros w0 Ew. f_equal. by apply Hw.
  - intros h0 Eh. f_equal. by apply Hh.
Qed.

(** X9. Drawing from a graph changes no object that existed before the
    call: without a chart, [draw_networkx] only creates objects (the copy of
    the graph, the charts of the layers, the layered chart), also when it
    raises, and also when subsets are given. *)
Theorem draw_networkx_only_creates (g : loc) (G : Graph) (pos : option Pos)
    (a : NetworkxArgs.t) (σ : store) :
  σ !! g = Some (OGraph G) ->
  extends σ (draw_networkx (Some g) pos None a σ).2.
Proof.
  intros Hg.
  destruct (filter_copy_graph g G (NetworkxArgs.show_self_loops a)
              (NetworkxArgs.show_orphans a) σ Hg) as (g' & σ1 & Hf & Hg' & _).
  assert (X1 : extends σ σ1).
  { rewrite (filter_copy_spec _ _ _ _ _ Hg) in Hf.
    destruct (_ && _); injection Hf as <- <-; [apply extends_refl | by eexists]. }
  unfold draw_networkx. rewrite (bind_Ok _ _ _ _ _ Hf).
  destruct (positions_Ok g' _ pos σ1 Hg') as [p Hp].
  rewrite (bind_Ok _ _ _ _ _ Hp).
  unfold bind at 1, lift.
  destruct (scale_coordinates _ _ _) as [[[p' w] h]|e]; [|exact X1].
  rewrite (bind_Ok _ _ _ _ _ (get_graph_Ok _ _ _ Hg')).
  pose proof (edge_layers_extends g' _ p' a σ1 Hg') as X2.
  unfold bind at 1.
  destruct (edge_layers _ _ _ _ _ σ1) as [[el|e] σ2]; simpl in X2;
    [|by eapply extends_trans].
  assert (Hg2 : σ2 !! g' = Some (OGraph (filtered (NetworkxArgs.show_self_loops a)
                                           (NetworkxArgs.show_orphans a) G)))
    by (by eapply extends_lookup).
  pose proof (node_layers_extends g' _ p' a σ2 Hg2) as X3.
  unfold bind at 1.
  destruct (node_layers _ _ _ _ _ σ2) as [[nl|e] σ3]; simpl in X3;
    [|by repeat (eapply extends_trans; [eassumption|])].
  assert (X : extends σ σ3) by (by repeat (eapply extends_trans; [eassumption|])).
  destruct (el ++ nl); simpl; [exact X|].
  eapply extends_trans; [exact X|]. by eexists.
Qed.
End layers.

Lemma layers_of_the_result_witness :
  exists r σ' lc,
    draw_networkx (H := demo_externals) (Some 0%nat) None None
      NetworkxArgs.defaults [OGraph path_graph] = (Ok r, σ') /\
    σ' !! r = Some (OLayerChart lc) /\
    Forall2 (fun l m => mark_at σ' l = Some m) (layer_list lc)
      [MarkLine; MarkLine; MarkPoint] /\
    prop_width lc = Some 500%Q /\ prop_height lc = Some 300%Q.
Proof.
  pose (out := draw_networkx (H := demo_externals) (Some 0%nat) None None
                 NetworkxArgs.defaults [OGraph path_graph]).
  assert (E : out = (Ok 7%nat, out.2)) by (vm_compute; reflexivity).
  exists 7%nat, out.2.
  destruct (layers_of_the_result (H := demo_externals) 0%nat path_graph None
              NetworkxArgs.defaults [OGraph path_graph] out.2 7%nat eq_refl E)
    as (lc & Hlc & Hm & Hw & Hh).
  exists lc. split_and!; [exact E | exact Hlc | exact Hm | by apply Hw | by apply Hh].
Defined.

Lemma draw_networkx_only_creates_witness :
  extends [OGraph mixed_graph]
    (draw_networkx (H := demo_externals) (Some 0%nat) None None
       (NetworkxArgs.with_filters false false NetworkxArgs.defaults)
       [OGraph mixed_graph]).2.
Proof.
  apply (draw_networkx_only_creates (H := demo_externals) 0%nat mixed_graph).
  reflexivity.
Defined.

(** ** The filters of [draw_networkx] (lines 525-528) *)

Lemma isolates_spec (G : Graph) (n : label) :
  n ∈ isolates G <->
  n ∈ node_ids G /\ (forall e, e ∈ edges G -> e.1.1 <> n /\ e.1.2 <> n).
Proof.
  unfold isolates. rewrite list_elem_of_filter, forallb_forall.
  split; intros [Hf Hn]; split; try done.
  - intros e He. apply list_elem_of_In, Hf in He. unfold incident in He.
    apply negb_true_iff, orb_false_iff in He as [H1 H2].
    apply bool_decide_eq_false in H1, H2. done.
  - intros e He. apply list_elem_of_In, Hn in He as [H1 H2]. unfold incident.
    apply negb_true_iff, orb_false_iff.
    split; by apply bool_decide_eq_false.
Qed.

Lemma filter_all {A} (P : A -> Prop) `{!forall x, Decision (P x)} (l : list A) :
  (forall x, x ∈ l -> P x) -> filter P l = l.
Proof.
  induction l as [|x xs IH]; intros Hall; [done|].
  rewrite filter_cons_True by (apply Hall; by left).
  f_equal. apply IH. intros y Hy. apply Hall. by right.
Qed.

Lemma edges_without_isolates (G : Graph) :
  edges (remove_nodes_from (isolates G) G) = edges G.
Proof.
  unfold remove_nodes_from. simpl. apply filter_all. intros e He.
  split; intros Hi; apply isolates_spec in Hi as [_ Hi]; destruct (Hi e He); done.
Qed.

(** X10. Hiding the orphans removes nodes only: whatever [show_self_loops]
    is, the graph drawn with [show_orphans=False] has the very edges of the
    graph drawn with [show_orphans=True], its nodes are nodes of the latter
    in the same order, and none of them is left without an edge, so that one
    pass of line 528 suffices. *)
Theorem hiding_orphans_removes_nodes_only (self_loops : bool) (G : Graph) :
  edges (filtered self_loops false G) = edges (filtered self_loops true G) /\
  nodes (filtered self_loops false G) `sublist_of` nodes (filtered self_loops true G) /\
  isolates (filtered self_loops false G) = [].
Proof.
  unfold filtered. set (G1 := if self_loops then G else remove_selfloop_edges G).
  split_and!.
  - apply edges_without_isolates.
  - apply sublist_filter.
  - apply elem_of_nil_inv. intros n Hn.
    apply isolates_spec in Hn as [Hn He].
    apply node_ids_remove_nodes_from in Hn as [Hn Hni].
    apply Hni, isolates_spec. split; [done|].
    intros e Hin. apply He. by rewrite edges_without_isolates.
Qed.

(** X11. What becomes of a node whose only edges are self-loops: hiding the
    self-loops alone keeps the node (and every other node), hiding the
    orphans alone keeps it as well when it has a self-loop, for a self-loop
    counts as an edge, and hiding both removes it. *)
Theorem node_with_only_self_loops (G : Graph) (n : label) :
  n ∈ node_ids G ->
  (forall e, e ∈ edges G -> e.1.1 = n \/ e.1.2 = n -> e.1.1 = n /\ e.1.2 = n) ->
  n ∈ node_ids (filtered false true G) /\
  node_ids (filtered false true G) = node_ids G /\
  ((exists e, e ∈ edges G /\ e.1.1 = n /\ e.1.2 = n) ->
   n ∈ node_ids (filtered true false G)) /\
  n ∉ node_ids (filtered false false G).
Proof.
  intros Hn Hloops. unfold filtered. split_and!.
  - done.
  - done.
  - intros (e & He & H1 & H2). apply node_ids_remove_nodes_from. split; [done|].
    intros Hi. apply isolates_spec in Hi as [_ Hi]. destruct (Hi e He). done.
  - intros Hin. apply node_ids_remove_nodes_from in Hin as [_ Hni].
    apply Hni, isolates_spec. split; [done|].
    intros e He. simpl in He. apply list_elem_of_filter in He as [Hsl He].
    unfold is_selfloop in Hsl. apply bool_decide_eq_false in Hsl.
    split; intros E; destruct (Hloops e He) as [E1 E2]; auto; congruence.
Qed.

Lemma node_with_only_self_loops_witness :
  LStr "C" ∈ node_ids (filtered false true mixed_graph) /\
  node_ids (filtered false true mixed_graph) = node_ids mixed_graph /\
  ((exists e, e ∈ edges mixed_graph /\ e.1.1 = LStr "C" /\ e.1.2 = LStr "C") ->
   LStr "C" ∈ node_ids (filtered true false mixed_graph)) /\
  LStr "C" ∉ node_ids (filtered false false mixed_graph).
Proof.
  apply node_with_only_self_loops.
  - apply list_elem_of_In. simpl. tauto.
  - intros e He. apply list_elem_of_In in He. simpl in He.
    destruct He as [<-|[<-|[]]]; simpl; intros [E|E]; try discriminate; done.
Defined.

(** ** The four drawing functions over a chart, a layer, or a graph *)

Section calls.
Context `{!Externals}.

Lemma draw_networkx_edges_call G pos chart layer a :
  draw_networkx_edges G pos chart layer a
  = layer_call 0
      (fun Gv p => to_pandas_edges Gv p
         (effective_control_points (EdgesArgs.curved_edges a) (EdgesArgs.control_points a))
         (EdgesArgs.loop_radius a) (EdgesArgs.loop_angle a) (EdgesArgs.loop_n_points a))
      select_pairs (EdgesArgs.subset a) (edges_styling a) MarkLine marker_attrs
      edges_encoding G pos chart layer.
Proof. reflexivity. Qed.

Lemma draw_networkx_arrows_call G pos chart layer a :
  draw_networkx_arrows G pos chart layer a
  = layer_call 0
      (fun Gv p => to_pandas_edge_arrows Gv p (ArrowsArgs.length a)
         (ArrowsArgs.length_is_relative a)
         (effective_control_points (ArrowsArgs.curved_edges a)
            (ArrowsArgs.control_points a)))
      select_pairs (ArrowsArgs.subset a) (arrows_styling a) MarkLine marker_attrs
      arrows_encoding G pos chart layer.
Proof. reflexivity. Qed.

Lemma draw_networkx_nodes_call G pos chart layer a :
  draw_networkx_nodes G pos chart layer a
  = layer_call 1 to_pandas_nodes loc_labels (NodesArgs.subset a) (nodes_styling a)
      MarkPoint marker_attrs points_encoding G pos chart layer.
Proof. reflexivity. Qed.

Lemma draw_networkx_labels_call G pos chart layer a :
  draw_networkx_labels G pos chart layer a
  = layer_call 1 to_pandas_nodes loc_labels (LabelsArgs.subset a) (labels_styling a)
      MarkText labels_attrs points_encoding G pos chart layer.
Proof. reflexivity. Qed.

Lemma restrict_on_chart select subset (l : loc) (c : Chart) (σ : store) :
  σ !! l = Some (OChart c) ->
  restrict select subset l (chart_data c) σ
  = match restricted select subset (chart_data c) with
    | Ok df' => (Ok df', if is_list subset then <[l := OChart (with_data df' c)]> σ else σ)
    | Raise e => (Raise e, σ)
    end.
Proof.
  intros Hl. unfold restrict, restricted.
  destruct subset; try reflexivity. simpl.
  unfold bind at 1, lift at 1. destruct (select _ _) as [df'|e]; [|reflexivity].
  unfold bind at 1, set_data. unfold bind at 1. rewrite (get_chart_Ok _ _ _ Hl).
  reflexivity.
Qed.

Lemma layer_call_over_chart idx project select subset styling_of m attrs_of enc_of
    G pos (ch : loc) (σ σ' : store) (r : loc) :
  layer_call idx project select subset styling_of m attrs_of enc_of
    G pos (Some ch) None σ = (Ok r, σ') ->
  exists lc l c df' s,
    σ !! ch = Some (OLayerChart lc) /\ layer_list lc !! idx = Some l /\
    σ !! l = Some (OChart c) /\
    restricted select subset (chart_data c) = Ok df' /\
    styling_of df' = Ok s /\
    r = length σ /\
    σ' = <[ch := OLayerChart (replaced idx r lc)]>
           ((if is_list subset then <[l := OChart (with_data df' c)]> σ else σ)
            ++ [OChart {| chart_data := df'; chart_mark := Some m;
                          chart_mark_attrs := attrs_of s;
                          chart_encoding := enc_of s ∪ chart_encoding c |}]).
Proof.
  unfold layer_call, select_source. intros E.
  apply bind_Ok_inv in E as ([df c0] & σ1 & Esrc & E).
  apply bind_Ok_inv in Esrc as (l & σa & El & Esrc).
  apply bind_Ok_inv in Esrc as (c & σb & Ec & [= <- <- <-]).
  unfold layer_item in El. apply bind_Ok_inv in El as (lc & σc & Elc & El).
  apply get_layer_chart_inv in Elc as [-> Hch].
  destruct (layer_list lc !! idx) as [l0|] eqn:Hidx; [|discriminate].
  injection El as -> <-. apply get_chart_inv in Ec as [-> Hl].
  rewrite (bind_assoc _ _ _ σ) in E || idtac.
  unfold bind at 1 in E. rewrite (restrict_on_chart _ _ _ _ _ Hl) in E.
  destruct (restricted select subset (chart_data c)) as [df'|e] eqn:Hr; [|discriminate].
  set (σ2 := if is_list subset then <[l := OChart (with_data df' c)]> σ else σ) in *.
  assert (Hlen : length σ2 = length σ).
  { unfold σ2. destruct (is_list subset); [apply length_insert | done]. }
  assert (Hne : l <> ch) by (intros ->; congruence).
  assert (Hch2 : σ2 !! ch = Some (OLayerChart lc)).
  { unfold σ2. destruct (is_list subset); [|done].
    by rewrite list_lookup_insert_ne. }
  assert (Hl2 : exists c2, σ2 !! l = Some (OChart c2) /\ chart_data c2 = df'
                           /\ chart_encoding c2 = chart_encoding c).
  { unfold σ2. destruct (is_list subset) eqn:Hs.
    - exists (with_data df' c).
      split; [apply list_lookup_insert_eq; by eapply lookup_lt_Some|done].
    - exists c. split; [done|]. split; [|done].
      unfold restricted in Hr. destruct subset; simplify_eq; done. }
  destruct Hl2 as (c2 & Hl2 & Hd2 & He2).
  unfold bind at 1, lift at 1 in E.
  destruct (styling_of df') as [s|e] eqn:Hsty; [|discriminate].
  unfold finish in E. rewrite (bind_Ok _ _ _ _ _ (get_chart_Ok _ _ _ Hl2)) in E.
  unfold bind at 1, alloc at 1 in E. unfold replace_layer, set_layer_item in E.
  unfold bind at 1 2, get_layer_chart in E.
  rewrite (lookup_app_l_Some _ _ _ _ Hch2) in E.
  destruct (decide (idx < length (layer_list lc))%nat) as [Hlt|Hge];
    [|exfalso; apply Hge; by eapply lookup_lt_Some].
  unfold ret in E. injection E as <- <-.
  exists lc, l, c, df', s. rewrite Hd2, He2, Hlen. by split_and!.
Qed.

Lemma layer_call_drawn_over idx project select subset styling_of m attrs_of enc_of
    G pos (ch : loc) (σ σ' : store) (r : loc) :
  layer_call idx project select subset styling_of m attrs_of enc_of
    G pos (Some ch) None σ = (Ok r, σ') ->
  drawn_over idx m subset select ch σ σ' r.
Proof.
  intros E. apply layer_call_over_chart in E
    as (lc & l & c & df' & s & Hch & Hidx & Hl & Hr & Hs & -> & ->).
  set (σ2 := if is_list subset then <[l := OChart (with_data df' c)]> σ else σ).
  assert (Hlen : length σ2 = length σ).
  { unfold σ2. destruct (is_list subset); [apply length_insert | done]. }
  assert (Hne : l <> ch) by (intros ->; congruence).
  assert (Hchlt : (ch < length σ)%nat) by (by eapply lookup_lt_Some).
  assert (Hllt : (l < length σ)%nat) by (by eapply lookup_lt_Some).
  exists lc, l, c, df',
    {| chart_data := df'; chart_mark := Some m; chart_mark_attrs := attrs_of s;
       chart_encoding := enc_of s ∪ chart_encoding c |}.
  split_and!; try done.
  - rewrite length_insert, length_app, Hlen. simpl. lia.
  - rewrite list_lookup_insert_ne by lia. rewrite <- Hlen. apply alloc_lookup.
  - simpl. intros k v Hk. exists (default v (enc_of s !! k)).
    apply lookup_union_Some_raw. destruct (enc_of s !! k); [by left|by right].
  - apply list_lookup_insert_eq. rewrite length_app, Hlen. simpl. lia.
  - rewrite list_lookup_insert_ne by done.
    rewrite lookup_app_l by lia. unfold σ2.
    destruct (is_list subset); [by apply list_lookup_insert_eq | done].
  - intros k Hk1 Hk2 Hk3. rewrite list_lookup_insert_ne by done.
    destruct (decide (k < length σ)%nat).
    + rewrite lookup_app_l by lia. unfold σ2.
      destruct (is_list subset); [by rewrite list_lookup_insert_ne | done].
    + rewrite !lookup_ge_None_2; [done|lia|rewrite length_app, Hlen; simpl; lia].
Qed.

(** X12. Drawing over a chart replaces a layer of that chart in place:
    [draw_networkx_edges] and [draw_networkx_arrows] both take layer 0 of
    the chart as their source and put their result in its place,
    [draw_networkx_nodes] and [draw_networkx_labels] both do so with layer
    1.  The result is a new chart object with the mark of the function, the
    (restricted) record set of the layer it replaces and that layer's
    encodings, updated; no other object changes, except that a subset also
    restricts the record set of the replaced layer. *)
Theorem drawing_over_a_chart (G : option loc) (pos : option Pos) (ch : loc)
    (σ σ' : store) (r : loc) :
  (forall a, draw_networkx_edges G pos (Some ch) None a σ = (Ok r, σ') ->
     drawn_over 0 MarkLine (EdgesArgs.subset a) select_pairs ch σ σ' r) /\
  (forall a, draw_networkx_arrows G pos (Some ch) None a σ = (Ok r, σ') ->
     drawn_over 0 MarkLine (ArrowsArgs.subset a) select_pairs ch σ σ' r) /\
  (forall a, draw_networkx_nodes G pos (Some ch) None a σ = (Ok r, σ') ->
     drawn_over 1 MarkPoint (NodesArgs.subset a) loc_labels ch σ σ' r) /\
  (forall a, draw_networkx_labels G pos (Some ch) None a σ = (Ok r, σ') ->
     drawn_over 1 MarkText (LabelsArgs.subset a) loc_labels ch σ σ' r).
Proof.
  split_and!; intros a E.
  - rewrite draw_networkx_edges_call in E. by apply layer_call_drawn_over in E.
  - rewrite draw_networkx_arrows_call in E. by apply layer_call_drawn_over in E.
  - rewrite draw_networkx_nodes_call in E. by apply layer_call_drawn_over in E.
  - rewrite draw_networkx_labels_call in E. by apply layer_call_drawn_over in E.
Qed.
End calls.

Lemma drawing_over_a_chart_witness :
  exists σ',
    draw_networkx_arrows (H := demo_externals) None None (Some 2%nat) None
      ArrowsArgs.defaults demo_layered_store = (Ok 3%nat, σ') /\
    drawn_over 0 MarkLine (ArrowsArgs.subset ArrowsArgs.defaults) select_pairs
      2%nat demo_layered_store σ' 3%nat.
Proof.
  pose (out := draw_networkx_arrows (H := demo_externals) None None (Some 2%nat) None
                 ArrowsArgs.defaults demo_layered_store).
  assert (E : out = (Ok 3%nat, out.2)) by (vm_compute; reflexivity).
  exists out.2. split; [exact E|].
  exact (proj1 (proj2 (drawing_over_a_chart (H := demo_externals) None None 2%nat
                         demo_layered_store out.2 3%nat))
           ArrowsArgs.defaults E).
Defined.

(** ** Which objects a call changes *)

Lemma finish_keeps_chart (l : loc) (c : Chart) c0 m attrs enc chart idx (σ : store) :
  σ !! l = Some (OChart c) ->
  (finish c0 m attrs enc chart idx σ).2 !! l = Some (OChart c).
Proof.
  intros Hl. unfold finish, bind, get_chart, alloc, replace_layer, set_layer_item,
    bind, get_layer_chart, ret, raise.
  destruct (σ !! c0) as [[| old |]|]; try done. simpl.
  destruct chart as [ch|]; simpl; [|by apply lookup_app_l_Some].
  destruct (_ !! ch) as [[| |lc]|] eqn:Hch; simpl; try by apply lookup_app_l_Some.
  destruct (decide _); simpl; [|by apply lookup_app_l_Some].
  rewrite list_lookup_insert_ne; [by apply lookup_app_l_Some|].
  intros ->. rewrite (lookup_app_l_Some _ _ _ _ Hl) in Hch. discriminate.
Qed.

Section mutation.
Context `{!Externals}.

Lemma layer_call_on_layer idx project select subset styling_of m attrs_of enc_of
    G pos chart (l : loc) (c : Chart) (df' : DataFrame) (σ : store) :
  σ !! l = Some (OChart c) ->
  restricted select subset (chart_data c) = Ok df' ->
  (layer_call idx project select subset styling_of m attrs_of enc_of
     G pos chart (Some l) σ).2 !! l
  = Some (OChart (if is_list subset then with_data df' c else c)).
Proof.
  intros Hl Hr. unfold layer_call, select_source.
  rewrite bind_assoc, (bind_Ok _ _ _ _ _ (get_chart_Ok _ _ _ Hl)), bind_ret.
  unfold bind at 1. rewrite (restrict_on_chart _ _ _ _ _ Hl), Hr.
  set (σ2 := if is_list subset then <[l := OChart (with_data df' c)]> σ else σ).
  assert (Hl2 : σ2 !! l = Some (OChart (if is_list subset then with_data df' c else c))).
  { unfold σ2. destruct (is_list subset); [|done].
    apply list_lookup_insert_eq. by eapply lookup_lt_Some. }
  unfold bind at 1, lift. destruct (styling_of df') as [s|e]; [|exact Hl2].
  by apply finish_keeps_chart.
Qed.

(** X13. A subset given together with [layer] is destructive: the layer
    object passed in has its record set replaced by the restricted one
    (lines 91, 196, 291 and 385), whether the call then returns or raises
    on a later argument, so that a later call with the same layer starts
    from the restricted rows. *)
Theorem subset_restricts_the_layer_in_place (G : option loc) (pos : option Pos)
    (chart : option loc) (l : loc) (c : Chart) (ids : list label) (σ : store) :
  σ !! l = Some (OChart c) ->
  (forall a df', select_pairs (chart_data c) ids = Ok df' ->
     (draw_networkx_edges G pos chart (Some l)
        (EdgesArgs.with_subset (PList ids) a) σ).2 !! l
     = Some (OChart (with_data df' c))) /\
  (forall a df', select_pairs (chart_data c) ids = Ok df' ->
     (draw_networkx_arrows G pos chart (Some l)
        (ArrowsArgs.with_subset (PList ids) a) σ).2 !! l
     = Some (OChart (with_data df' c))) /\
  (forall a df', loc_labels (chart_data c) ids = Ok df' ->
     (draw_networkx_nodes G pos chart (Some l)
        (NodesArgs.with_subset (PList ids) a) σ).2 !! l
     = Some (OChart (with_data df' c))) /\
  (forall a df', loc_labels (chart_data c) ids = Ok df' ->
     (draw_networkx_labels G pos chart (Some l)
        (LabelsArgs.with_subset (PList ids) a) σ).2 !! l
     = Some (OChart (with_data df' c))).
Proof.
  intros Hl. split_and!; intros a df' Hsel.
  - rewrite draw_networkx_edges_call.
    exact (layer_call_on_layer 0 _ select_pairs (PList ids) _ _ _ _ G pos chart
             l c df' σ Hl Hsel).
  - rewrite draw_networkx_arrows_call.
    exact (layer_call_on_layer 0 _ select_pairs (PList ids) _ _ _ _ G pos chart
             l c df' σ Hl Hsel).
  - rewrite draw_networkx_nodes_call.
    exact (layer_call_on_layer 1 _ loc_labels (PList ids) _ _ _ _ G pos chart
             l c df' σ Hl Hsel).
  - rewrite draw_networkx_labels_call.
    exact (layer_call_on_layer 1 _ loc_labels (PList ids) _ _ _ _ G pos chart
             l c df' σ Hl Hsel).
Qed.

Lemma layer_call_only_adds idx project select subset styling_of m attrs_of enc_of
    G pos layer :
  layer = None \/ is_list subset = false ->
  only_adds (layer_call idx project select subset styling_of m attrs_of enc_of
               G pos None layer).
Proof.
  intros Hcase σ. unfold layer_call, select_source.
  destruct layer as [l|].
  - destruct Hcase as [|Hsub]; [done|].
    rewrite bind_assoc.
    destruct (get_chart l σ) as [[c|e] σ1] eqn:Eg.
    2:{ rewrite (bind_Raise _ _ _ _ _ Eg). unfold get_chart in Eg.
        repeat case_match; simplify_eq; apply extends_refl. }
    apply get_chart_inv in Eg as Hl. destruct Hl as [-> Hl].
    rewrite (bind_Ok _ _ _ _ _ Eg), bind_ret.
    unfold bind at 1. rewrite (restrict_on_chart _ _ _ _ _ Hl), Hsub.
    destruct (restricted _ _ _) as [df'|e]; [|apply extends_refl].
    unfold bind at 1, lift. destruct (styling_of df') as [s|e]; [|apply extends_refl].
    unfold finish. rewrite (bind_Ok _ _ _ _ _ Eg).
    unfold bind, alloc, replace_layer, ret. simpl. by eexists.
  - destruct G as [g|]; [|apply extends_refl].
    rewrite bind_assoc.
    destruct (get_graph g σ) as [[Gv|e] σ1] eqn:Eg.
    2:{ rewrite (bind_Raise _ _ _ _ _ Eg). unfold get_graph in Eg.
        repeat case_match; simplify_eq; apply extends_refl. }
    apply get_graph_inv in Eg as Hg. destruct Hg as [-> Hg].
    rewrite (bind_Ok _ _ _ _ _ Eg).
    rewrite bind_assoc. unfold bind at 1, lift at 1.
    destruct (project Gv _) as [df|e]; [|apply extends_refl].
    rewrite bind_assoc. unfold bind at 1, alloc at 1. rewrite bind_ret.
    unfold bind at 1. rewrite restrict_last.
    destruct (restricted select subset df) as [df'|e]; [|by eexists].
    unfold bind at 1, lift at 1. destruct (styling_of df') as [s|e]; [|by eexists].
    rewrite finish_last. by eexists.
Qed.

(** X14. Without a chart, and unless a subset is given together with a
    layer, the four drawing functions change no object that existed before
    the call, whether they return or raise: they only create objects. *)
Theorem layer_functions_only_create (G : option loc) (pos : option Pos)
    (layer : option loc) :
  (forall a, layer = None \/ is_list (EdgesArgs.subset a) = false ->
     only_adds (draw_networkx_edges G pos None layer a)) /\
  (forall a, layer = None \/ is_list (ArrowsArgs.subset a) = false ->
     only_adds (draw_networkx_arrows G pos None layer a)) /\
  (forall a, layer = None \/ is_list (NodesArgs.subset a) = false ->
     only_adds (draw_networkx_nodes G pos None layer a)) /\
  (forall a, layer = None \/ is_list (LabelsArgs.subset a) = false ->
     only_adds (draw_networkx_labels G pos None layer a)).
Proof.
  split_and!; intros a Hcase.
  - rewrite draw_networkx_edges_call. by apply layer_call_only_adds.
  - rewrite draw_networkx_arrows_call. by apply layer_call_only_adds.
  - rewrite draw_networkx_nodes_call. by apply layer_call_only_adds.
  - rewrite draw_networkx_labels_call. by apply layer_call_only_adds.
Qed.
End mutation.

Lemma subset_restricts_the_layer_in_place_witness :
  (draw_networkx_nodes (H := demo_externals) None None None (Some 1%nat)
     (NodesArgs.with_subset (PList [LStr "B"]) nodes_size_float) demo_store).1
  = Raise TypeError /\
  (draw_networkx_nodes (H := demo_externals) None None None (Some 1%nat)
     (NodesArgs.with_subset (PList [LStr "B"]) nodes_size_float) demo_store).2 !! 1%nat
  = Some (OChart (with_data
            {| df_columns := df_columns demo_nodes_df;
               df_rows := [(LStr "B", [CAtom (LStr "B"); CFloat 1; CFloat 1;
                                       CAtom (LStr "leaf"); CFloat 2])] |}
            (new_chart demo_nodes_df))).
Proof.
  split; [vm_compute; reflexivity|].
  apply (proj1 (proj2 (proj2
    (subset_restricts_the_layer_in_place (H := demo_externals) None None None 1%nat
       (new_chart demo_nodes_df) [LStr "B"] demo_store eq_refl)))).
  vm_compute. reflexivity.
Defined.

Lemma layer_functions_only_create_witness :
  extends demo_store
    (draw_networkx_edges (H := demo_externals) None None None (Some 0%nat)
       EdgesArgs.defaults demo_store).2.
Proof.
  apply (proj1 (layer_functions_only_create (H := demo_externals) None None (Some 0%nat))).
  right. reflexivity.
Defined.

(** ** The colour map of nodes, whatever the column *)

Lemma nodes_styling_cmap (a : NodesArgs.t) (df : DataFrame) (s : styling) (m : string) :
  nodes_styling a df = Ok s -> NodesArgs.cmap a = PStr m ->
  exists c, NodesArgs.colour a = PStr c /\
    encoded_attrs s !! "fill" = Some (ChColor c (Some m) LegendUndefined).
Proof.
  unfold nodes_styling. intros E Hm.
  apply obind_Ok_inv in E as (s1 & E1 & E).
  apply obind_Ok_inv in E as (s2 & E2 & E).
  apply obind_Ok_inv in E as (s3 & E3 & E).
  apply obind_Ok_inv in E as (s4 & E4 & E).
  apply obind_Ok_inv in E as (s5 & E5 & E).
  apply obind_Ok_inv in E as (s6 & E6 & [= <-]).
  rewrite Hm in E6. unfold nodes_cmap in E6.
  destruct (NodesArgs.colour a) as [| | | |c| |]; try discriminate.
  injection E6 as <-. exists c. split; [done|].
  destruct (tooltips_frame (NodesArgs.tooltip a)
              (set_encoded "fill" (ChColor c (Some m) LegendUndefined) s5) "fill")
    as [_ ->]; [notin|].
  apply lookup_insert_eq.
Qed.

Section colour_map.
Context `{!Externals}.

(** X15. A colour map on nodes is applied without looking at the data: when
    [draw_networkx_nodes] returns and [cmap] is a string, the fill of the
    chart is the colour-mapped encoding of the field named by [colour],
    with no legend argument, whatever the type of that column and whatever
    [legend] is; when [colour] names no column at all the chart has this
    encoding and the constant fill [colour] as well. *)
Theorem node_colour_map_is_unconditional (G : option loc) (pos : option Pos)
    (chart layer : option loc) (a : NodesArgs.t) (m : string)
    (σ σ' : store) (r : loc) :
  NodesArgs.cmap a = PStr m ->
  draw_networkx_nodes G pos chart layer a σ = (Ok r, σ') ->
  exists c cr,
    NodesArgs.colour a = PStr c /\ σ' !! r = Some (OChart cr) /\
    chart_encoding cr !! "fill" = Some (ChColor c (Some m) LegendUndefined) /\
    (c ∉ columns (chart_data cr) -> chart_mark_attrs cr !! "fill" = Some (PStr c)).
Proof.
  intros Hm E.
  apply draw_networkx_nodes_result in E as (df & s & old & Hs & Hr).
  destruct (nodes_styling_cmap _ _ _ _ Hs Hm) as (c & Hc & Hfill).
  apply nodes_styling_resolved in Hs as (_ & _ & _ & [_ Hconst] & _).
  eexists c, _. split_and!; [done | exact Hr | |].
  - simpl. apply lookup_union_Some_l. unfold with_axes.
    by rewrite !lookup_insert_ne by done.
  - simpl. intros Hnc. rewrite Hc in Hconst. by apply (Hconst c).
Qed.
End colour_map.

Lemma node_colour_map_is_unconditional_witness :
  exists σ' c cr,
    draw_networkx_nodes (H := demo_externals) None None None (Some 1%nat)
      (nodes_cmap_on "nowhere") demo_store = (Ok 2%nat, σ') /\
    NodesArgs.colour (nodes_cmap_on "nowhere") = PStr c /\
    σ' !! 2%nat = Some (OChart cr) /\
    chart_encoding cr !! "fill" = Some (ChColor c (Some "viridis") LegendUndefined) /\
    (c ∉ columns (chart_data cr) -> chart_mark_attrs cr !! "fill" = Some (PStr c)).
Proof.
  pose (out := draw_networkx_nodes (H := demo_externals) None None None (Some 1%nat)
                 (nodes_cmap_on "nowhere") demo_store).
  assert (E : out = (Ok 2%nat, out.2)) by (vm_compute; reflexivity).
  destruct (node_colour_map_is_unconditional (H := demo_externals) None None None
              (Some 1%nat) (nodes_cmap_on "nowhere") "viridis" demo_store out.2 2%nat
              eq_refl E) as (c & cr & H1 & H2 & H3 & H4).
  exists out.2, c, cr. by split_and!.
Defined.

(** ** Arrows drawn after edges over the same chart *)

Lemma arrows_styling_no_order (a : ArrowsArgs.t) (df : DataFrame) (s : styling) :
  arrows_styling a df = Ok s -> encoded_attrs s !! "order" = None.
Proof.
  unfold arrows_styling. intros E.
  apply obind_Ok_inv in E as (s1 & E1 & E).
  apply obind_Ok_inv in E as (s2 & E2 & E).
  apply obind_Ok_inv in E as (s3 & E3 & [= <-]).
  destruct (tooltips_frame (ArrowsArgs.tooltip a) s3 "order") as [_ ->]; [notin|].
  destruct (opacity_frame _ _ _ E3 "order") as [_ ->]; [notin|].
  destruct (line_colour_frame _ _ _ _ _ _ E2 "order") as [_ ->]; [notin|].
  destruct (arrows_width_frame _ _ _ _ E1 "order") as [_ ->]; [notin|].
  done.
Qed.

Section composition_over_chart.
Context `{!Externals}.

(** X16. Over a chart, arrows drawn after edges are drawn from the edge
    layer that was just drawn, as happens in [draw_networkx] with a chart
    and a directed graph: the arrow chart holds the rows of the edge chart
    (restricted by the arrows' subset), it inherits the edges' ["order"]
    encoding, and it takes the place of the edge chart at position 0 of the
    chart, which the edge chart has held only in between. *)
Theorem arrows_after_edges_over_a_chart (G G' : option loc) (pos pos' : option Pos)
    (ch : loc) (ea : EdgesArgs.t) (aa : ArrowsArgs.t)
    (σ σ1 σ2 : store) (e ar : loc) :
  draw_networkx_edges G pos (Some ch) None ea σ = (Ok e, σ1) ->
  draw_networkx_arrows G' pos' (Some ch) None aa σ1 = (Ok ar, σ2) ->
  exists ce ca lc1 lc2,
    σ1 !! e = Some (OChart ce) /\ σ2 !! ar = Some (OChart ca) /\
    restricted select_pairs (ArrowsArgs.subset aa) (chart_data ce) = Ok (chart_data ca) /\
    chart_encoding ca !! "order" = Some (ChShorthand (PStr "order")) /\
    σ1 !! ch = Some (OLayerChart lc1) /\ layer_list lc1 !! 0%nat = Some e /\
    σ2 !! ch = Some (OLayerChart lc2) /\ layer_list lc2 !! 0%nat = Some ar /\
    e <> ar.
Proof.
  intros E1 E2.
  rewrite draw_networkx_edges_call in E1.
  apply layer_call_over_chart in E1
    as (lc & l & c & df1 & s1 & Hch & Hidx & Hl & Hr1 & Hs1 & -> & ->).
  set (σ0 := if is_list (EdgesArgs.subset ea)
             then <[l := OChart (with_data df1 c)]> σ else σ) in *.
  assert (Hlen : length σ0 = length σ).
  { unfold σ0. destruct (is_list _); [apply length_insert | done]. }
  assert (Hchlt : (ch < length σ)%nat) by (by eapply lookup_lt_Some).
  assert (Hidxlt : (0 < length (layer_list lc))%nat) by (by eapply lookup_lt_Some).
  set (ce := {| chart_data := df1; chart_mark := Some MarkLine;
                chart_mark_attrs := marker_attrs s1;
                chart_encoding := edges_encoding s1 ∪ chart_encoding c |}) in *.
  set (σ1 := <[ch := OLayerChart (replaced 0 (length σ) lc)]> (σ0 ++ [OChart ce])) in *.
  assert (Hch1 : σ1 !! ch = Some (OLayerChart (replaced 0 (length σ) lc))).
  { unfold σ1. apply list_lookup_insert_eq. rewrite length_app, Hlen. simpl. lia. }
  assert (He1 : σ1 !! length σ = Some (OChart ce)).
  { unfold σ1. rewrite list_lookup_insert_ne by lia. rewrite <- Hlen.
    apply alloc_lookup. }
  assert (Hlen1 : length σ1 = S (length σ)).
  { unfold σ1. rewrite length_insert, length_app, Hlen. simpl. lia. }
  rewrite draw_networkx_arrows_call in E2.
  apply layer_call_over_chart in E2
    as (lc' & l' & c' & df2 & s2 & Hch' & Hidx' & Hl' & Hr2 & Hs2 & -> & ->).
  rewrite Hch1 in Hch'. injection Hch' as <-.
  simpl in Hidx'. rewrite list_lookup_insert_eq in Hidx' by done.
  injection Hidx' as <-. rewrite He1 in Hl'. injection Hl' as <-.
  set (σ1' := if is_list (ArrowsArgs.subset aa)
              then <[length σ := OChart (with_data df2 ce)]> σ1 else σ1) in *.
  assert (Hlen' : length σ1' = length σ1).
  { unfold σ1'. destruct (is_list (ArrowsArgs.subset aa)); [apply length_insert | done]. }
  eexists ce, _, (replaced 0 (length σ) lc), _. split_and!.
  - exact He1.
  - rewrite list_lookup_insert_ne by lia. rewrite <- Hlen'. apply alloc_lookup.
  - exact Hr2.
  - simpl. apply lookup_union_Some_raw. right. split.
    + unfold arrows_encoding, with_axes. rewrite !lookup_insert_ne by done.
      by eapply arrows_styling_no_order.
    + apply lookup_union_Some_l. unfold edges_encoding, with_axes.
      rewrite !lookup_insert_ne by done. apply lookup_insert_eq.
  - exact Hch1.
  - simpl. by apply list_lookup_insert_eq.
  - apply list_lookup_insert_eq. rewrite length_app, Hlen', Hlen1. simpl. lia.
  - simpl. apply list_lookup_insert_eq. by rewrite length_insert.
  - lia.
Qed.
End composition_over_chart.

Lemma arrows_after_edges_over_a_chart_witness :
  exists σ1 σ2 ce ca lc1 lc2,
    draw_networkx_edges (H := demo_externals) None None (Some 2%nat) None
      EdgesArgs.defaults demo_layered_store = (Ok 3%nat, σ1) /\
    draw_networkx_arrows (H := demo_externals) None None (Some 2%nat) None
      ArrowsArgs.defaults σ1 = (Ok 4%nat, σ2) /\
    σ1 !! 3%nat = Some (OChart ce) /\ σ2 !! 4%nat = Some (OChart ca) /\
    restricted select_pairs (ArrowsArgs.subset ArrowsArgs.defaults) (chart_data ce)
    = Ok (chart_data ca) /\
    chart_encoding ca !! "order" = Some (ChShorthand (PStr "order")) /\
    σ1 !! 2%nat = Some (OLayerChart lc1) /\ layer_list lc1 !! 0%nat = Some 3%nat /\
    σ2 !! 2%nat = Some (OLayerChart lc2) /\ layer_list lc2 !! 0%nat = Some 4%nat /\
    3%nat <> 4%nat.
Proof.
  pose (o1 := draw_networkx_edges (H := demo_externals) None None (Some 2%nat) None
                EdgesArgs.defaults demo_layered_store).
  assert (E1 : o1 = (Ok 3%nat, o1.2)) by (vm_compute; reflexivity).
  pose (o2 := draw_networkx_arrows (H := demo_externals) None None (Some 2%nat) None
                ArrowsArgs.defaults o1.2).
  assert (E2 : o2 = (Ok 4%nat, o2.2)) by (vm_compute; reflexivity).
  destruct (arrows_after_edges_over_a_chart (H := demo_externals) None None None None
              2%nat EdgesArgs.defaults ArrowsArgs.defaults
              demo_layered_store o1.2 o2.2 3%nat 4%nat E1 E2)
    as (ce & ca & lc1 & lc2 & H1 & H2 & H3 & H4 & H5 & H6 & H7 & H8 & H9).
  exists o1.2, o2.2, ce, ca, lc1, lc2. by split_and!.
Defined.

(** ** The errors of a call that draws in a layer *)





















Section layer_errors.
Context `{!Externals}.


End layer_errors.


(** ** An empty subset *)

Lemma restrict_restricted select subset (c : loc) (df df' : DataFrame) (σ σ' : store) :
  restrict select subset c df σ = (Ok df', σ') -> restricted select subset df = Ok df'.
Proof.
  unfold restrict, restricted. destruct subset; try discriminate.
  - by intros [= <- <-].
  - intros E. apply bind_Ok_inv in E as (d & σ1 & E1 & E2).
    apply lift_Ok_inv in E1 as [E1 ->].
    apply bind_Ok_inv in E2 as ([] & σ2 & _ & [= <- <-]). done.
Qed.

Lemma column_pos_Some (df : DataFrame) (c : string) :
  c ∈ columns df -> exists i, column_pos df c = Some i.
Proof.
  unfold column_pos, columns. intros Hin.
  apply list_elem_of_fmap in Hin as (cd & -> & Hcd).
  destruct (list_find_elem_of (fun x : string * dtype => x.1 = cd.1)
              (df_columns df) cd Hcd eq_refl) as [[i y] Hf].
  exists i. by rewrite Hf.
Qed.

Lemma filter_none {A} (P : A -> Prop) `{!forall x, Decision (P x)} (l : list A) :
  (forall x, x ∈ l -> ~ P x) -> filter P l = [].
Proof.
  induction l as [|x xs IH]; intros Hnone; [done|].
  rewrite filter_cons_False by (apply Hnone; by left).
  apply IH. intros y Hy. apply Hnone. by right.
Qed.

Lemma select_pairs_nil (df : DataFrame) :
  select_pairs df []
  = if bool_decide ("pair" ∈ columns df) then Ok (no_rows df) else Raise KeyError.
Proof.
  unfold select_pairs, loc_isin. case_bool_decide as Hc.
  - destruct (column_pos_Some _ _ Hc) as [i ->]. unfold no_rows. do 2 f_equal.
    apply filter_none. intros r _. unfold cell_isin.
    by destruct (default CNaN _).
  - destruct (column_pos df "pair") as [i|] eqn:Ei; [|done].
    exfalso. apply Hc. unfold column_pos in Ei. apply fmap_Some in Ei as ([j cd] & Ef & _).
    apply list_find_Some in Ef as (Hj & Hcd & _). simpl in Hcd.
    unfold columns. apply list_elem_of_fmap. exists cd. split; [done|].
    by eapply list_elem_of_lookup_2.
Qed.

Lemma loc_labels_nil (df : DataFrame) : loc_labels df [] = Ok (no_rows df).
Proof. unfold loc_labels. by rewrite bool_decide_eq_true_2 by constructor. Qed.

Section empty_subset.
Context `{!Externals}.

Lemma layer_call_data idx project select subset styling_of m attrs_of enc_of
    G pos chart layer (σ σ' : store) (r : loc) :
  layer_call idx project select subset styling_of m attrs_of enc_of
    G pos chart layer σ = (Ok r, σ') ->
  exists df df' cr,
    restricted select subset df = Ok df' /\
    σ' !! r = Some (OChart cr) /\ chart_data cr = df'.
Proof.
  unfold layer_call. intros E.
  apply bind_Ok_inv in E as ([df c] & σ1 & E1 & E).
  apply bind_Ok_inv in E as (df' & σ2 & E2 & E).
  apply bind_Ok_inv in E as (s & σ3 & E3 & E).
  apply lift_Ok_inv in E3 as [E3 ->].
  apply select_source_chart in E1 as (ch & Hc & Hd).
  destruct (restrict_chart _ _ _ _ _ _ _ _ Hc Hd E2) as (ch' & Hc' & Hd').
  destruct (finish_chart _ _ _ _ _ _ _ _ _ _ Hc' E) as [_ Hr].
  apply restrict_restricted in E2.
  eexists df, df', _. split_and!; [done | exact Hr | done].
Qed.

Lemma layer_call_no_pair idx project styling_of m attrs_of enc_of
    G pos chart (l : loc) (c : Chart) (σ : store) :
  σ !! l = Some (OChart c) -> "pair" ∉ columns (chart_data c) ->
  layer_call idx project select_pairs (PList []) styling_of m attrs_of enc_of
    G pos chart (Some l) σ = (Raise KeyError, σ).
Proof.
  intros Hl Hc. unfold layer_call, select_source.
  rewrite bind_assoc, (bind_Ok _ _ _ _ _ (get_chart_Ok _ _ _ Hl)), bind_ret.
  unfold bind at 1. rewrite (restrict_on_chart _ _ _ _ _ Hl). simpl.
  by rewrite select_pairs_nil, bool_decide_eq_false_2.
Qed.

(** X18. An empty list is not the same as no subset: where [subset=None]
    draws every row, a call with [subset=[]] that returns has drawn a chart
    without any row, in each of the four functions and whatever the source.
    The empty selection itself succeeds on every record set of nodes, and on
    a record set of edges exactly when it has a ['pair'] column: without
    that column [draw_networkx_edges] and [draw_networkx_arrows] in a layer
    raise [KeyError] for [subset=[]], leaving the store as it was. *)
Theorem empty_subset_draws_nothing (G : option loc) (pos : option Pos)
    (chart layer : option loc) (σ σ' : store) (r : loc) :
  ((forall a, EdgesArgs.subset a = PList [] ->
      draw_networkx_edges G pos chart layer a σ = (Ok r, σ') ->
      exists cr, σ' !! r = Some (OChart cr) /\ n_rows (chart_data cr) = 0%nat) /\
   (forall a, ArrowsArgs.subset a = PList [] ->
      draw_networkx_arrows G pos chart layer a σ = (Ok r, σ') ->
      exists cr, σ' !! r = Some (OChart cr) /\ n_rows (chart_data cr) = 0%nat) /\
   (forall a, NodesArgs.subset a = PList [] ->
      draw_networkx_nodes G pos chart layer a σ = (Ok r, σ') ->
      exists cr, σ' !! r = Some (OChart cr) /\ n_rows (chart_data cr) = 0%nat) /\
   (forall a, LabelsArgs.subset a = PList [] ->
      draw_networkx_labels G pos chart layer a σ = (Ok r, σ') ->
      exists cr, σ' !! r = Some (OChart cr) /\ n_rows (chart_data cr) = 0%nat)) /\
  (forall df, restricted loc_labels (PList []) df = Ok (no_rows df)) /\
  (forall df, restricted select_pairs (PList []) df
              = if bool_decide ("pair" ∈ columns df) then Ok (no_rows df)
                else Raise KeyError) /\
  (forall l c, layer = Some l -> σ !! l = Some (OChart c) ->
     "pair" ∉ columns (chart_data c) ->
     (forall a, EdgesArgs.subset a = PList [] ->
        draw_networkx_edges G pos chart layer a σ = (Raise KeyError, σ)) /\
     (forall a, ArrowsArgs.subset a = PList [] ->
        draw_networkx_arrows G pos chart layer a σ = (Raise KeyError, σ))).
Proof.
  split_and!.
  - intros a Hsub E. rewrite draw_networkx_edges_call, Hsub in E.
    apply layer_call_data in E as (df & df' & cr & Hr & Hcr & <-).
    exists cr. split; [done|]. simpl in Hr. rewrite select_pairs_nil in Hr.
    case_bool_decide; [|discriminate]. by injection Hr as <-.
  - intros a Hsub E. rewrite draw_networkx_arrows_call, Hsub in E.
    apply layer_call_data in E as (df & df' & cr & Hr & Hcr & <-).
    exists cr. split; [done|]. simpl in Hr. rewrite select_pairs_nil in Hr.
    case_bool_decide; [|discriminate]. by injection Hr as <-.
  - intros a Hsub E. rewrite draw_networkx_nodes_call, Hsub in E.
    apply layer_call_data in E as (df & df' & cr & Hr & Hcr & <-).
    exists cr. split; [done|]. simpl in Hr. rewrite loc_labels_nil in Hr.
    by injection Hr as <-.
  - intros a Hsub E. rewrite draw_networkx_labels_call, Hsub in E.
    apply layer_call_data in E as (df & df' & cr & Hr & Hcr & <-).
    exists cr. split; [done|]. simpl in Hr. rewrite loc_labels_nil in Hr.
    by injection Hr as <-.
  - intros df. apply loc_labels_nil.
  - intros df. apply select_pairs_nil.
  - intros l c -> Hl Hc. split; intros a Hsub.
    + rewrite draw_networkx_edges_call, Hsub. by eapply layer_call_no_pair.
    + rewrite draw_networkx_arrows_call, Hsub. by eapply layer_call_no_pair.
Qed.
End empty_subset.

(** ** [draw_networkx] over a chart *)

Section over_chart.
Context `{!Externals}.

Lemma edge_layers_over_chart G Gv (p p' : Pos) (ch : loc) a :
  edge_layers G Gv p (Some ch) a = edge_layers G Gv p' (Some ch) a.
Proof. reflexivity. Qed.

Lemma node_layers_over_chart G Gv (p p' : Pos) (ch : loc) a :
  node_layers G Gv p (Some ch) a = node_layers G Gv p' (Some ch) a.
Proof. reflexivity. Qed.

(** X19. Over a chart the positions play no part in what [draw_networkx]
    draws: with both sizes given, two calls that differ in their (non-empty)
    positions only return the same result and leave the same store; the
    layers are the restyled layers of the chart, not a new layout. *)
Theorem positions_are_ignored_over_a_chart (G : option loc) (p1 p2 : Pos) (ch : loc)
    (a : NetworkxArgs.t) (w h : Q) (σ : store) :
  p1 <> [] -> p2 <> [] ->
  NetworkxArgs.chart_width a = Some w -> NetworkxArgs.chart_height a = Some h ->
  (0 < w)%Q -> (0 < h)%Q ->
  draw_networkx G (Some p1) (Some ch) a σ = draw_networkx G (Some p2) (Some ch) a σ.
Proof.
  intros H1 H2 Hw Hh Hwp Hhp. unfold draw_networkx.
  apply bind_ext. intros G1 σ1. rewrite Hw, Hh.
  destruct (scale_coordinates_keys p1 w h H1 Hwp Hhp) as (q1 & E1 & _).
  destruct (scale_coordinates_keys p2 w h H2 Hwp Hhp) as (q2 & E2 & _).
  assert (P1 : positions G1 (Some p1) σ1 = (Ok p1, σ1))
    by (destruct p1; [done|reflexivity]).
  assert (P2 : positions G1 (Some p2) σ1 = (Ok p2, σ1))
    by (destruct p2; [done|reflexivity]).
  rewrite (bind_Ok _ _ _ _ _ P1), (bind_Ok _ _ _ _ _ P2).
  rewrite E1, E2. unfold bind at 1 5, lift.
  apply bind_ext. intros Gv σ2.
  rewrite (edge_layers_over_chart G1 Gv q1 q2).
  apply bind_ext. intros el σ3.
  by rewrite (node_layers_over_chart G1 Gv q1 q2).
Qed.
End over_chart.

Lemma empty_subset_draws_nothing_witness :
  exists σ' cr,
    draw_networkx_nodes (H := demo_externals) None None None (Some 1%nat)
      (nodes_subset []) demo_store = (Ok 2%nat, σ') /\
    σ' !! 2%nat = Some (OChart cr) /\ n_rows (chart_data cr) = 0%nat.
Proof.
  pose (out := draw_networkx_nodes (H := demo_externals) None None None (Some 1%nat)
                 (nodes_subset []) demo_store).
  assert (E : out = (Ok 2%nat, out.2)) by (vm_compute; reflexivity).
  destruct (proj1 (proj2 (proj2 (proj1
              (empty_subset_draws_nothing (H := demo_externals) None None None
                 (Some 1%nat) demo_store out.2 2%nat))))
              (nodes_subset []) eq_refl E) as (cr & H1 & H2).
  by exists out.2, cr.
Defined.

Lemma positions_are_ignored_over_a_chart_witness :
  draw_networkx (H := demo_externals) (Some 3%nat) (Some tall_pos) (Some 2%nat)
    NetworkxArgs.defaults (demo_layered_store ++ [OGraph path_graph])
  = draw_networkx (H := demo_externals) (Some 3%nat) (Some upright_pos) (Some 2%nat)
      NetworkxArgs.defaults (demo_layered_store ++ [OGraph path_graph]).
Proof.
  apply (positions_are_ignored_over_a_chart (H := demo_externals) (Some 3%nat)
           tall_pos upright_pos 2%nat NetworkxArgs.defaults 500 300);
    (discriminate || reflexivity).
Defined.

(** ** C9: which source a drawing function takes *)

Section precedence.
Context `{!Externals}.





End precedence.

